(** * Medusa documentation checker ([scripts/check_docs.py])

    A shallow embedding of [DocChecker]: the three pattern-based extractors
    (CLI flags, cheatcode methods, configuration fields), the validators that
    look each extracted name up in a documentation text, and the final
    report with its exit code.

    Conventions of the model.
    - A text is a [string]; a character is a code point below 256, and the
      character classes of Python ([\s], [\w], [str.isupper], [str.lower])
      are written out on that range.
    - The repository is a function from a relative path to the text of the
      file, [None] when the file does not exist.
    - A Python [set] of names is a [gset string], the [dict] of fields a
      [gmap string string]; iterating over them uses stdpp's enumeration,
      one fixed order where Python's order is left to the hash table.
    - [self.errors], [self.warnings] and the printed lines are the fields of
      the record [DocChecker], threaded through every method. *)

From Stdlib Require Import String Ascii List Bool Arith NArith Lia.
From stdpp Require Import gmap strings list fin_maps pretty.

Local Open Scope string_scope.
Local Open Scope nat_scope.
Local Open Scope list_scope.

#[local] Arguments String.append !_ _ / : simpl nomatch.
#[local] Set Warnings "-clear-no-such-hyp".

(** ** Characters and the character classes of the patterns *)

Module Chars.

(** The code point of a character. *)
Definition code (c : ascii) : N := N_of_ascii c.

Definition between (lo hi : N) (c : ascii) : bool :=
  (lo <=? code c)%N && (code c <=? hi)%N.

Definition at_code (n : N) (c : ascii) : bool := (code c =? n)%N.

(** [\s] on a [str] pattern: tab .. carriage return, the four separators
    0x1c .. 0x1f, the space, NEL and the no-break space. *)
Definition isspace (c : ascii) : bool :=
  between 9 13 c || between 28 31 c || at_code 32 c
  || at_code 133 c || at_code 160 c.

Definition isdigit (c : ascii) : bool := between 48 57 c.
Definition isasciiupper (c : ascii) : bool := between 65 90 c.
Definition isasciilower (c : ascii) : bool := between 97 122 c.

(** [str.isupper] on one character: the capital letters of Latin-1. *)
Definition isupper (c : ascii) : bool :=
  isasciiupper c || between 192 214 c || between 216 222 c.

(** [\w] on a [str] pattern: alphanumeric characters and the underscore. *)
Definition isword (c : ascii) : bool :=
  isdigit c || isasciiupper c || isasciilower c || at_code 95 c
  || at_code 170 c || at_code 178 c || at_code 179 c || at_code 181 c
  || at_code 185 c || at_code 186 c || between 188 190 c
  || between 192 214 c || between 216 246 c || between 248 255 c.

(** [str.lower] on one character. *)
Definition to_lower (c : ascii) : ascii :=
  if isupper c then ascii_of_N (code c + 32) else c.

Definition isnot (a c : ascii) : bool := negb (Ascii.eqb a c).

(** [[^\s`]] *)
Definition not_space_backtick (c : ascii) : bool :=
  negb (isspace c) && isnot "`" c.

End Chars.

(** ** String operations of the source *)

Module Str.

(** [s.startswith(p)], returning what follows the prefix. *)
Fixpoint strip_prefix (p s : string) : option string :=
  match p, s with
  | EmptyString, _ => Some s
  | String a p', String b s' =>
      if Ascii.eqb a b then strip_prefix p' s' else None
  | String _ _, EmptyString => None
  end.

Definition startswith (p s : string) : bool :=
  match strip_prefix p s with Some _ => true | None => false end.

(** [needle in hay] *)
Fixpoint contains (needle hay : string) : bool :=
  startswith needle hay
  || match hay with
     | EmptyString => false
     | String _ hay' => contains needle hay'
     end.

(** [s.endswith(p)] *)
Fixpoint endswith (p s : string) : bool :=
  String.eqb p s
  || match s with
     | EmptyString => false
     | String _ s' => endswith p s'
     end.

(** [s.split(c)[0]]: the text before the first [c], all of [s] without one. *)
Fixpoint before (c : ascii) (s : string) : string :=
  match s with
  | EmptyString => EmptyString
  | String a s' => if Ascii.eqb a c then EmptyString else String a (before c s')
  end.

(** [s.lower()], on the characters of the model: below U+0100 lowering
    works character by character and keeps the length. *)
Fixpoint lower (s : string) : string :=
  match s with
  | EmptyString => EmptyString
  | String a s' => String (Chars.to_lower a) (lower s')
  end.

(** [c * n] for a one-character string. *)
Fixpoint times (c : ascii) (n : nat) : string :=
  match n with
  | 0 => EmptyString
  | S n' => String c (times c n')
  end.

Fixpoint all (p : ascii -> bool) (s : string) : bool :=
  match s with
  | EmptyString => true
  | String a s' => p a && all p s'
  end.

End Str.

(** ** The fragment of [re] the patterns use

    Literals, greedy repetition of a character class, alternation,
    concatenation and capturing groups, matched by backtracking: a greedy
    repetition takes as many characters as it can and gives them back one
    at a time while the rest of the pattern fails. *)

Module Re.

Inductive regex : Type :=
| Lit (s : string)
| Star (p : ascii -> bool)
| Plus (p : ascii -> bool)
| Or (r1 r2 : regex)
| Cat (r1 r2 : regex)
| Group (r : regex).

(** The text a sub-pattern consumed between [s] and the remainder [s']. *)
Definition consumed (s s' : string) : string :=
  substring 0 (String.length s - String.length s') s.

Section Matcher.
Context {R : Type}.

Fixpoint star (p : ascii -> bool) (s : string) (k : string -> option R)
  : option R :=
  match s with
  | String c s' =>
      if p c then
        match star p s' k with
        | Some r => Some r
        | None => k s
        end
      else k s
  | EmptyString => k s
  end.

Fixpoint rmatch (r : regex) (s : string) (gs : list string)
    (k : string -> list string -> option R) : option R :=
  match r with
  | Lit l =>
      match Str.strip_prefix l s with
      | Some s' => k s' gs
      | None => None
      end
  | Star p => star p s (fun s' => k s' gs)
  | Plus p =>
      match s with
      | String c s' => if p c then star p s' (fun s'' => k s'' gs) else None
      | EmptyString => None
      end
  | Or r1 r2 =>
      match rmatch r1 s gs k with
      | Some x => Some x
      | None => rmatch r2 s gs k
      end
  | Cat r1 r2 => rmatch r1 s gs (fun s' gs' => rmatch r2 s' gs' k)
  | Group r' => rmatch r' s gs (fun s' gs' => k s' (gs' ++ [consumed s s']))
  end.
End Matcher.

(** A match anchored at the start of [s]: the remainder and the groups. *)
Definition match_at (r : regex) (s : string) : option (string * list string) :=
  rmatch r s [] (fun s' gs => Some (s', gs)).

(** [re.search(r, s)]: the groups of the leftmost match. *)
Fixpoint search (r : regex) (s : string) : option (list string) :=
  match match_at r s with
  | Some (_, gs) => Some gs
  | None =>
      match s with
      | String _ s' => search r s'
      | EmptyString => None
      end
  end.

(** [re.findall(r, s)]: the groups of the successive non-overlapping
    matches, left to right.  The scan resumes where a match ended, or one
    character further when nothing matched or the match was empty. *)
Fixpoint findall_from (fuel : nat) (r : regex) (s : string)
  : list (list string) :=
  match fuel with
  | 0 => []
  | S fuel' =>
      match match_at r s with
      | Some (s', gs) =>
          gs :: (if String.length s' <? String.length s
                 then findall_from fuel' r s'
                 else match s with
                      | String _ t => findall_from fuel' r t
                      | EmptyString => []
                      end)
      | None =>
          match s with
          | String _ t => findall_from fuel' r t
          | EmptyString => []
          end
      end
  end.

Definition findall (r : regex) (s : string) : list (list string) :=
  findall_from (S (String.length s)) r s.

(** What [findall] hands to Python for one match: the string of the group
    when the pattern has one group, the tuple of the groups otherwise. *)
Inductive item : Type :=
| IStr (s : string)
| ITuple (gs : list string).

Definition to_item (gs : list string) : item :=
  match gs with
  | [g] => IStr g
  | _ => ITuple gs
  end.

Definition seq (rs : list regex) : regex :=
  fold_right Cat (Lit "") rs.

(** What a successful match is: [Matches r s gs s' gs'] when [r] matches
    a prefix of [s], leaves [s'], and extends the groups [gs] to [gs']. *)
Inductive Matches : regex -> string -> list string -> string -> list string
                    -> Prop :=
| M_Lit l s gs :
    Matches (Lit l) (l +:+ s) gs s gs
| M_Star p pre s gs :
    Str.all p pre = true ->
    Matches (Star p) (pre +:+ s) gs s gs
| M_Plus p c pre s gs :
    p c = true -> Str.all p pre = true ->
    Matches (Plus p) (String c (pre +:+ s)) gs s gs
| M_Or_l r1 r2 s gs s' gs' :
    Matches r1 s gs s' gs' -> Matches (Or r1 r2) s gs s' gs'
| M_Or_r r1 r2 s gs s' gs' :
    Matches r2 s gs s' gs' -> Matches (Or r1 r2) s gs s' gs'
| M_Cat r1 r2 s gs s1 gs1 s2 gs2 :
    Matches r1 s gs s1 gs1 -> Matches r2 s1 gs1 s2 gs2 ->
    Matches (Cat r1 r2) s gs s2 gs2
| M_Group r s gs s' gs' :
    Matches r s gs s' gs' ->
    Matches (Group r) s gs s' (gs' ++ [consumed s s']).

Definition alt (r : regex) (rs : list regex) : regex :=
  fold_left Or rs r.

End Re.

(** ** The patterns of the source *)

Module Patterns.
Import Re.

Definition dquote : ascii := ascii_of_nat 34.
Definition q : string := String dquote EmptyString.
Definition not_dquote : ascii -> bool := Chars.isnot dquote.

(** In the comments of this module the double quote of the source is
    written ['].

    [\.Flags\(\)\.(?:String|Int|Bool|Uint64|StringSlice)\('([^']+)'] *)
Definition typed_flag : regex :=
  seq [Lit ".Flags().";
       alt (Lit "String")
         [Lit "Int"; Lit "Bool"; Lit "Uint64"; Lit "StringSlice"];
       Lit "("; Lit q; Group (Plus not_dquote); Lit q].

(** [\.Flags\(\)\.CountP\('([^']+)',\s*'([^']+)'] *)
Definition count_flag : regex :=
  seq [Lit ".Flags().CountP("; Lit q; Group (Plus not_dquote); Lit q;
       Lit ","; Star Chars.isspace;
       Lit q; Group (Plus not_dquote); Lit q].

Definition flag_patterns : list regex := [typed_flag; count_flag].

(** What [([^']+)] captures: a text that is not empty and holds no double
    quote. *)
Definition quoted (name : string) : Prop :=
  name <> "" /\ Str.all not_dquote name = true.

(** [addMethod\(\s*'([^']+)'] *)
Definition cheatcode_pattern : regex :=
  seq [Lit "addMethod("; Star Chars.isspace;
       Lit q; Group (Plus not_dquote); Lit q].

(** [type {struct_name} struct\s*{([^}]+)}]; the name is spliced into the
    pattern as it is, so it stands for itself as long as it is made of
    letters, digits and underscores, like every name of the check table. *)
Definition struct_pattern (struct_name : string) : regex :=
  seq [Lit "type "; Lit struct_name; Lit " struct"; Star Chars.isspace;
       Lit "{"; Group (Plus (Chars.isnot "}")); Lit "}"].

(** [(\w+)\s+([^\s`]+)\s*`json:'([^']+)'] *)
Definition field_pattern : regex :=
  seq [Group (Plus Chars.isword); Plus Chars.isspace;
       Group (Plus Chars.not_space_backtick); Star Chars.isspace;
       Lit "`json:"; Lit q; Group (Plus not_dquote); Lit q].

End Patterns.

(** ** The checker *)

Record DocChecker : Type := mkDocChecker {
  errors : list string;
  warnings : list string;
  printed : list string
}.

(** [DocChecker(repo_root)] *)
Definition init : DocChecker :=
  {| errors := []; warnings := []; printed := [] |}.

Definition add_error (m : string) (self : DocChecker) : DocChecker :=
  {| errors := errors self ++ [m];
     warnings := warnings self;
     printed := printed self |}.

Definition add_warning (m : string) (self : DocChecker) : DocChecker :=
  {| errors := errors self;
     warnings := warnings self ++ [m];
     printed := printed self |}.

Definition print (line : string) (self : DocChecker) : DocChecker :=
  {| errors := errors self;
     warnings := warnings self;
     printed := printed self ++ [line] |}.

(** [go_field_name[0].isupper()]; the name is a match of [\w+], never
    empty (lemma [PatternFacts.field_shape]). *)
Definition first_isupper (s : string) : bool :=
  match s with
  | String c _ => Chars.isupper c
  | EmptyString => false
  end.

(** The three messages of the per-symbol errors. *)
Definition flag_message (command doc_file flag : string) : string :=
  "CLI flag '--" +:+ flag +:+ "' for '" +:+ command
  +:+ "' command not documented in " +:+ doc_file.

Definition cheatcode_doc : string :=
  "docs/src/cheatcodes/cheatcodes_overview.md".

Definition cheatcode_message (method_name : string) : string :=
  "Cheatcode '" +:+ method_name +:+ "' not found in interface at "
  +:+ cheatcode_doc.

Definition field_message (doc_file field_name struct_name : string) : string :=
  "Config field '" +:+ field_name +:+ "' from " +:+ struct_name
  +:+ " not documented in " +:+ doc_file.

(** The presence tests of the three validators. *)
Definition flag_present (doc_content flag : string) : bool :=
  Str.contains ("--" +:+ flag) doc_content
  || Str.contains ("`" +:+ flag +:+ "`") doc_content.

Definition cheatcode_present (interface_content method_name : string) : bool :=
  Str.contains ("function " +:+ method_name +:+ "(") interface_content.

Definition field_present (doc_content field_name : string) : bool :=
  Str.contains ("`" +:+ field_name +:+ "`") doc_content
  || Str.contains ("## " +:+ field_name) (Str.lower doc_content).

(** The body of the loop over the matches of one flag pattern. *)
Definition add_flag (flags : gset string) (m : list string) : gset string :=
  match Re.to_item m with
  | Re.ITuple gs => flags ∪ {[ nth 0 gs "" ]}
  | Re.IStr s => flags ∪ {[ s ]}
  end.

Definition flags_of (content : string) : gset string :=
  fold_left
    (fun flags pattern => fold_left add_flag (Re.findall pattern content) flags)
    Patterns.flag_patterns ∅.

(** [cheatcodes.update(matches)]: the pattern has one group, every match
    is a string. *)
Definition item_string (gs : list string) : option string :=
  match Re.to_item gs with
  | Re.IStr s => Some s
  | Re.ITuple _ => None
  end.

Definition cheatcodes_of (content : string) : gset string :=
  list_to_set (omap item_string (Re.findall Patterns.cheatcode_pattern content)).

(** [{cheatcode.split("(")[0] for cheatcode in cheatcodes}] *)
Definition base_methods_of (cheatcodes : gset string) : gset string :=
  set_map (Str.before "(") cheatcodes.

(** The body of the loop over the fields matched in one struct body. *)
Definition nested_config_types : list string :=
  ["TestingConfig"; "CheatCodeConfig"; "ForkConfig"].

Definition add_field (struct_name : string) (fields : gmap string string)
    (m : list string) : gmap string string :=
  match m with
  | [go_field_name; field_type; json_field_name] =>
      if negb (first_isupper go_field_name) then fields
      else if Str.contains ",omitempty" json_field_name then fields
      else
        let json_field_name := Str.before "," json_field_name in
        if Str.endswith "Config" field_type
           || existsb (String.eqb field_type) nested_config_types
        then fields
        else <[json_field_name := struct_name]> fields
  | _ => fields
  end.

(** The body of the loop over the requested struct names. *)
Definition add_struct (content : string) (fields : gmap string string)
    (struct_name : string) : gmap string string :=
  match Re.search (Patterns.struct_pattern struct_name) content with
  | None => fields
  | Some gs =>
      let struct_body := nth 0 gs "" in
      fold_left (add_field struct_name)
        (Re.findall Patterns.field_pattern struct_body) fields
  end.

Definition fields_of (content : string) (struct_names : list string)
  : gmap string string :=
  fold_left (add_struct content) struct_names ∅.

Definition config_mappings : list (string * list string * string) :=
  [ ("fuzzing/config/config.go",
     ["FuzzingConfig"],
     "docs/src/project_configuration/fuzzing_config.md");
    ("fuzzing/config/config.go",
     ["TestingConfig"; "AssertionTestingConfig"; "PropertyTestingConfig";
      "OptimizationTestingConfig"],
     "docs/src/project_configuration/testing_config.md");
    ("chain/config/config.go",
     ["TestChainConfig"; "CheatCodeConfig"; "ForkConfig"],
     "docs/src/project_configuration/chain_config.md");
    ("compilation/compilation_config.go",
     ["CompilationConfig"],
     "docs/src/project_configuration/compilation_config.md");
    ("fuzzing/config/config.go",
     ["LoggingConfig"],
     "docs/src/project_configuration/logging_config.md") ].

Definition rule : string := Str.times "=" 70.

Section Checker.

(** The files under [repo_root]: the text at a path, [None] when the
    path does not exist. *)
Variable repo : string -> option string.

Definition _extract_flags_from_file (file_path : string) (self : DocChecker)
  : gset string * DocChecker :=
  match repo file_path with
  | None => (∅, add_error ("Source file not found: " +:+ file_path) self)
  | Some content => (flags_of content, self)
  end.

Definition _validate_flags_documented (flags : gset string)
    (command doc_file : string) (self : DocChecker) : DocChecker :=
  match repo doc_file with
  | None => add_error ("Documentation file not found: " +:+ doc_file) self
  | Some doc_content =>
      fold_left
        (fun self flag =>
           if negb (Str.contains ("--" +:+ flag) doc_content)
              && negb (Str.contains ("`" +:+ flag +:+ "`") doc_content)
           then add_error (flag_message command doc_file flag) self
           else self)
        (elements flags) self
  end.

Definition check_cli_flags (self : DocChecker) : DocChecker :=
  let self := print "Checking CLI flags documentation..." self in
  let '(fuzz_flags, self) :=
    _extract_flags_from_file "cmd/fuzz_flags.go" self in
  let self :=
    _validate_flags_documented fuzz_flags "fuzz" "docs/src/cli/fuzz.md" self in
  let '(init_flags, self) :=
    _extract_flags_from_file "cmd/init_flags.go" self in
  let self :=
    _validate_flags_documented init_flags "init" "docs/src/cli/init.md" self in
  print ("  Found " +:+ pretty (size fuzz_flags) +:+ " fuzz flags and "
         +:+ pretty (size init_flags) +:+ " init flags") self.

Definition cheatcode_source : string :=
  "chain/standard_cheat_code_contract.go".

Definition _extract_cheatcodes (self : DocChecker)
  : gset string * DocChecker :=
  match repo cheatcode_source with
  | None =>
      (∅, add_error ("Cheatcode source file not found: "
                      +:+ cheatcode_source) self)
  | Some content => (cheatcodes_of content, self)
  end.

Definition _validate_cheatcodes_in_interface (base_methods : gset string)
    (self : DocChecker) : DocChecker :=
  match repo cheatcode_doc with
  | None =>
      add_error ("Cheatcode interface file not found: " +:+ cheatcode_doc) self
  | Some interface_content =>
      fold_left
        (fun self method_name =>
           if negb (Str.contains ("function " +:+ method_name +:+ "(")
                      interface_content)
           then add_error (cheatcode_message method_name) self
           else self)
        (elements base_methods) self
  end.

(** The line [check_cheatcodes] prints about the two counts. *)
Definition cheatcode_counts (cheatcodes base_methods : gset string) : string :=
  "  Found " +:+ pretty (size cheatcodes) +:+ " cheatcode methods ("
  +:+ pretty (size base_methods) +:+ " unique base methods)".

Definition check_cheatcodes (self : DocChecker) : DocChecker :=
  let self := print "Checking cheatcodes documentation..." self in
  let '(cheatcodes, self) := _extract_cheatcodes self in
  let base_methods := base_methods_of cheatcodes in
  let self := print (cheatcode_counts cheatcodes base_methods) self in
  _validate_cheatcodes_in_interface base_methods self.

Definition _extract_config_fields (source_file : string)
    (struct_names : list string) (self : DocChecker)
  : gmap string string * DocChecker :=
  match repo source_file with
  | None =>
      (∅, add_warning ("Config source file not found: " +:+ source_file) self)
  | Some content => (fields_of content struct_names, self)
  end.

Definition _validate_config_fields_documented (fields : gmap string string)
    (doc_file : string) (self : DocChecker) : DocChecker :=
  match repo doc_file with
  | None =>
      add_error ("Config documentation file not found: " +:+ doc_file) self
  | Some doc_content =>
      fold_left
        (fun self '(field_name, struct_name) =>
           if negb (Str.contains ("`" +:+ field_name +:+ "`") doc_content)
              && negb (Str.contains ("## " +:+ field_name)
                         (Str.lower doc_content))
           then add_error (field_message doc_file field_name struct_name) self
           else self)
        (map_to_list fields) self
  end.

(** One turn of the loop of [check_config_fields] over the mappings. *)
Definition check_config_mapping (acc : nat * DocChecker)
    (mapping : string * list string * string) : nat * DocChecker :=
  let '(total_fields, self) := acc in
  let '(source_file, struct_names, doc_file) := mapping in
  let '(fields, self) :=
    _extract_config_fields source_file struct_names self in
  let total_fields := total_fields + size fields in
  if bool_decide (fields = ∅) then (total_fields, self)
  else (total_fields, _validate_config_fields_documented fields doc_file self).

Definition check_config_fields (self : DocChecker) : DocChecker :=
  let self := print "Checking configuration fields documentation..." self in
  let '(total_fields, self) :=
    fold_left check_config_mapping config_mappings (0, self) in
  print ("  Found " +:+ pretty total_fields
         +:+ " configuration fields across all config structs") self.

(** [report]: the lines printed and the code handed to [sys.exit]. *)
Definition report (self : DocChecker) : DocChecker * nat :=
  let self := print (String "010" rule) self in
  let self :=
    match warnings self with
    | [] => self
    | _ =>
        let self := print "Warnings:" self in
        let self :=
          fold_left (fun self warning => print ("  ⚠️  " +:+ warning) self)
            (warnings self) self in
        print "" self
    end in
  match errors self with
  | _ :: _ =>
      let self := print "Documentation validation FAILED:" self in
      let self := print "" self in
      let self :=
        fold_left (fun self error => print ("  ❌ " +:+ error) self)
          (errors self) self in
      let self := print "" self in
      let self :=
        print ("Total errors: " +:+ pretty (length (errors self))) self in
      let self := print rule self in
      (self, 1)
  | [] =>
      let self := print "✅ All documentation checks passed!" self in
      let self := print rule self in
      (self, 0)
  end.

(** [main]: the three checks, then the report.  The handler for an
    unexpected exception has nothing to catch in this model, where every
    file that exists can be read. *)
Definition main : DocChecker * nat :=
  let self := print rule init in
  let self := print "Medusa Documentation Validation" self in
  let self := print rule self in
  let self := print "" self in
  let self := check_cli_flags self in
  let self := check_cheatcodes self in
  let self := check_config_fields self in
  report self.

End Checker.

(** ** Sample texts *)

Module Samples.
Import Patterns.

Definition nl : string := String (ascii_of_nat 10) EmptyString.
Definition tab : string := String (ascii_of_nat 9) EmptyString.

(** [fuzzCmd.Flags().String('config', '', 'path to config file')] on one
    line, and the same call with a line break after the parenthesis, as
    gofmt leaves a call whose arguments are split over lines. *)
Definition flag_on_one_line : string :=
  "fuzzCmd.Flags().String(" +:+ q +:+ "config" +:+ q +:+ ", "
  +:+ q +:+ q +:+ ", " +:+ q +:+ "path to config file" +:+ q +:+ ")" +:+ nl.

Definition flag_on_two_lines : string :=
  "fuzzCmd.Flags().String(" +:+ nl +:+ tab +:+ q +:+ "config" +:+ q +:+ ", "
  +:+ q +:+ q +:+ ", " +:+ q +:+ "path to config file" +:+ q +:+ ")" +:+ nl.

(** The same layout for a cheatcode registration. *)
Definition method_on_two_lines : string :=
  "contract.addMethod(" +:+ nl +:+ tab +:+ q +:+ "warp" +:+ q
  +:+ ", abi.Arguments{}, abi.Arguments{}," +:+ nl.

(** Two overloads of [toString]. *)
Definition overloads : string :=
  "contract.addMethod(" +:+ q +:+ "toString(address)" +:+ q +:+ ", f)" +:+ nl
  +:+ "contract.addMethod(" +:+ nl +:+ tab +:+ q +:+ "toString(uint256)" +:+ q
  +:+ ", g)" +:+ nl.

(** A registration whose string starts with the parenthesis. *)
Definition nameless_method : string :=
  "contract.addMethod(" +:+ q +:+ "(uint256)" +:+ q +:+ ", f)" +:+ nl.

(** [type Limits struct] with an ordinary field, a field marked
    [,omitempty], one marked [,OmitEmpty], and one whose tag has no name. *)
Definition field (go ty tag : string) : string :=
  tab +:+ go +:+ " " +:+ ty +:+ " `json:" +:+ q +:+ tag +:+ q +:+ "`" +:+ nl.

Definition limits : string :=
  "type Limits struct {" +:+ nl
  +:+ field "Workers" "int" "workers"
  +:+ field "Timeout" "int" "timeout,omitempty"
  +:+ field "Depth" "int" "depth,OmitEmpty"
  +:+ field "Seed" "uint64" ",string"
  +:+ "}" +:+ nl.


(** A repository with no file at all, and repositories made of the given
    files. *)
Definition no_files : string -> option string := fun _ => None.

Definition files (l : list (string * string)) : string -> option string :=
  fun path =>
    match List.find (fun entry => String.eqb (fst entry) path) l with
    | Some entry => Some (snd entry)
    | None => None
    end.

End Samples.

(** ** Source texts made of flag declarations

    The two shapes the flag patterns are written for, with their tokens
    next to each other as in [.Flags().String('flag-name',], and a text
    that holds a list of them, each after some text of its own. *)

Module FlagSource.
Import Patterns.

Inductive setter : Type := SString | SInt | SBool | SUint64 | SStringSlice.

Definition setter_name (s : setter) : string :=
  match s with
  | SString => "String"
  | SInt => "Int"
  | SBool => "Bool"
  | SUint64 => "Uint64"
  | SStringSlice => "StringSlice"
  end.

(** A typed setter with its long name, or [CountP] with its long name,
    the white space after the comma, and its short name. *)
Inductive declaration : Type :=
| Typed (s : setter) (name : string)
| Counted (name gap short : string).

Definition flag_name (d : declaration) : string :=
  match d with
  | Typed _ name => name
  | Counted name _ _ => name
  end.

Definition render (d : declaration) : string :=
  match d with
  | Typed s name =>
      ".Flags()." +:+ setter_name s +:+ "(" +:+ q +:+ name +:+ q
  | Counted name gap short =>
      ".Flags().CountP(" +:+ q +:+ name +:+ q +:+ "," +:+ gap
      +:+ q +:+ short +:+ q
  end.

(** A text without a dot: no declaration starts in it. *)
Definition inert (s : string) : Prop := Str.all (Chars.isnot ".") s = true.

(** A name between the quotes: not empty, no double quote, no dot. *)
Definition flag_like (name : string) : Prop := quoted name /\ inert name.

Definition valid (d : declaration) : Prop :=
  match d with
  | Typed _ name => flag_like name
  | Counted name gap short =>
      flag_like name /\ Str.all Chars.isspace gap = true /\ flag_like short
  end.

(** The declarations, each after a text of its own, then a last text. *)
Fixpoint source (items : list (string * declaration)) (last : string)
  : string :=
  match items with
  | [] => last
  | (filler, d) :: items' => filler +:+ render d +:+ source items' last
  end.

Definition well_formed (items : list (string * declaration)) (last : string)
  : Prop :=
  Forall (fun item => inert (fst item) /\ valid (snd item)) items
  /\ inert last.

Definition names (items : list (string * declaration)) : list string :=
  map (fun item => flag_name (snd item)) items.

End FlagSource.

(** ** Notions used to state the properties *)

(** The key [add_field] stores for one match of the field pattern, [None]
    when it skips the field. *)
Definition field_key (m : list string) : option string :=
  match m with
  | [go_field_name; field_type; json_field_name] =>
      if first_isupper go_field_name
         && negb (Str.contains ",omitempty" json_field_name)
         && negb (Str.endswith "Config" field_type
                  || existsb (String.eqb field_type) nested_config_types)
      then Some (Str.before "," json_field_name)
      else None
  | _ => None
  end.

(** Whether the block of [struct_name] in [content] has a field stored
    under the key [k]. *)
Definition declares (content struct_name k : string) : bool :=
  match Re.search (Patterns.struct_pattern struct_name) content with
  | None => false
  | Some gs =>
      existsb (fun m => bool_decide (field_key m = Some k))
        (Re.findall Patterns.field_pattern (nth 0 gs ""))
  end.

(** The names a validator reports: those of the extraction that fail its
    presence test, in the order of the iteration. *)
Definition undocumented_flags (doc_content : string) (flags : gset string)
  : list string :=
  List.filter (fun flag => negb (flag_present doc_content flag))
    (elements flags).

Definition undocumented_cheatcodes (interface_content : string)
    (base_methods : gset string) : list string :=
  List.filter (fun m => negb (cheatcode_present interface_content m))
    (elements base_methods).

Definition undocumented_fields (doc_content : string)
    (fields : gmap string string) : list (string * string) :=
  List.filter (fun p => negb (field_present doc_content (fst p)))
    (map_to_list fields).

Definition with_errors (self : DocChecker) (ms : list string) : DocChecker :=
  {| errors := errors self ++ ms;
     warnings := warnings self;
     printed := printed self |}.

(** The three kinds of symbols and what each extractor produces from a
    source text. *)
Inductive kind : Type := Flag | Method | ConfigField.

Definition extracted (content : string) (struct_names : list string)
    (k : kind) (name : string) : Prop :=
  match k with
  | Flag => name ∈ flags_of content
  | Method => name ∈ base_methods_of (cheatcodes_of content)
  | ConfigField => is_Some (fields_of content struct_names !! name)
  end.

(** [name] is [full] cut at its first [delimiter]: it holds no delimiter,
    and it is empty exactly when [full], itself not empty, starts with
    one. *)
Definition cut_at (delimiter : ascii) (full name : string) : Prop :=
  name = Str.before delimiter full
  /\ full <> ""
  /\ Str.all (Chars.isnot delimiter) name = true
  /\ (name = "" <-> exists rest, full = String delimiter rest).

(** ** Notions used to state further properties *)

(** A flag pairing passes when its source and its documentation exist and
    every extracted flag passes the presence test; likewise for the
    cheatcodes.  A config pairing passes when, if its source exists and
    the extraction is not empty, its documentation exists and every
    extracted key passes the presence test. *)
Definition flags_pass (repo : string -> option string)
    (source_file doc_file : string) : Prop :=
  exists content doc_content,
    repo source_file = Some content
    /\ repo doc_file = Some doc_content
    /\ forall flag, flag ∈ flags_of content ->
                    flag_present doc_content flag = true.

Definition cheatcodes_pass (repo : string -> option string) : Prop :=
  exists content interface_content,
    repo cheatcode_source = Some content
    /\ repo cheatcode_doc = Some interface_content
    /\ forall m, m ∈ base_methods_of (cheatcodes_of content) ->
                 cheatcode_present interface_content m = true.

Definition config_pass (repo : string -> option string)
    (mapping : string * list string * string) : Prop :=
  forall content,
    repo (fst (fst mapping)) = Some content ->
    fields_of content (snd (fst mapping)) <> ∅ ->
    exists doc_content,
      repo (snd mapping) = Some doc_content
      /\ forall k, is_Some (fields_of content (snd (fst mapping)) !! k) ->
                   field_present doc_content k = true.

(** [after] holds everything [before] holds, in the same order: the
    errors, the warnings and the printed lines of [before] start those of
    [after]. *)
Definition extends (before after : DocChecker) : Prop :=
  (exists new, errors after = errors before ++ new)
  /\ (exists new, warnings after = warnings before ++ new)
  /\ (exists new, printed after = printed before ++ new).

(** The diagnostics and the lines of [b] after those of [a]. *)
Definition combine (a b : DocChecker) : DocChecker :=
  {| errors := errors a ++ errors b;
     warnings := warnings a ++ warnings b;
     printed := printed a ++ printed b |}.

(** A method that adds to the checker it is given what it adds to a fresh
    one: it reads nothing of what the checker holds. *)
Definition adds_the_same (f : DocChecker -> DocChecker) : Prop :=
  forall self, f self = combine self (f init).

(** What stands at a path of the repository: nothing, something that
    exists and cannot be read as text (a directory, a file without read
    permission or one that is not UTF-8), or a text. *)
Inductive entry : Type :=
| Absent
| Unreadable
| Text (content : string).

(** [repo] gives the texts of a tree in which everything that exists can
    be read as text.  On such a tree no [read_text] raises and the
    exception handler of [main] is not entered. *)
Definition reads_as (tree : string -> entry)
    (repo : string -> option string) : Prop :=
  forall path,
    match tree path with
    | Absent => repo path = None
    | Unreadable => False
    | Text content => repo path = Some content
    end.

(** A text whose characters are all below U+0100: the range of the
    model, on which [str.lower] works character by character as
    [Str.lower] does. *)
Definition latin1 (s : string) : Prop :=
  Str.all (fun c => (Chars.code c <? 256)%N) s = true.

(** A name made of word characters only: spliced into a pattern, it holds
    no special character and stands for itself. *)
Definition plain_name (struct_name : string) : Prop :=
  Str.all Chars.isword struct_name = true.

(** A cheatcode source that registers the same string twice. *)
Definition registered_twice : string :=
  "contract.addMethod(" +:+ Patterns.q +:+ "warp" +:+ Patterns.q
  +:+ ", f)" +:+ Samples.nl
  +:+ "contract.addMethod(" +:+ Patterns.q +:+ "warp" +:+ Patterns.q
  +:+ ", g)" +:+ Samples.nl.

(** ** Texts in which a keyword does not start *)

Module Layout.

(** The keyword starts at no position of [s], whatever text follows [s]:
    no suffix of [s] starts with the keyword, and none is a beginning of
    the keyword that the following text could complete. *)
Fixpoint quiet (keyword s : string) : bool :=
  match s with
  | EmptyString => true
  | String _ s' =>
      negb (Str.startswith keyword s) && negb (Str.startswith s keyword)
      && quiet keyword s'
  end.

End Layout.

(** ** Source texts made of flag declarations, in any surrounding text *)

Module FlagLayout.
Import Patterns Layout FlagSource.

Definition flags_call : string := ".Flags().".

(** Valid declarations, each after a text in which the keyword does not
    start, then a last such text. *)
Definition tidy_flags (items : list (string * declaration)) (last : string)
  : Prop :=
  Forall (fun item => quiet flags_call (fst item) = true /\ valid (snd item))
    items
  /\ quiet flags_call last = true.

(** What the flag patterns ask of a declaration: names between the quotes
    that are not empty and hold no double quote, white space after the
    comma. *)
Definition accepted (d : declaration) : Prop :=
  match d with
  | Typed _ name => quoted name
  | Counted name gap short =>
      quoted name /\ Str.all Chars.isspace gap = true /\ quoted short
  end.

End FlagLayout.

(** ** Source texts made of cheatcode registrations *)

Module CheatcodeSource.
Import Patterns Layout.

Definition method_call : string := "addMethod(".

(** A registration: the white space after the parenthesis and the string
    between the quotes. *)
Record registration : Type := mkRegistration {
  indent : string;
  signature : string
}.

Definition registration_text (r : registration) : string :=
  method_call +:+ indent r +:+ q +:+ signature r +:+ q.

Definition valid_registration (r : registration) : Prop :=
  Str.all Chars.isspace (indent r) = true /\ quoted (signature r).

Fixpoint registrations_text (items : list (string * registration))
    (last : string) : string :=
  match items with
  | [] => last
  | (filler, r) :: items' =>
      filler +:+ registration_text r +:+ registrations_text items' last
  end.

Definition tidy_registrations (items : list (string * registration))
    (last : string) : Prop :=
  Forall (fun item =>
            quiet method_call (fst item) = true
            /\ valid_registration (snd item))
    items
  /\ quiet method_call last = true.

Definition signatures (items : list (string * registration)) : list string :=
  map (fun item => signature (snd item)) items.

End CheatcodeSource.

(** ** Source texts made of a struct block with tagged fields *)

Module ConfigSource.
Import Patterns Layout.

(** The text that opens a json tag. *)
Definition tag_mark : string := "`json:" +:+ q.

(** A field up to the closing quote of its json tag: the Go name, white
    space, the type, white space, and the tag. *)
Record tagged_field : Type := mkField {
  go_name : string;
  sep : string;
  go_type : string;
  gap : string;
  tag : string
}.

Definition field_text (f : tagged_field) : string :=
  go_name f +:+ sep f +:+ go_type f +:+ gap f +:+ tag_mark +:+ tag f +:+ q.

Definition valid_field (f : tagged_field) : Prop :=
  go_name f <> "" /\ Str.all Chars.isword (go_name f) = true
  /\ sep f <> "" /\ Str.all Chars.isspace (sep f) = true
  /\ go_type f <> "" /\ Str.all Chars.not_space_backtick (go_type f) = true
  /\ Str.all Chars.isspace (gap f) = true
  /\ quoted (tag f).

(** The text of a field before its tag. *)
Definition before_tag (f : tagged_field) : string :=
  go_name f +:+ sep f +:+ go_type f +:+ gap f.

(** What the field pattern captures on a field. *)
Definition groups (f : tagged_field) : list string :=
  [go_name f; go_type f; tag f].

(** Whether the last character of [s] is a word character. *)
Fixpoint ends_word (s : string) : bool :=
  match s with
  | EmptyString => false
  | String c s' =>
      match s' with
      | EmptyString => Chars.isword c
      | String _ _ => ends_word s'
      end
  end.

(** A text before a field: no json tag opens in it, and it does not end
    with a word character, which would run into the name of the field. *)
Definition calm (filler : string) : Prop :=
  quiet tag_mark filler = true /\ ends_word filler = false.

(** The fields, each after a text of its own, then a last text. *)
Fixpoint body (items : list (string * tagged_field)) (last : string)
  : string :=
  match items with
  | [] => last
  | (filler, f) :: items' => filler +:+ field_text f +:+ body items' last
  end.

Definition tidy_body (items : list (string * tagged_field)) (last : string)
  : Prop :=
  Forall (fun item => calm (fst item) /\ valid_field (snd item)) items
  /\ quiet tag_mark last = true.

(** The head of a struct block, and the block with its body. *)
Definition head (struct_name : string) : string :=
  "type " +:+ struct_name +:+ " struct".

Definition block (struct_name space struct_body : string) : string :=
  head struct_name +:+ space +:+ "{" +:+ struct_body +:+ "}".

(** White space, one run of other characters, white space: the shape of
    what follows the Go name in a match of the field pattern. *)
Inductive phase : Type := Leading | Inside | Trailing.

Fixpoint one_word (seen : phase) (s : string) : bool :=
  match s with
  | EmptyString => true
  | String c s' =>
      match seen with
      | Leading =>
          if Chars.isspace c then one_word Leading s' else one_word Inside s'
      | Inside =>
          if Chars.isspace c then one_word Trailing s' else one_word Inside s'
      | Trailing =>
          if Chars.isspace c then one_word Trailing s' else false
      end
  end.

End ConfigSource.

(** * Properties *)

(** ** Strings *)

Module StrFacts.
Import Str.

Lemma append_nil_r (s : string) : s +:+ "" = s.
Proof. induction s as [|a s IH]; simpl; [reflexivity | now rewrite IH]. Qed.

Lemma append_assoc (a b c : string) : (a +:+ b) +:+ c = a +:+ b +:+ c.
Proof. induction a as [|x a IH]; simpl; [reflexivity | now rewrite IH]. Qed.

Lemma length_append (a b : string) :
  String.length (a +:+ b) = String.length a + String.length b.
Proof. induction a as [|x a IH]; simpl; [reflexivity | now rewrite IH]. Qed.

Lemma append_inv_r (a b t : string) : a +:+ t = b +:+ t -> a = b.
Proof.
  revert b; induction a as [|x a IH]; intros [|y b] H; simpl in H.
  - reflexivity.
  - apply (f_equal String.length) in H. simpl in H.
    rewrite length_append in H. lia.
  - apply (f_equal String.length) in H. simpl in H.
    rewrite length_append in H. lia.
  - injection H as -> H. f_equal. now apply IH.
Qed.

Lemma strip_prefix_app (p s : string) : strip_prefix p (p +:+ s) = Some s.
Proof.
  induction p as [|a p IH]; simpl; [reflexivity|].
  now rewrite Ascii.eqb_refl.
Qed.

Lemma strip_prefix_Some (p s t : string) :
  strip_prefix p s = Some t -> s = p +:+ t.
Proof.
  revert s; induction p as [|a p IH]; intros s H; simpl in H.
  - now injection H as ->.
  - destruct s as [|b s]; [discriminate|].
    destruct (Ascii.eqb_spec a b) as [->|]; [|discriminate].
    simpl. f_equal. now apply IH.
Qed.

Lemma startswith_app (p s : string) : startswith p (p +:+ s) = true.
Proof. unfold startswith. now rewrite strip_prefix_app. Qed.

Lemma contains_startswith (needle hay : string) :
  startswith needle hay = true -> contains needle hay = true.
Proof. intros H. destruct hay; simpl; now rewrite H. Qed.

(** [needle in hay] holds exactly when [hay] is some text, the needle, and
    some more text. *)
Lemma contains_app (needle pre post : string) :
  contains needle (pre +:+ needle +:+ post) = true.
Proof.
  induction pre as [|a pre IH]; simpl.
  - apply contains_startswith, startswith_app.
  - rewrite IH. apply orb_true_r.
Qed.

Lemma contains_inv (needle hay : string) :
  contains needle hay = true ->
  exists pre post, hay = pre +:+ needle +:+ post.
Proof.
  induction hay as [|a hay IH]; simpl; intros H.
  - rewrite orb_false_r in H. unfold startswith in H.
    destruct (strip_prefix needle "") as [t|] eqn:E; [|discriminate].
    exists "", t. simpl. now apply strip_prefix_Some.
  - apply orb_true_iff in H as [H|H].
    + unfold startswith in H.
      destruct (strip_prefix needle (String a hay)) as [t|] eqn:E;
        [|discriminate].
      exists "", t. simpl. now apply strip_prefix_Some.
    + destruct (IH H) as (pre & post & ->).
      now exists (String a pre), post.
Qed.

Lemma all_app (p : ascii -> bool) (a b : string) :
  all p (a +:+ b) = all p a && all p b.
Proof.
  induction a as [|x a IH]; simpl; [reflexivity|].
  now rewrite IH, andb_assoc.
Qed.

(** The text before the first [c] holds no [c]. *)
Lemma before_free (c : ascii) (s : string) :
  all (Chars.isnot c) (before c s) = true.
Proof.
  induction s as [|a s IH]; simpl; [reflexivity|].
  destruct (Ascii.eqb a c) eqn:E; simpl; [reflexivity|].
  unfold Chars.isnot at 1. rewrite Ascii.eqb_sym, E. exact IH.
Qed.

(** It is empty exactly when [s] is empty or starts with [c]. *)
Lemma before_empty (c : ascii) (s : string) :
  before c s = "" <-> s = "" \/ exists t, s = String c t.
Proof.
  destruct s as [|a s]; simpl.
  - split; [now left | reflexivity].
  - destruct (Ascii.eqb_spec a c) as [->|Hne]; split; intros H.
    + right. now exists s.
    + reflexivity.
    + discriminate.
    + destruct H as [H|[t H]]; [discriminate|]. injection H as H _.
      contradiction.
Qed.

Lemma before_id (c : ascii) (s : string) :
  all (Chars.isnot c) s = true -> before c s = s.
Proof.
  induction s as [|a s IH]; simpl; [reflexivity|].
  intros H. apply andb_true_iff in H as [Ha Hs].
  unfold Chars.isnot in Ha. rewrite Ascii.eqb_sym.
  destruct (Ascii.eqb c a); [discriminate|]. now rewrite IH.
Qed.

Lemma substring_app (a b : string) :
  substring 0 (String.length a) (a +:+ b) = a.
Proof. induction a as [|x a IH]; simpl; [now destruct b | now rewrite IH]. Qed.

End StrFacts.

(** ** The matcher *)

Module ReFacts.
Import Re StrFacts.

Lemma consumed_app (pre s : string) : consumed (pre +:+ s) s = pre.
Proof.
  unfold consumed. rewrite length_append.
  replace (String.length pre + String.length s - String.length s)
    with (String.length pre) by lia.
  apply substring_app.
Qed.

Lemma star_sound {R} (p : ascii -> bool) (s : string)
    (k : string -> option R) (x : R) :
  star p s k = Some x ->
  exists pre rest, s = pre +:+ rest /\ Str.all p pre = true /\ k rest = Some x.
Proof.
  induction s as [|c s IH]; simpl; intros H.
  - now exists "", "".
  - destruct (p c) eqn:Hc.
    + destruct (star p s k) as [y|] eqn:E.
      * injection H as ->. destruct (IH eq_refl) as (pre & rest & -> & Hp & Hk).
        exists (String c pre), rest. simpl. now rewrite Hc, Hp.
      * now exists "", (String c s).
    + now exists "", (String c s).
Qed.

(** Whatever the continuation, a result of the matcher comes from a match
    of the pattern followed by a success of the continuation. *)
Lemma rmatch_sound {R} (r : regex) :
  forall (s : string) (gs : list string)
         (k : string -> list string -> option R) (x : R),
    rmatch r s gs k = Some x ->
    exists s' gs', Matches r s gs s' gs' /\ k s' gs' = Some x.
Proof.
  induction r as [l|p|p|r1 IH1 r2 IH2|r1 IH1 r2 IH2|r IH];
    intros s gs k x H; simpl in H.
  - destruct (Str.strip_prefix l s) as [t|] eqn:E; [|discriminate].
    apply strip_prefix_Some in E as ->.
    exists t, gs. split; [constructor | exact H].
  - apply star_sound in H as (pre & rest & -> & Hp & Hk).
    exists rest, gs. split; [now constructor | exact Hk].
  - destruct s as [|c s]; [discriminate|].
    destruct (p c) eqn:Hc; [|discriminate].
    apply star_sound in H as (pre & rest & -> & Hp & Hk).
    exists rest, gs. split; [now constructor | exact Hk].
  - destruct (rmatch r1 s gs k) as [y|] eqn:E.
    + injection H as ->. destruct (IH1 _ _ _ _ E) as (s' & gs' & Hm & Hk).
      exists s', gs'. split; [now apply M_Or_l | exact Hk].
    + destruct (IH2 _ _ _ _ H) as (s' & gs' & Hm & Hk).
      exists s', gs'. split; [now apply M_Or_r | exact Hk].
  - destruct (IH1 _ _ _ _ H) as (s1 & gs1 & Hm1 & H1).
    destruct (IH2 _ _ _ _ H1) as (s2 & gs2 & Hm2 & H2).
    exists s2, gs2. split; [now apply M_Cat with s1 gs1 | exact H2].
  - destruct (IH _ _ _ _ H) as (s' & gs' & Hm & Hk).
    exists s', (gs' ++ [consumed s s']). split; [now constructor | exact Hk].
Qed.

Lemma match_at_sound (r : regex) (s s' : string) (gs : list string) :
  match_at r s = Some (s', gs) -> Matches r s [] s' gs.
Proof.
  intros H. apply rmatch_sound in H as (t & gs' & Hm & [= -> ->]). exact Hm.
Qed.

(** A match consumes a prefix of the text. *)
Lemma matches_prefix (r : regex) (s s' : string) (gs gs' : list string) :
  Matches r s gs s' gs' -> exists pre, s = pre +:+ s'.
Proof.
  induction 1 as [l s gs|p pre s gs Hp|p c pre s gs Hc Hp| | |
                  r1 r2 s gs s1 gs1 s2 gs2 _ [a ->] _ [b ->]| ].
  - now exists l.
  - now exists pre.
  - now exists (String c pre).
  - assumption.
  - assumption.
  - exists (a +:+ b). now rewrite append_assoc.
  - assumption.
Qed.

(** Every entry of [findall] is the groups of a match at some position. *)
Lemma findall_from_sound (r : regex) (fuel : nat) :
  forall (s : string) (gs : list string),
    In gs (findall_from fuel r s) ->
    exists pre t s', s = pre +:+ t /\ match_at r t = Some (s', gs).
Proof.
  induction fuel as [|fuel IH]; intros s gs H; simpl in H; [contradiction|].
  assert (Hskip :
    In gs (match s with
           | String _ t => findall_from fuel r t
           | EmptyString => []
           end) ->
    exists pre t s', s = pre +:+ t /\ match_at r t = Some (s', gs)).
  { destruct s as [|c s]; [contradiction|]. intros Hin.
    destruct (IH _ _ Hin) as (pre & t & s' & -> & Hm).
    now exists (String c pre), t, s'. }
  destruct (match_at r s) as [[s' gs']|] eqn:E; [|auto].
  destruct H as [->|H]; [now exists "", s, s'|].
  destruct (String.length s' <? String.length s); [|auto].
  pose proof (match_at_sound _ _ _ _ E) as Hm.
  apply matches_prefix in Hm as [a ->].
  destruct (IH _ _ H) as (pre & t & s'' & -> & Hm).
  exists (a +:+ pre), t, s''. now rewrite append_assoc.
Qed.

Lemma findall_sound (r : regex) (s : string) (gs : list string) :
  In gs (findall r s) ->
  exists pre t s', s = pre +:+ t /\ match_at r t = Some (s', gs).
Proof. apply findall_from_sound. Qed.

Lemma search_sound (r : regex) (s : string) (gs : list string) :
  search r s = Some gs ->
  exists pre t s', s = pre +:+ t /\ match_at r t = Some (s', gs).
Proof.
  induction s as [|c s IH]; simpl; intros H.
  - destruct (match_at r "") as [[s' gs']|] eqn:E; [|discriminate].
    injection H as ->. now exists "", "", s'.
  - destruct (match_at r (String c s)) as [[s' gs']|] eqn:E.
    + injection H as ->. now exists "", (String c s), s'.
    + destruct (IH H) as (pre & t & s' & -> & Hm).
      now exists (String c pre), t, s'.
Qed.

(** Enough fuel is as good as more fuel. *)
Lemma findall_from_fuel (r : regex) (n : nat) :
  forall (m : nat) (s : string),
    String.length s < n -> String.length s < m ->
    findall_from n r s = findall_from m r s.
Proof.
  induction n as [|n IH]; intros m s Hn Hm; [lia|].
  destruct m as [|m]; [lia|]. simpl.
  assert (Hskip :
    match s with
    | String _ t => findall_from n r t
    | EmptyString => []
    end
    = match s with
      | String _ t => findall_from m r t
      | EmptyString => []
      end).
  { destruct s as [|c t]; [reflexivity|]. simpl in Hn, Hm.
    apply IH; lia. }
  destruct (match_at r s) as [[s' gs]|]; [|exact Hskip].
  f_equal. destruct (String.length s' <? String.length s) eqn:E;
    [|exact Hskip].
  apply Nat.ltb_lt in E. apply IH; lia.
Qed.

Lemma findall_from_S (r : regex) (n : nat) (s : string) :
  findall_from (S n) r s
  = match match_at r s with
    | Some (s', gs) =>
        gs :: (if String.length s' <? String.length s
               then findall_from n r s'
               else match s with
                    | String _ t => findall_from n r t
                    | EmptyString => []
                    end)
    | None =>
        match s with
        | String _ t => findall_from n r t
        | EmptyString => []
        end
    end.
Proof. reflexivity. Qed.

(** The two steps of the scan. *)
Lemma findall_skip (r : regex) (c : ascii) (s : string) :
  match_at r (String c s) = None -> findall r (String c s) = findall r s.
Proof.
  intros H. unfold findall. rewrite findall_from_S, H.
  apply findall_from_fuel; simpl; lia.
Qed.

Lemma findall_match (r : regex) (s s' : string) (gs : list string) :
  match_at r s = Some (s', gs) -> String.length s' < String.length s ->
  findall r s = gs :: findall r s'.
Proof.
  intros H Hlen. unfold findall. rewrite findall_from_S, H.
  apply Nat.ltb_lt in Hlen as Hb. rewrite Hb. f_equal.
  apply findall_from_fuel; lia.
Qed.

Lemma findall_nil (r : regex) : match_at r "" = None -> findall r "" = [].
Proof. intros H. unfold findall. simpl. now rewrite H. Qed.

(** A greedy repetition that can take all of [pre], cannot take the next
    character, and after which the rest of the pattern succeeds. *)
Lemma star_greedy {R} (p : ascii -> bool) (pre : string) (c : ascii)
    (rest : string) (k : string -> option R) (x : R) :
  Str.all p pre = true -> p c = false ->
  k (String c rest) = Some x ->
  star p (pre +:+ String c rest) k = Some x.
Proof.
  intros Hpre Hc Hk. induction pre as [|a pre IH]; simpl.
  - now rewrite Hc.
  - simpl in Hpre. apply andb_true_iff in Hpre as [Ha Hpre].
    now rewrite Ha, (IH Hpre).
Qed.

End ReFacts.

(** ** What the patterns capture *)

Module PatternFacts.
Import Re StrFacts ReFacts Patterns.

Lemma consumed_cons (c : ascii) (pre s : string) :
  consumed (String c (pre +:+ s)) s = String c pre.
Proof. apply (consumed_app (String c pre)). Qed.

Ltac unravel :=
  repeat match goal with
    | H : Matches (Cat _ _) _ _ _ _ |- _ => inversion H; subst; clear H
    | H : Matches (Or _ _) _ _ _ _ |- _ => inversion H; subst; clear H
    | H : Matches (Lit _) _ _ _ _ |- _ => inversion H; subst; clear H
    | H : Matches (Group _) _ _ _ _ |- _ => inversion H; subst; clear H
    | H : Matches (Plus _) _ _ _ _ |- _ => inversion H; subst; clear H
    | H : Matches (Star _) _ _ _ _ |- _ => inversion H; subst; clear H
    end;
  rewrite ?consumed_cons in *.

Lemma quoted_cons (c : ascii) (pre : string) :
  not_dquote c = true -> Str.all not_dquote pre = true ->
  quoted (String c pre).
Proof. intros Hc Hp. split; [discriminate | simpl; now rewrite Hc, Hp]. Qed.

#[local] Hint Resolve quoted_cons : core.

Lemma typed_flag_shape (t s' : string) (gs : list string) :
  match_at typed_flag t = Some (s', gs) ->
  exists name, gs = [name] /\ quoted name.
Proof.
  intros H. apply match_at_sound in H.
  unfold typed_flag in H. cbn [seq alt fold_right fold_left] in H.
  unravel; eexists; split; simpl; eauto.
Qed.

Lemma count_flag_shape (t s' : string) (gs : list string) :
  match_at count_flag t = Some (s', gs) ->
  exists long short, gs = [long; short] /\ quoted long /\ quoted short.
Proof.
  intros H. apply match_at_sound in H.
  unfold count_flag in H. cbn [seq fold_right] in H.
  unravel. do 2 eexists; split; simpl; eauto.
Qed.

Lemma cheatcode_shape (t s' : string) (gs : list string) :
  match_at cheatcode_pattern t = Some (s', gs) ->
  exists name, gs = [name] /\ quoted name.
Proof.
  intros H. apply match_at_sound in H.
  unfold cheatcode_pattern in H. cbn [seq fold_right] in H.
  unravel. eexists; split; simpl; eauto.
Qed.

Lemma struct_shape (name t s' : string) (gs : list string) :
  match_at (struct_pattern name) t = Some (s', gs) ->
  exists body, gs = [body] /\ body <> "".
Proof.
  intros H. apply match_at_sound in H.
  unfold struct_pattern in H. cbn [seq fold_right] in H.
  unravel. eexists; split; simpl; [reflexivity | discriminate].
Qed.

(** The three groups of a field: the Go name is a run of word characters,
    so [go_field_name[0]] exists; the tag is not empty and holds no double
    quote. *)
Lemma field_shape (t s' : string) (gs : list string) :
  match_at field_pattern t = Some (s', gs) ->
  exists go ty tag,
    gs = [go; ty; tag] /\ go <> "" /\ Str.all Chars.isword go = true
    /\ ty <> "" /\ quoted tag.
Proof.
  intros H. apply match_at_sound in H.
  unfold field_pattern in H. cbn [seq fold_right] in H.
  unravel. do 3 eexists. simpl.
  repeat split; try reflexivity; try discriminate; simpl; eauto.
  - match goal with H1 : Chars.isword _ = true, H2 : Str.all Chars.isword _ = true
                    |- _ => now rewrite H1, H2 end.
  - match goal with H1 : not_dquote _ = true, H2 : Str.all not_dquote _ = true
                    |- _ => now rewrite H1, H2 end.
Qed.

End PatternFacts.

(** ** The extractors and the validators as set and map expressions *)

Module CheckerFacts.
Import Re StrFacts ReFacts Patterns PatternFacts.

Lemma with_errors_nil (self : DocChecker) : with_errors self [] = self.
Proof. destruct self. unfold with_errors. simpl. now rewrite app_nil_r. Qed.

Lemma add_error_with (m : string) (self : DocChecker) :
  add_error m self = with_errors self [m].
Proof. reflexivity. Qed.

(** A loop that appends a message for every element passing a test. *)
Lemma fold_add_error {A} (f : DocChecker -> A -> DocChecker)
    (cond : A -> bool) (msg : A -> string) :
  (forall self x,
      f self x = if cond x then add_error (msg x) self else self) ->
  forall (l : list A) (self : DocChecker),
    fold_left f l self = with_errors self (map msg (List.filter cond l)).
Proof.
  intros Hf l. induction l as [|x l IH]; intros self; simpl.
  - now rewrite with_errors_nil.
  - rewrite IH, Hf. destruct (cond x); [|reflexivity].
    unfold with_errors, add_error. simpl. now rewrite <- app_assoc.
Qed.

Lemma validate_flags_eq (repo : string -> option string)
    (flags : gset string) (command doc_file doc_content : string)
    (self : DocChecker) :
  repo doc_file = Some doc_content ->
  _validate_flags_documented repo flags command doc_file self
  = with_errors self
      (map (flag_message command doc_file)
         (undocumented_flags doc_content flags)).
Proof.
  intros Hdoc. unfold _validate_flags_documented. rewrite Hdoc.
  apply fold_add_error. intros s x. unfold flag_present.
  now rewrite negb_orb.
Qed.

Lemma validate_cheatcodes_eq (repo : string -> option string)
    (base_methods : gset string) (interface_content : string)
    (self : DocChecker) :
  repo cheatcode_doc = Some interface_content ->
  _validate_cheatcodes_in_interface repo base_methods self
  = with_errors self
      (map cheatcode_message
         (undocumented_cheatcodes interface_content base_methods)).
Proof.
  intros Hdoc. unfold _validate_cheatcodes_in_interface. rewrite Hdoc.
  apply fold_add_error. reflexivity.
Qed.

Lemma validate_fields_eq (repo : string -> option string)
    (fields : gmap string string) (doc_file doc_content : string)
    (self : DocChecker) :
  repo doc_file = Some doc_content ->
  _validate_config_fields_documented repo fields doc_file self
  = with_errors self
      (map (fun p => field_message doc_file (fst p) (snd p))
         (undocumented_fields doc_content fields)).
Proof.
  intros Hdoc. unfold _validate_config_fields_documented. rewrite Hdoc.
  apply fold_add_error. intros s [k v]. unfold field_present. simpl.
  now rewrite negb_orb.
Qed.

(** The flag loop adds the first group of every match. *)
Lemma add_flag_eq (flags : gset string) (m : list string) :
  add_flag flags m = flags ∪ {[ nth 0 m "" ]}.
Proof. destruct m as [|g [|h m]]; reflexivity. Qed.

Lemma fold_add_flag (ms : list (list string)) (flags : gset string) :
  fold_left add_flag ms flags
  = flags ∪ list_to_set ((fun m => nth 0 m "") <$> ms).
Proof.
  revert flags. induction ms as [|m ms IH]; intros flags; simpl.
  - set_solver.
  - rewrite IH, add_flag_eq. set_solver.
Qed.

Lemma flags_of_eq (content : string) :
  flags_of content
  = list_to_set ((fun m => nth 0 m "")
                   <$> (findall typed_flag content
                          ++ findall count_flag content)).
Proof.
  unfold flags_of, flag_patterns. simpl. rewrite !fold_add_flag.
  rewrite fmap_app, list_to_set_app_L. set_solver.
Qed.

Lemma elem_of_flags_of (content f : string) :
  f ∈ flags_of content <->
  exists m, (In m (findall typed_flag content)
             \/ In m (findall count_flag content))
            /\ f = nth 0 m "".
Proof.
  rewrite flags_of_eq, elem_of_list_to_set, list_elem_of_fmap.
  split.
  - intros (m & -> & Hm). exists m. split; [|reflexivity].
    apply elem_of_app in Hm as [Hm|Hm]; [left|right];
      now apply list_elem_of_In.
  - intros (m & Hm & ->). exists m. split; [reflexivity|].
    apply elem_of_app. destruct Hm as [Hm|Hm]; [left|right];
      now apply list_elem_of_In.
Qed.

Lemma elem_of_cheatcodes_of (content c : string) :
  c ∈ cheatcodes_of content <->
  In [c] (findall cheatcode_pattern content).
Proof.
  unfold cheatcodes_of. rewrite elem_of_list_to_set, list_elem_of_omap.
  split.
  - intros (m & Hm & Hs). apply list_elem_of_In in Hm.
    destruct m as [|g [|h m]]; try discriminate. now injection Hs as ->.
  - intros Hm. exists [c]. split; [now apply list_elem_of_In | reflexivity].
Qed.

(** [add_field] stores the struct name under [field_key], or nothing. *)
Lemma add_field_eq (struct_name : string) (fields : gmap string string)
    (m : list string) :
  add_field struct_name fields m
  = match field_key m with
    | Some k => <[k := struct_name]> fields
    | None => fields
    end.
Proof.
  destruct m as [|go [|ty [|tag [|x m]]]]; try reflexivity.
  unfold add_field, field_key.
  destruct (first_isupper go); simpl; [|reflexivity].
  destruct (Str.contains ",omitempty" tag); simpl; [reflexivity|].
  match goal with
  | |- context [if ?b then fields else _] => destruct b
  end; reflexivity.
Qed.

Lemma fold_add_field_lookup (struct_name k : string)
    (ms : list (list string)) :
  forall fields : gmap string string,
    fold_left (add_field struct_name) ms fields !! k
    = if existsb (fun m => bool_decide (field_key m = Some k)) ms
      then Some struct_name
      else fields !! k.
Proof.
  induction ms as [|m ms IH]; intros fields; simpl; [reflexivity|].
  rewrite IH, add_field_eq.
  destruct (existsb _ ms); [now rewrite orb_true_r|].
  rewrite orb_false_r.
  destruct (field_key m) as [k'|] eqn:E.
  - case_bool_decide as Hk.
    + injection Hk as ->. now rewrite lookup_insert_eq.
    + rewrite lookup_insert_ne; [reflexivity | congruence].
  - now rewrite bool_decide_eq_false_2.
Qed.

Lemma add_struct_lookup (content struct_name k : string)
    (fields : gmap string string) :
  add_struct content fields struct_name !! k
  = if declares content struct_name k then Some struct_name
    else fields !! k.
Proof.
  unfold add_struct, declares.
  destruct (search (struct_pattern struct_name) content) as [gs|];
    [|reflexivity].
  apply fold_add_field_lookup.
Qed.

(** The entry under [k] after the loop over the struct names: the last
    name of the list whose block declares [k]. *)
Lemma fold_add_struct_lookup (content k : string) (struct_names : list string) :
  forall fields : gmap string string,
    fold_left (add_struct content) struct_names fields !! k
    = match find (fun s => declares content s k) (rev struct_names) with
      | Some s => Some s
      | None => fields !! k
      end.
Proof.
  induction struct_names as [|s l IH] using rev_ind; intros fields;
    [reflexivity|].
  rewrite fold_left_app, rev_unit. simpl.
  rewrite add_struct_lookup. destruct (declares content s k); [reflexivity|].
  apply IH.
Qed.

Lemma fields_of_lookup (content k : string) (struct_names : list string) :
  fields_of content struct_names !! k
  = find (fun s => declares content s k) (rev struct_names).
Proof.
  unfold fields_of. rewrite fold_add_struct_lookup.
  now destruct (find _ _).
Qed.


(** What it takes for a block to declare a key. *)
Lemma declares_inv (content struct_name k : string) :
  declares content struct_name k = true ->
  exists body go ty tag,
    search (struct_pattern struct_name) content = Some [body]
    /\ In [go; ty; tag] (findall field_pattern body)
    /\ field_key [go; ty; tag] = Some k
    /\ quoted tag.
Proof.
  unfold declares. intros H.
  destruct (search (struct_pattern struct_name) content) as [gs|] eqn:E;
    [|discriminate].
  pose proof (search_sound _ _ _ E) as (pre & t & s' & _ & Hm).
  apply struct_shape in Hm as (body & -> & _).
  apply existsb_exists in H as (m & Hin & Hk).
  apply bool_decide_eq_true in Hk.
  pose proof (findall_sound _ _ _ Hin) as (pre' & t' & s'' & _ & Hm).
  apply field_shape in Hm as (go & ty & tag & -> & _ & _ & _ & Hq).
  now exists body, go, ty, tag.
Qed.

Lemma field_key_inv (go ty tag k : string) :
  field_key [go; ty; tag] = Some k ->
  first_isupper go = true
  /\ Str.contains ",omitempty" tag = false
  /\ Str.endswith "Config" ty = false
  /\ k = Str.before "," tag.
Proof.
  unfold field_key. intros H.
  destruct (first_isupper go); [|discriminate].
  destruct (Str.contains ",omitempty" tag); [discriminate|].
  destruct (Str.endswith "Config" ty); [discriminate|].
  destruct (existsb _ _); [discriminate|]. now injection H as <-.
Qed.

End CheckerFacts.

(** ** The report and the exit code *)

Module ReportFacts.

Lemma errors_fold_print (f : string -> string) (l : list string) :
  forall self : DocChecker,
    errors (fold_left (fun self x => print (f x) self) l self) = errors self.
Proof.
  induction l as [|x l IH]; intros self; simpl; [reflexivity|].
  now rewrite IH.
Qed.

Lemma report_code (self : DocChecker) :
  snd (report self) = match errors self with [] => 0 | _ :: _ => 1 end.
Proof.
  unfold report.
  set (banner := print _ self).
  set (warned := match warnings banner with [] => banner | _ :: _ => _ end).
  assert (Hw : errors warned = errors self).
  { subst warned. destruct (warnings banner); [reflexivity|].
    cbn [print errors]. now rewrite errors_fold_print. }
  rewrite Hw. now destruct (errors self).
Qed.

End ReportFacts.

(** C1. After the checks, [report] exits with code 1 exactly when
    [self.errors] holds at least one error and with code 0 exactly when it
    holds none; the warnings have no part in the code, so warnings alone
    end in success. *)
Theorem report_fails_iff_errors (self : DocChecker) :
  (snd (report self) = 1 <-> errors self <> [])
  /\ (snd (report self) = 0 <-> errors self = [])
  /\ (forall ws : list string,
        snd (report {| errors := errors self; warnings := ws;
                       printed := printed self |})
        = snd (report self)).
Proof.
  rewrite ReportFacts.report_code. repeat split.
  - destruct (errors self); [discriminate | discriminate].
  - destruct (errors self); [congruence | reflexivity].
  - destruct (errors self); [reflexivity | discriminate].
  - destruct (errors self); [reflexivity | discriminate].
  - intros ws. now rewrite ReportFacts.report_code.
Qed.

(** ** The flag extractor on declarations written on one line *)

Module FlagSourceFacts.
Import Re Patterns StrFacts ReFacts PatternFacts CheckerFacts FlagSource.

#[local] Arguments consumed : simpl never.
#[local] Arguments Ascii.eqb !_ !_ / : simpl nomatch.
#[local] Arguments not_dquote : simpl never.
#[local] Arguments Chars.isspace : simpl never.

Lemma dquote_stops : not_dquote dquote = false.
Proof. reflexivity. Qed.

Lemma dquote_not_space : Chars.isspace dquote = false.
Proof. reflexivity. Qed.

Lemma typed_flag_first (c : ascii) (s : string) :
  c <> "."%char -> match_at typed_flag (String c s) = None.
Proof.
  intros Hc. unfold match_at, typed_flag. simpl.
  destruct (Ascii.eqb_spec "." c) as [<-|_]; [contradiction | reflexivity].
Qed.

Lemma count_flag_first (c : ascii) (s : string) :
  c <> "."%char -> match_at count_flag (String c s) = None.
Proof.
  intros Hc. unfold match_at, count_flag. simpl.
  destruct (Ascii.eqb_spec "." c) as [<-|_]; [contradiction | reflexivity].
Qed.

(** One run of [[^']+] closed by its quote. *)
Lemma quoted_run {R} (c : ascii) (n rest : string) (k : string -> option R)
    (x : R) :
  Str.all not_dquote n = true ->
  k (String dquote rest) = Some x ->
  star not_dquote (n +:+ String dquote rest) k = Some x.
Proof. intros Hn Hk. now apply star_greedy. Qed.

Lemma typed_flag_match (s : setter) (name rest : string) :
  quoted name ->
  match_at typed_flag (render (Typed s name) +:+ rest) = Some (rest, [name]).
Proof.
  intros [Hne Hq]. destruct name as [|c n]; [contradiction|].
  simpl in Hq. apply andb_true_iff in Hq as [Hc Hn].
  unfold match_at, typed_flag, render.
  rewrite !append_assoc.
  destruct s; simpl; rewrite Hc;
    (erewrite star_greedy;
     [reflexivity | exact Hn | exact dquote_stops
     | simpl; rewrite ?Ascii.eqb_refl, ?consumed_cons; reflexivity]).
Qed.

Lemma count_flag_match (name gap short rest : string) :
  quoted name -> Str.all Chars.isspace gap = true -> quoted short ->
  match_at count_flag (render (Counted name gap short) +:+ rest)
  = Some (rest, [name; short]).
Proof.
  intros [Hne Hq] Hgap [Hne' Hq'].
  destruct name as [|c n]; [contradiction|].
  destruct short as [|d m]; [contradiction|].
  simpl in Hq, Hq'.
  apply andb_true_iff in Hq as [Hc Hn].
  apply andb_true_iff in Hq' as [Hd Hm].
  unfold match_at, count_flag, render.
  rewrite !append_assoc. simpl. rewrite Hc.
  erewrite star_greedy;
    [reflexivity | exact Hn | exact dquote_stops |].
  simpl. rewrite ?Ascii.eqb_refl.
  erewrite star_greedy;
    [reflexivity | exact Hgap | exact dquote_not_space |].
  simpl. rewrite ?Ascii.eqb_refl, Hd.
  erewrite star_greedy;
    [reflexivity | exact Hm | exact dquote_stops |].
  simpl. rewrite ?Ascii.eqb_refl, ?consumed_cons.
  reflexivity.
Qed.

(** No match starts in a text without a dot. *)
Lemma findall_inert (r : regex) (filler t : string) :
  (forall c s, c <> "."%char -> match_at r (String c s) = None) ->
  inert filler -> findall r (filler +:+ t) = findall r t.
Proof.
  intros Hr. unfold inert.
  induction filler as [|a filler IH]; intros H; simpl in *; [reflexivity|].
  apply andb_true_iff in H as [Ha H].
  rewrite findall_skip; [now apply IH|].
  apply Hr. intros ->. discriminate Ha.
Qed.

Lemma findall_inert_end (r : regex) (last : string) :
  (forall c s, c <> "."%char -> match_at r (String c s) = None) ->
  match_at r "" = None ->
  inert last -> findall r last = [].
Proof.
  intros Hr Hnil H. rewrite <- (append_nil_r last).
  rewrite findall_inert by assumption. now apply findall_nil.
Qed.

Lemma inert_app (a b : string) : inert a -> inert b -> inert (a +:+ b).
Proof. unfold inert. intros Ha Hb. now rewrite all_app, Ha, Hb. Qed.

Lemma space_inert (gap : string) :
  Str.all Chars.isspace gap = true -> inert gap.
Proof.
  unfold inert. induction gap as [|c gap IH]; simpl; [reflexivity|].
  intros H. apply andb_true_iff in H as [Hc H]. rewrite (IH H).
  destruct (Ascii.eqb_spec "." c) as [<-|Hne]; [discriminate Hc|].
  unfold Chars.isnot. apply Ascii.eqb_neq in Hne. now rewrite Hne.
Qed.

Lemma length_render_pos (d : declaration) (rest : string) :
  String.length rest < String.length (render d +:+ rest).
Proof.
  rewrite length_append. destruct d; simpl; lia.
Qed.

(** The scan of each pattern over one declaration. *)
Lemma findall_typed_typed (s : setter) (name rest : string) :
  quoted name ->
  findall typed_flag (render (Typed s name) +:+ rest)
  = [name] :: findall typed_flag rest.
Proof.
  intros Hq. apply findall_match.
  - now apply typed_flag_match.
  - apply length_render_pos.
Qed.

Lemma findall_count_counted (name gap short rest : string) :
  quoted name -> Str.all Chars.isspace gap = true -> quoted short ->
  findall count_flag (render (Counted name gap short) +:+ rest)
  = [name; short] :: findall count_flag rest.
Proof.
  intros Hn Hg Hs. apply findall_match.
  - now apply count_flag_match.
  - apply length_render_pos.
Qed.

Lemma findall_typed_counted (name gap short rest : string) :
  flag_like name -> Str.all Chars.isspace gap = true -> flag_like short ->
  findall typed_flag (render (Counted name gap short) +:+ rest)
  = findall typed_flag rest.
Proof.
  intros [_ Hn] Hg [_ Hs].
  replace (render (Counted name gap short) +:+ rest)
    with (String "." ("Flags()" +:+ String "."
            (("CountP(" +:+ q +:+ name +:+ q +:+ "," +:+ gap
              +:+ q +:+ short +:+ q) +:+ rest)))
    by (unfold render; now rewrite !append_assoc).
  rewrite findall_skip by reflexivity.
  rewrite (findall_inert _ "Flags()" _ typed_flag_first) by reflexivity.
  rewrite findall_skip by reflexivity.
  apply (findall_inert _ _ _ typed_flag_first).
  repeat apply inert_app; try reflexivity; try assumption.
  now apply space_inert.
Qed.

Lemma findall_count_typed (s : setter) (name rest : string) :
  flag_like name ->
  findall count_flag (render (Typed s name) +:+ rest)
  = findall count_flag rest.
Proof.
  intros [_ Hn].
  replace (render (Typed s name) +:+ rest)
    with (String "." ("Flags()" +:+ String "."
            ((setter_name s +:+ "(" +:+ q +:+ name +:+ q) +:+ rest)))
    by (unfold render; now rewrite !append_assoc).
  rewrite findall_skip by (destruct s; reflexivity).
  rewrite (findall_inert _ "Flags()" _ count_flag_first) by reflexivity.
  rewrite findall_skip by (destruct s; reflexivity).
  apply (findall_inert _ _ _ count_flag_first).
  repeat apply inert_app; try reflexivity; try assumption.
  now destruct s.
Qed.

Lemma first_groups (r : regex) (text : string) (gs : list string)
    (rest : list (list string)) :
  findall r text = gs :: rest ->
  (list_to_set ((fun m => nth 0 m "") <$> findall r text) : gset string)
  = {[ nth 0 gs "" ]} ∪ list_to_set ((fun m => nth 0 m "") <$> rest).
Proof. intros ->. reflexivity. Qed.

(** On a text made of valid declarations, each after a text without a
    dot, the extractor returns the names of the declarations. *)
Lemma flags_of_source (items : list (string * declaration)) (last : string) :
  well_formed items last ->
  flags_of (source items last) = list_to_set (names items).
Proof.
  intros [Hitems Hlast]. rewrite flags_of_eq, fmap_app, list_to_set_app_L.
  induction Hitems as [|[filler d] items [Hf Hd] _ IH]; simpl.
  - rewrite (findall_inert_end _ _ typed_flag_first eq_refl Hlast).
    rewrite (findall_inert_end _ _ count_flag_first eq_refl Hlast).
    set_solver.
  - rewrite (findall_inert _ _ _ typed_flag_first Hf).
    rewrite (findall_inert _ _ _ count_flag_first Hf).
    destruct d as [s name|name gap short]; simpl in Hd.
    + rewrite findall_typed_typed by apply Hd.
      rewrite findall_count_typed by exact Hd.
      simpl. rewrite <- IH. set_solver.
    + destruct Hd as (Hn & Hg & Hs).
      rewrite findall_typed_counted by assumption.
      rewrite findall_count_counted by (try apply Hn; try apply Hs; assumption).
      simpl. rewrite <- IH. set_solver.
Qed.

(** As many symbols as declarations when the names are distinct, and the
    same set whatever the order of the declarations. *)
Lemma flags_of_source_size (items : list (string * declaration))
    (last : string) :
  well_formed items last -> NoDup (names items) ->
  size (flags_of (source items last)) = length items.
Proof.
  intros Hwf Hnd. rewrite (flags_of_source _ _ Hwf).
  rewrite size_list_to_set by exact Hnd. unfold names. apply length_map.
Qed.

Lemma flags_of_source_perm (items items' : list (string * declaration))
    (last last' : string) :
  well_formed items last -> well_formed items' last' ->
  Permutation items items' ->
  flags_of (source items last) = flags_of (source items' last').
Proof.
  intros Hwf Hwf' Hp.
  rewrite (flags_of_source _ _ Hwf), (flags_of_source _ _ Hwf').
  apply list_to_set_perm_L. unfold names. now apply Permutation_map.
Qed.

End FlagSourceFacts.

(** ** The flag extractor and line breaks *)

(** The typed-setter pattern wants the double quote right after the
    opening parenthesis: any other character there ends the match. *)
Lemma typed_flag_needs_quote (c : ascii) (rest : string) :
  c <> Patterns.dquote ->
  Re.match_at Patterns.typed_flag (".Flags().String(" +:+ String c rest) = None.
Proof.
  intros Hc.
  destruct c as [[] [] [] [] [] [] [] []]; try reflexivity.
  exfalso. apply Hc. reflexivity.
Qed.

(** C2. A flag declared with a line break between the parenthesis and the
    name is a valid declaration that the extractor misses: the text with
    this one declaration yields no symbol, where the same declaration on
    one line yields its name, and where the cheatcode pattern accepts the
    same layout. *)
Theorem flag_after_line_break_is_missed :
  size (flags_of Samples.flag_on_two_lines) = 0
  /\ flags_of Samples.flag_on_one_line = {[ "config" ]}
  /\ cheatcodes_of Samples.method_on_two_lines = {[ "warp" ]}.
Proof. repeat split; vm_compute; reflexivity. Qed.

(** ** Overloads of one cheatcode *)

Module CheatcodeFacts.
Import CheckerFacts.

Lemma printed_validate_cheatcodes (repo : string -> option string)
    (base_methods : gset string) (self : DocChecker) :
  printed (_validate_cheatcodes_in_interface repo base_methods self)
  = printed self.
Proof.
  destruct (repo cheatcode_doc) as [doc|] eqn:E.
  - now rewrite (validate_cheatcodes_eq _ _ _ _ E).
  - unfold _validate_cheatcodes_in_interface. now rewrite E.
Qed.

Lemma cheatcodes_of_two (content s1 s2 : string) :
  Re.findall Patterns.cheatcode_pattern content = [[s1]; [s2]] ->
  cheatcodes_of content = {[ s1; s2 ]}.
Proof.
  intros H. unfold cheatcodes_of. rewrite H. simpl. set_solver.
Qed.

Lemma base_methods_of_two (s1 s2 : string) :
  Str.before "(" s1 = Str.before "(" s2 ->
  base_methods_of {[ s1; s2 ]} = {[ Str.before "(" s1 ]}.
Proof.
  intros H. unfold base_methods_of.
  rewrite set_map_union_L, !set_map_singleton_L, <- H. set_solver.
Qed.

Lemma append_inv_l (a b c : string) : a +:+ b = a +:+ c -> b = c.
Proof.
  induction a as [|x a IH]; simpl; [trivial|].
  intros E. injection E as E. now apply IH.
Qed.

(** The text before the first parenthesis of [base(args]. *)
Lemma before_paren (base args : string) :
  Str.all (Chars.isnot "(") base = true ->
  Str.before "(" (base +:+ "(" +:+ args) = base.
Proof.
  induction base as [|a base IH]; intros H; simpl in *; [reflexivity|].
  apply andb_true_iff in H as [Ha Hs].
  unfold Chars.isnot in Ha. rewrite Ascii.eqb_sym.
  destruct (Ascii.eqb "(" a); [discriminate|]. now rewrite (IH Hs).
Qed.

End CheatcodeFacts.

(** C3, as stated, fails: the first number [check_cheatcodes] reports is
    not the raw number of matches but the size of the set of the
    registered strings.  In [registered_twice] the pattern matches twice,
    and the line printed is [Found 1 cheatcode methods (1 unique base
    methods)]. *)
Lemma raw_count_counterexample :
  ~ (forall content,
        In ("  Found "
            +:+ pretty (length (Re.findall Patterns.cheatcode_pattern content))
            +:+ " cheatcode methods ("
            +:+ pretty (size (base_methods_of (cheatcodes_of content)))
            +:+ " unique base methods)")
          (printed (check_cheatcodes
                      (Samples.files [(cheatcode_source, content)]) init))).
Proof.
  intros H. specialize (H registered_twice).
  vm_compute in H. intuition discriminate.
Qed.

(** C3, amended. When the source registers two strings [base(args1] and
    [base(args2] with different parameter lists, the extractor returns
    both strings (2 elements), the set of base names is [{base}] (1
    element), and [check_cheatcodes] prints the two sizes: the number of
    distinct registered strings and the number of distinct base names. *)
Theorem overloads_collapse (repo : string -> option string)
    (self : DocChecker) (content base args1 args2 : string) :
  repo cheatcode_source = Some content ->
  Re.findall Patterns.cheatcode_pattern content
  = [[base +:+ "(" +:+ args1]; [base +:+ "(" +:+ args2]] ->
  args1 <> args2 ->
  Str.all (Chars.isnot "(") base = true ->
  fst (_extract_cheatcodes repo self)
  = {[ base +:+ "(" +:+ args1; base +:+ "(" +:+ args2 ]}
  /\ size (fst (_extract_cheatcodes repo self)) = 2
  /\ base_methods_of (fst (_extract_cheatcodes repo self)) = {[ base ]}
  /\ size (base_methods_of (fst (_extract_cheatcodes repo self))) = 1
  /\ In "  Found 2 cheatcode methods (1 unique base methods)"
       (printed (check_cheatcodes repo self)).
Proof.
  intros Hrepo Hfind Hne Hbase.
  assert (Hs : base +:+ "(" +:+ args1 <> base +:+ "(" +:+ args2).
  { intros E. apply Hne. apply CheatcodeFacts.append_inv_l in E.
    now injection E. }
  pose proof (CheatcodeFacts.before_paren base args1 Hbase) as H1.
  pose proof (CheatcodeFacts.before_paren base args2 Hbase) as H2.
  unfold check_cheatcodes, _extract_cheatcodes. rewrite Hrepo.
  cbn [fst]. rewrite (CheatcodeFacts.cheatcodes_of_two _ _ _ Hfind).
  rewrite (CheatcodeFacts.base_methods_of_two _ _ (eq_trans H1 (eq_sym H2))).
  rewrite H1.
  assert (Hsize2 : size ({[ base +:+ "(" +:+ args1; base +:+ "(" +:+ args2 ]}
                         : gset string) = 2).
  { rewrite size_union by set_solver. now rewrite !size_singleton. }
  assert (Hsize1 : size ({[ base ]} : gset string) = 1)
    by apply size_singleton.
  split; [reflexivity|]. split; [exact Hsize2|].
  split; [reflexivity|]. split; [exact Hsize1|].
  rewrite CheatcodeFacts.printed_validate_cheatcodes.
  unfold cheatcode_counts. rewrite Hsize2, Hsize1. cbn [print printed].
  apply in_or_app. right. left. reflexivity.
Qed.

Lemma overloads_collapse_witness :
  let repo := Samples.files [(cheatcode_source, Samples.overloads)] in
  fst (_extract_cheatcodes repo init)
  = {[ "toString" +:+ "(" +:+ "address)"; "toString" +:+ "(" +:+ "uint256)" ]}
  /\ size (fst (_extract_cheatcodes repo init)) = 2
  /\ base_methods_of (fst (_extract_cheatcodes repo init)) = {[ "toString" ]}
  /\ size (base_methods_of (fst (_extract_cheatcodes repo init))) = 1
  /\ In "  Found 2 cheatcode methods (1 unique base methods)"
       (printed (check_cheatcodes repo init)).
Proof.
  intros repo.
  apply (overloads_collapse repo init Samples.overloads
           "toString" "address)" "uint256)").
  - reflexivity.
  - vm_compute. reflexivity.
  - discriminate.
  - reflexivity.
Defined.

(** ** The heading test of the config validator *)

Module HeadingFacts.
Import Str StrFacts.

Lemma lower_not_upper (c : ascii) : Chars.isupper (Chars.to_lower c) = false.
Proof. destruct c as [[] [] [] [] [] [] [] []]; reflexivity. Qed.

(** A lowered text holds no capital letter. *)
Lemma lower_all (s : string) :
  all (fun c => negb (Chars.isupper c)) (lower s) = true.
Proof.
  induction s as [|c s IH]; simpl; [reflexivity|].
  now rewrite lower_not_upper, IH.
Qed.

(** [f'## {field_name}' in doc_content.lower()] cannot hold for a name
    with a capital letter, whatever the documentation says: the text is
    lowered, the name is not. *)
Lemma heading_never_found (doc_content field_name : string) :
  all (fun c => negb (Chars.isupper c)) field_name = false ->
  contains ("## " +:+ field_name) (lower doc_content) = false.
Proof.
  intros Hup. destruct (contains _ _) eqn:E; [|reflexivity].
  apply contains_inv in E as (pre & post & E).
  pose proof (lower_all doc_content) as Hall.
  rewrite E, !all_app in Hall.
  apply andb_true_iff in Hall as [_ Hall].
  apply andb_true_iff in Hall as [Hall _].
  apply andb_true_iff in Hall as [_ Hall]. congruence.
Qed.

End HeadingFacts.

(** C4. The heading test lowers the documentation but not the name, so a
    key with a capital letter is not found under its own heading: with the
    field [testLimit] and a documentation that has the heading
    [## testLimit], the presence test fails and the validator reports the
    field. Only an all-lowercase key is matched against headings of any
    casing. *)
Theorem heading_with_capital_is_missed :
  field_present "## testLimit" "testLimit" = false
  /\ errors (_validate_config_fields_documented
               (Samples.files [("fuzzing_config.md", "## testLimit")])
               {[ "testLimit" := "FuzzingConfig" ]}
               "fuzzing_config.md" init)
     = [field_message "fuzzing_config.md" "testLimit" "FuzzingConfig"]
  /\ field_present "## TestLimit" "testlimit" = true.
Proof. repeat split; vm_compute; reflexivity. Qed.

(** ** Fields marked [omitempty] *)

(** One turn of the field loop: a tag that contains [,omitempty], with
    whatever modifiers before or after it, leaves the mapping as it was. *)
Lemma add_field_omitempty (struct_name go ty tag : string)
    (fields : gmap string string) :
  Str.contains ",omitempty" tag = true ->
  add_field struct_name fields [go; ty; tag] = fields.
Proof.
  intros H. unfold add_field. rewrite H. now destruct (first_isupper go).
Qed.

(** C5, as stated, fails: the test on the tag is case-sensitive.  In
    [Samples.limits] the field [Depth] carries [,OmitEmpty], an omit-empty
    qualifier in another casing, and its key is in the mapping. *)
Lemma omitempty_any_casing_counterexample :
  ~ (forall body go ty tag,
        Re.search (Patterns.struct_pattern "Limits") Samples.limits
        = Some [body] ->
        In [go; ty; tag] (Re.findall Patterns.field_pattern body) ->
        Str.contains ",omitempty" (Str.lower tag) = true ->
        fields_of Samples.limits ["Limits"] !! Str.before "," tag = None).
Proof.
  intros H.
  specialize (H _ "Depth" "int" "depth,OmitEmpty" eq_refl).
  assert (Hin : In ["Depth"; "int"; "depth,OmitEmpty"]
                  (Re.findall Patterns.field_pattern
                     (Samples.nl
                      +:+ Samples.field "Workers" "int" "workers"
                      +:+ Samples.field "Timeout" "int" "timeout,omitempty"
                      +:+ Samples.field "Depth" "int" "depth,OmitEmpty"
                      +:+ Samples.field "Seed" "uint64" ",string"))).
  { vm_compute. tauto. }
  specialize (H Hin eq_refl). vm_compute in H. discriminate H.
Qed.

(** C5, amended. Every entry of the extracted mapping comes from a field
    of a requested struct whose tag does not contain the exact text
    [,omitempty]: a field whose tag contains it, alone or among other
    modifiers, never adds its key. *)
Theorem omitempty_field_is_skipped (content : string)
    (struct_names : list string) (k s : string) :
  fields_of content struct_names !! k = Some s ->
  In s struct_names
  /\ exists body go ty tag,
       Re.search (Patterns.struct_pattern s) content = Some [body]
       /\ In [go; ty; tag] (Re.findall Patterns.field_pattern body)
       /\ Str.contains ",omitempty" tag = false
       /\ k = Str.before "," tag.
Proof.
  rewrite CheckerFacts.fields_of_lookup. intros H.
  apply find_some in H as [Hin Hd]. split.
  - now apply in_rev.
  - apply CheckerFacts.declares_inv in Hd
      as (body & go & ty & tag & Hs & Hm & Hk & _).
    apply CheckerFacts.field_key_inv in Hk as (_ & Ho & _ & ->).
    now exists body, go, ty, tag.
Qed.

Lemma omitempty_field_is_skipped_witness :
  In "Limits" ["Limits"]
  /\ exists body go ty tag,
       Re.search (Patterns.struct_pattern "Limits") Samples.limits
       = Some [body]
       /\ In [go; ty; tag] (Re.findall Patterns.field_pattern body)
       /\ Str.contains ",omitempty" tag = false
       /\ "workers" = Str.before "," tag.
Proof.
  apply (omitempty_field_is_skipped Samples.limits ["Limits"]).
  vm_compute. reflexivity.
Defined.

(** ** The names of the symbols *)

Module NameFacts.
Import StrFacts ReFacts PatternFacts CheckerFacts.

Lemma cut_at_before (delimiter : ascii) (full : string) :
  full <> "" -> cut_at delimiter full (Str.before delimiter full).
Proof.
  intros Hne. repeat split; try assumption.
  - apply before_free.
  - intros H. apply before_empty in H as [H|H]; [contradiction | exact H].
  - intros H. apply before_empty. now right.
Qed.

Lemma flag_quoted (content name : string) :
  name ∈ flags_of content -> Patterns.quoted name.
Proof.
  intros H. apply elem_of_flags_of in H as (m & [Hm|Hm] & ->);
    apply findall_sound in Hm as (pre & t & s' & _ & Hm).
  - now apply typed_flag_shape in Hm as (n & -> & Hq).
  - now apply count_flag_shape in Hm as (l & sh & -> & Hq & _).
Qed.

Lemma cheatcode_quoted (content c : string) :
  c ∈ cheatcodes_of content -> Patterns.quoted c.
Proof.
  intros H. apply elem_of_cheatcodes_of in H.
  apply findall_sound in H as (pre & t & s' & _ & Hm).
  apply cheatcode_shape in Hm as (n & Hn & Hq). now injection Hn as ->.
Qed.

End NameFacts.

(** C6, as stated, fails for method and config-field symbols: a
    registration string that starts with the parenthesis gives the empty
    base name, and so does a tag that starts with the comma. *)
Lemma empty_symbol_counterexample :
  ~ (forall k name,
        extracted (Samples.nameless_method +:+ Samples.limits) ["Limits"] k name ->
        name <> "").
Proof.
  intros H. apply (H Method ""); [|reflexivity].
  unfold extracted. vm_compute. reflexivity.
Qed.

(** C6, amended. A flag symbol is never empty and holds no double quote.
    A method symbol is a registration string cut at its first parenthesis,
    a config-field symbol a tag cut at its first comma: neither holds its
    delimiter, and each is empty only when the string it comes from starts
    with the delimiter. *)
Theorem symbol_names_are_normalized (content : string)
    (struct_names : list string) (k : kind) (name : string) :
  extracted content struct_names k name ->
  match k with
  | Flag => name <> "" /\ Str.all Patterns.not_dquote name = true
  | Method =>
      exists cheatcode,
        cheatcode ∈ cheatcodes_of content /\ cut_at "(" cheatcode name
  | ConfigField =>
      exists body go ty tag s,
        In s struct_names
        /\ Re.search (Patterns.struct_pattern s) content = Some [body]
        /\ In [go; ty; tag] (Re.findall Patterns.field_pattern body)
        /\ cut_at "," tag name
  end.
Proof.
  destruct k; unfold extracted; intros H.
  - exact (NameFacts.flag_quoted _ _ H).
  - unfold base_methods_of in H. apply elem_of_map in H as (c & -> & Hc).
    exists c. split; [exact Hc|].
    apply NameFacts.cut_at_before.
    exact (proj1 (NameFacts.cheatcode_quoted _ _ Hc)).
  - destruct H as [s H]. rewrite CheckerFacts.fields_of_lookup in H.
    apply find_some in H as [Hin Hd]. apply in_rev in Hin.
    apply CheckerFacts.declares_inv in Hd
      as (body & go & ty & tag & Hs & Hm & Hk & Hq).
    apply CheckerFacts.field_key_inv in Hk as (_ & _ & _ & ->).
    exists body, go, ty, tag, s.
    split; [exact Hin|]. split; [exact Hs|]. split; [exact Hm|].
    apply NameFacts.cut_at_before. exact (proj1 Hq).
Qed.

Lemma symbol_names_are_normalized_witness :
  exists cheatcode,
    cheatcode ∈ cheatcodes_of Samples.overloads
    /\ cut_at "(" cheatcode "toString".
Proof.
  apply (symbol_names_are_normalized Samples.overloads [] Method "toString").
  unfold extracted. vm_compute. reflexivity.
Defined.

(** ** Missing files *)

(** C7, as stated, fails for a config pairing: [check_config_fields]
    calls the validator only when the extraction found a field, so with a
    source that has no block of the requested struct and an absent
    documentation file nothing at all is reported. *)
Lemma config_pairing_without_fields_counterexample :
  Samples.files [("fuzzing/config/config.go", "package config")]
    "docs/src/project_configuration/fuzzing_config.md" = None
  /\ errors (snd (check_config_mapping
                    (Samples.files
                       [("fuzzing/config/config.go", "package config")])
                    (0, init)
                    ("fuzzing/config/config.go", ["FuzzingConfig"],
                     "docs/src/project_configuration/fuzzing_config.md")))
     = [].
Proof. split; vm_compute; reflexivity. Qed.

(** C7, amended. When the documentation file of a pairing is absent, the
    flag validator and the cheatcode validator append exactly one error,
    the one about the missing file, whatever the symbols are; a config
    pairing appends exactly that one error when the extraction found at
    least one field, and nothing when it found none. *)
Theorem missing_doc_file_one_error (repo : string -> option string)
    (doc_file : string) (self : DocChecker) :
  repo doc_file = None ->
  (forall flags command,
      errors (_validate_flags_documented repo flags command doc_file self)
      = errors self ++ ["Documentation file not found: " +:+ doc_file])
  /\ (doc_file = cheatcode_doc ->
      forall base_methods,
        errors (_validate_cheatcodes_in_interface repo base_methods self)
        = errors self
          ++ ["Cheatcode interface file not found: " +:+ cheatcode_doc])
  /\ (forall total source_file struct_names,
        errors (snd (check_config_mapping repo (total, self)
                       (source_file, struct_names, doc_file)))
        = if bool_decide
               (fst (_extract_config_fields repo source_file struct_names self)
                = ∅)
          then errors self
          else errors self
               ++ ["Config documentation file not found: " +:+ doc_file]).
Proof.
  intros Hdoc. repeat split.
  - intros flags command. unfold _validate_flags_documented.
    now rewrite Hdoc.
  - intros -> base_methods. unfold _validate_cheatcodes_in_interface.
    now rewrite Hdoc.
  - intros total source_file struct_names.
    unfold check_config_mapping, _extract_config_fields.
    destruct (repo source_file) as [content|]; cbn [fst snd].
    + case_bool_decide; [reflexivity|].
      unfold _validate_config_fields_documented. now rewrite Hdoc.
    + rewrite !bool_decide_eq_true_2 by reflexivity. reflexivity.
Qed.

Lemma missing_doc_file_one_error_witness :
  (forall flags command,
      errors (_validate_flags_documented Samples.no_files flags command
                cheatcode_doc init)
      = errors init ++ ["Documentation file not found: " +:+ cheatcode_doc])
  /\ (cheatcode_doc = cheatcode_doc ->
      forall base_methods,
        errors (_validate_cheatcodes_in_interface Samples.no_files
                  base_methods init)
        = errors init
          ++ ["Cheatcode interface file not found: " +:+ cheatcode_doc])
  /\ (forall total source_file struct_names,
        errors (snd (check_config_mapping Samples.no_files (total, init)
                       (source_file, struct_names, cheatcode_doc)))
        = if bool_decide
               (fst (_extract_config_fields Samples.no_files source_file
                       struct_names init)
                = ∅)
          then errors init
          else errors init
               ++ ["Config documentation file not found: " +:+ cheatcode_doc]).
Proof.
  apply (missing_doc_file_one_error Samples.no_files cheatcode_doc init).
  reflexivity.
Defined.

(** C8. When the source file is absent, the flag extractor and the
    cheatcode extractor append one error and no warning, the config-field
    extractor appends one warning and no error; each returns an empty
    result, and the validation that follows reports no symbol: the flag
    and cheatcode validators add at most the error about their own
    documentation file, and the config pairing adds no error at all and
    counts no field. *)
Theorem missing_source_file (repo : string -> option string)
    (file_path : string) (self : DocChecker) :
  repo file_path = None ->
  (fst (_extract_flags_from_file repo file_path self) = ∅
   /\ errors (snd (_extract_flags_from_file repo file_path self))
      = errors self ++ ["Source file not found: " +:+ file_path]
   /\ warnings (snd (_extract_flags_from_file repo file_path self))
      = warnings self)
  /\ (file_path = cheatcode_source ->
      fst (_extract_cheatcodes repo self) = ∅
      /\ errors (snd (_extract_cheatcodes repo self))
         = errors self
           ++ ["Cheatcode source file not found: " +:+ cheatcode_source]
      /\ warnings (snd (_extract_cheatcodes repo self)) = warnings self)
  /\ (forall struct_names,
        fst (_extract_config_fields repo file_path struct_names self) = ∅
        /\ warnings
             (snd (_extract_config_fields repo file_path struct_names self))
           = warnings self
             ++ ["Config source file not found: " +:+ file_path]
        /\ errors
             (snd (_extract_config_fields repo file_path struct_names self))
           = errors self)
  /\ (forall command doc_file after,
        errors (_validate_flags_documented repo ∅ command doc_file after)
        = errors after
          ++ match repo doc_file with
             | Some _ => []
             | None => ["Documentation file not found: " +:+ doc_file]
             end)
  /\ (forall after,
        errors (_validate_cheatcodes_in_interface repo (base_methods_of ∅)
                  after)
        = errors after
          ++ match repo cheatcode_doc with
             | Some _ => []
             | None =>
                 ["Cheatcode interface file not found: " +:+ cheatcode_doc]
             end)
  /\ (forall total struct_names doc_file,
        fst (check_config_mapping repo (total, self)
               (file_path, struct_names, doc_file)) = total
        /\ errors (snd (check_config_mapping repo (total, self)
                          (file_path, struct_names, doc_file)))
           = errors self
        /\ warnings (snd (check_config_mapping repo (total, self)
                            (file_path, struct_names, doc_file)))
           = warnings self
             ++ ["Config source file not found: " +:+ file_path]).
Proof.
  intros Hsrc. split; [|split; [|split; [|split; [|split]]]].
  - unfold _extract_flags_from_file. rewrite Hsrc. now repeat split.
  - intros ->. unfold _extract_cheatcodes. rewrite Hsrc. now repeat split.
  - intros struct_names. unfold _extract_config_fields. rewrite Hsrc.
    now repeat split.
  - intros command doc_file after. unfold _validate_flags_documented.
    destruct (repo doc_file); [|reflexivity].
    rewrite elements_empty. simpl. now rewrite app_nil_r.
  - intros after. unfold _validate_cheatcodes_in_interface, base_methods_of.
    destruct (repo cheatcode_doc); [|reflexivity].
    rewrite set_map_empty, elements_empty. simpl. now rewrite app_nil_r.
  - intros total struct_names doc_file.
    unfold check_config_mapping, _extract_config_fields. rewrite Hsrc.
    rewrite bool_decide_eq_true_2 by reflexivity.
    rewrite map_size_empty. cbn [fst snd add_warning errors warnings].
    repeat split. lia.
Qed.

Lemma missing_source_file_witness :
  (fst (_extract_flags_from_file Samples.no_files "cmd/fuzz_flags.go" init) = ∅
   /\ errors (snd (_extract_flags_from_file Samples.no_files
                     "cmd/fuzz_flags.go" init))
      = ["Source file not found: cmd/fuzz_flags.go"])
  /\ (fst (_extract_config_fields Samples.no_files "cmd/fuzz_flags.go"
             ["FuzzingConfig"] init) = ∅
      /\ warnings (snd (_extract_config_fields Samples.no_files
                          "cmd/fuzz_flags.go" ["FuzzingConfig"] init))
         = ["Config source file not found: cmd/fuzz_flags.go"]
      /\ errors (snd (_extract_config_fields Samples.no_files
                        "cmd/fuzz_flags.go" ["FuzzingConfig"] init))
         = []).
Proof.
  destruct (missing_source_file Samples.no_files "cmd/fuzz_flags.go" init
              eq_refl)
    as ((Hset & Herr & _) & _ & Hconfig & _).
  split; [split; [exact Hset | exact Herr]|].
  exact (Hconfig ["FuzzingConfig"]).
Defined.

(** ** The flag presence test *)

Module FlagFacts.
Import StrFacts.

(** Two flags have the same message only when they are the same flag. *)
Lemma flag_message_inj (command doc_file f g : string) :
  flag_message command doc_file f = flag_message command doc_file g -> f = g.
Proof.
  unfold flag_message. intros H. simpl in H.
  injection H as H. now apply append_inv_r in H.
Qed.

Lemma undocumented_flags_spec (doc_content : string) (flags : gset string)
    (f : string) :
  In f (undocumented_flags doc_content flags)
  <-> f ∈ flags /\ flag_present doc_content f = false.
Proof.
  unfold undocumented_flags. rewrite filter_In, <- list_elem_of_In.
  rewrite elem_of_elements, negb_true_iff. reflexivity.
Qed.

End FlagFacts.

(** C9. The flag test is a substring test: as soon as the documentation
    holds the two dashes followed by the flag name, anywhere and whatever
    follows the name, the flag counts as documented; the validator appends
    one message per flag that fails the test, and none of them is the
    message of this flag. *)
Theorem flag_substring_is_documented (repo : string -> option string)
    (flags : gset string) (command doc_file doc_content pre post f : string)
    (self : DocChecker) :
  repo doc_file = Some doc_content ->
  doc_content = pre +:+ "--" +:+ f +:+ post ->
  flag_present doc_content f = true
  /\ errors (_validate_flags_documented repo flags command doc_file self)
     = errors self
       ++ map (flag_message command doc_file)
            (undocumented_flags doc_content flags)
  /\ ~ In f (undocumented_flags doc_content flags)
  /\ ~ In (flag_message command doc_file f)
         (map (flag_message command doc_file)
            (undocumented_flags doc_content flags)).
Proof.
  intros Hdoc ->.
  assert (Hp : flag_present (pre +:+ "--" +:+ f +:+ post) f = true).
  { unfold flag_present.
    rewrite <- (StrFacts.append_assoc "--" f post).
    rewrite (StrFacts.contains_app ("--" +:+ f) pre post). reflexivity. }
  assert (Hnot : ~ In f (undocumented_flags (pre +:+ "--" +:+ f +:+ post) flags)).
  { rewrite FlagFacts.undocumented_flags_spec. intros [_ H]. congruence. }
  repeat split; try assumption.
  - now rewrite (CheckerFacts.validate_flags_eq _ _ _ _ _ _ Hdoc).
  - intros H. apply in_map_iff in H as (g & Hg & Hin).
    apply FlagFacts.flag_message_inj in Hg as ->. contradiction.
Qed.

Lemma flag_substring_is_documented_witness :
  flag_present "Use --timeout-extra to wait longer." "timeout" = true
  /\ errors (_validate_flags_documented
               (Samples.files
                  [("docs/src/cli/fuzz.md",
                    "Use --timeout-extra to wait longer.")])
               {[ "timeout" ]} "fuzz" "docs/src/cli/fuzz.md" init)
     = errors init
       ++ map (flag_message "fuzz" "docs/src/cli/fuzz.md")
            (undocumented_flags "Use --timeout-extra to wait longer."
               {[ "timeout" ]})
  /\ ~ In "timeout"
         (undocumented_flags "Use --timeout-extra to wait longer."
            {[ "timeout" ]})
  /\ ~ In (flag_message "fuzz" "docs/src/cli/fuzz.md" "timeout")
         (map (flag_message "fuzz" "docs/src/cli/fuzz.md")
            (undocumented_flags "Use --timeout-extra to wait longer."
               {[ "timeout" ]})).
Proof.
  apply (flag_substring_is_documented _ _ _ _ _ "Use " "-extra to wait longer.").
  - reflexivity.
  - reflexivity.
Defined.

(** ** A key declared by two structs *)

Module SharedKeyFacts.
Import CheckerFacts.





Lemma map_to_list_keys (fields : gmap string string) :
  NoDup (map fst (map_to_list fields)).
Proof. exact (NoDup_fst_map_to_list fields). Qed.



End SharedKeyFacts.



(** * Further properties of the checker *)

(** ** What the validators report *)

Module ValidatorFacts.
Import StrFacts CheckerFacts.

Lemma cheatcode_message_inj (m n : string) :
  cheatcode_message m = cheatcode_message n -> m = n.
Proof.
  unfold cheatcode_message. intros H. simpl in H.
  injection H as H. now apply append_inv_r in H.
Qed.

Lemma NoDup_list_filter {A} (f : A -> bool) (l : list A) :
  NoDup l -> NoDup (List.filter f l).
Proof.
  induction 1 as [|x l Hx Hl IH]; simpl; [constructor|].
  destruct (f x); [|exact IH]. constructor; [|exact IH].
  rewrite list_elem_of_In, filter_In. rewrite list_elem_of_In in Hx. tauto.
Qed.

Lemma NoDup_map_inj {A B} (f : A -> B) (l : list A) :
  (forall x y, f x = f y -> x = y) -> NoDup l -> NoDup (map f l).
Proof.
  intros Hf. induction 1 as [|x l Hx Hl IH]; simpl; [constructor|].
  constructor; [|exact IH].
  rewrite list_elem_of_In, in_map_iff. intros (y & Hy & Hin).
  apply Hf in Hy as ->. now rewrite list_elem_of_In in Hx.
Qed.

Lemma in_map_inj {A B} (f : A -> B) (l : list A) (x : A) :
  (forall x y, f x = f y -> x = y) -> In (f x) (map f l) <-> In x l.
Proof.
  intros Hf. rewrite in_map_iff. split.
  - intros (y & Hy & Hin). now apply Hf in Hy as ->.
  - intros H. now exists x.
Qed.

Lemma undocumented_cheatcodes_spec (interface_content : string)
    (base_methods : gset string) (m : string) :
  In m (undocumented_cheatcodes interface_content base_methods)
  <-> m ∈ base_methods /\ cheatcode_present interface_content m = false.
Proof.
  unfold undocumented_cheatcodes. rewrite filter_In, <- list_elem_of_In.
  rewrite elem_of_elements, negb_true_iff. reflexivity.
Qed.

Lemma undocumented_fields_spec (doc_content : string)
    (fields : gmap string string) (k s : string) :
  In (k, s) (undocumented_fields doc_content fields)
  <-> fields !! k = Some s /\ field_present doc_content k = false.
Proof.
  unfold undocumented_fields. rewrite filter_In, <- list_elem_of_In.
  rewrite elem_of_map_to_list, negb_true_iff. reflexivity.
Qed.

Lemma NoDup_keys_filter {A B} (f : A * B -> bool) (l : list (A * B)) :
  NoDup (map fst l) -> NoDup (map fst (List.filter f l)).
Proof.
  induction l as [|p l IH]; simpl; intros H; [constructor|].
  apply NoDup_cons in H as [Hp Hl]. destruct (f p); [|now apply IH].
  simpl. constructor; [|now apply IH].
  rewrite list_elem_of_In in *. rewrite in_map_iff in *.
  intros (y & Hy & Hin). apply filter_In in Hin as [Hin _].
  apply Hp. now exists y.
Qed.

End ValidatorFacts.

(** X1. With the documentation file present, the flag validator appends
    one message per flag that is in neither form in the text, each once
    and nothing else: the message of a flag is appended exactly when the
    flag is in the set and the text holds neither the flag after two
    dashes nor the flag between backticks. *)
Theorem flag_validator_reports_exactly (repo : string -> option string)
    (flags : gset string) (command doc_file doc_content : string)
    (self : DocChecker) :
  repo doc_file = Some doc_content ->
  let reported :=
    map (flag_message command doc_file)
      (undocumented_flags doc_content flags) in
  errors (_validate_flags_documented repo flags command doc_file self)
  = errors self ++ reported
  /\ NoDup reported
  /\ forall f,
       In (flag_message command doc_file f) reported
       <-> f ∈ flags
           /\ Str.contains ("--" +:+ f) doc_content = false
           /\ Str.contains ("`" +:+ f +:+ "`") doc_content = false.
Proof.
  intros Hdoc reported. subst reported.
  split; [|split].
  - now rewrite (CheckerFacts.validate_flags_eq _ _ _ _ _ _ Hdoc).
  - apply ValidatorFacts.NoDup_map_inj.
    + apply FlagFacts.flag_message_inj.
    + apply ValidatorFacts.NoDup_list_filter, NoDup_elements.
  - intros f.
    rewrite ValidatorFacts.in_map_inj by apply FlagFacts.flag_message_inj.
    rewrite FlagFacts.undocumented_flags_spec. unfold flag_present.
    rewrite orb_false_iff. tauto.
Qed.

Lemma flag_validator_reports_exactly_witness :
  let reported :=
    map (flag_message "fuzz" "docs/src/cli/fuzz.md")
      (undocumented_flags "Pass `timeout` or --seed."
         {[ "timeout"; "workers" ]}) in
  errors (_validate_flags_documented
            (Samples.files
               [("docs/src/cli/fuzz.md", "Pass `timeout` or --seed.")])
            {[ "timeout"; "workers" ]} "fuzz" "docs/src/cli/fuzz.md" init)
  = errors init ++ reported
  /\ NoDup reported
  /\ forall f,
       In (flag_message "fuzz" "docs/src/cli/fuzz.md" f) reported
       <-> f ∈ ({[ "timeout"; "workers" ]} : gset string)
           /\ Str.contains ("--" +:+ f) "Pass `timeout` or --seed." = false
           /\ Str.contains ("`" +:+ f +:+ "`") "Pass `timeout` or --seed."
              = false.
Proof.
  apply (flag_validator_reports_exactly
           (Samples.files
              [("docs/src/cli/fuzz.md", "Pass `timeout` or --seed.")])).
  reflexivity.
Defined.

(** X2. With the interface file present, the cheatcode validator appends
    one message per base method whose [function <name>(] is not in the
    text, each once and nothing else. *)
Theorem cheatcode_validator_reports_exactly (repo : string -> option string)
    (base_methods : gset string) (interface_content : string)
    (self : DocChecker) :
  repo cheatcode_doc = Some interface_content ->
  let reported :=
    map cheatcode_message
      (undocumented_cheatcodes interface_content base_methods) in
  errors (_validate_cheatcodes_in_interface repo base_methods self)
  = errors self ++ reported
  /\ NoDup reported
  /\ forall m,
       In (cheatcode_message m) reported
       <-> m ∈ base_methods
           /\ Str.contains ("function " +:+ m +:+ "(") interface_content
              = false.
Proof.
  intros Hdoc reported. subst reported.
  split; [|split].
  - now rewrite (CheckerFacts.validate_cheatcodes_eq _ _ _ _ Hdoc).
  - apply ValidatorFacts.NoDup_map_inj.
    + apply ValidatorFacts.cheatcode_message_inj.
    + apply ValidatorFacts.NoDup_list_filter, NoDup_elements.
  - intros m.
    rewrite ValidatorFacts.in_map_inj
      by apply ValidatorFacts.cheatcode_message_inj.
    rewrite ValidatorFacts.undocumented_cheatcodes_spec. reflexivity.
Qed.

Lemma cheatcode_validator_reports_exactly_witness :
  let reported :=
    map cheatcode_message
      (undocumented_cheatcodes "function warp(uint256) external;"
         {[ "warp"; "roll" ]}) in
  errors (_validate_cheatcodes_in_interface
            (Samples.files
               [(cheatcode_doc, "function warp(uint256) external;")])
            {[ "warp"; "roll" ]} init)
  = errors init ++ reported
  /\ NoDup reported
  /\ forall m,
       In (cheatcode_message m) reported
       <-> m ∈ ({[ "warp"; "roll" ]} : gset string)
           /\ Str.contains ("function " +:+ m +:+ "(")
                "function warp(uint256) external;"
              = false.
Proof.
  apply (cheatcode_validator_reports_exactly
           (Samples.files
              [(cheatcode_doc, "function warp(uint256) external;")])).
  reflexivity.
Defined.

(** X3. With the documentation file present, the config validator
    appends one message per entry of the mapping whose key is neither
    between backticks in the text nor after [## ] in the lowered text, at
    most one per key and nothing else. *)
Theorem field_validator_reports_exactly (repo : string -> option string)
    (fields : gmap string string) (doc_file doc_content : string)
    (self : DocChecker) :
  repo doc_file = Some doc_content ->
  let reported := undocumented_fields doc_content fields in
  errors (_validate_config_fields_documented repo fields doc_file self)
  = errors self
    ++ map (fun entry => field_message doc_file (fst entry) (snd entry))
         reported
  /\ NoDup (map fst reported)
  /\ forall k s,
       In (k, s) reported
       <-> fields !! k = Some s
           /\ Str.contains ("`" +:+ k +:+ "`") doc_content = false
           /\ Str.contains ("## " +:+ k) (Str.lower doc_content) = false.
Proof.
  intros Hdoc reported. subst reported.
  split; [|split].
  - now rewrite (CheckerFacts.validate_fields_eq _ _ _ _ _ Hdoc).
  - apply ValidatorFacts.NoDup_keys_filter, SharedKeyFacts.map_to_list_keys.
  - intros k s. rewrite ValidatorFacts.undocumented_fields_spec.
    unfold field_present. rewrite orb_false_iff. tauto.
Qed.


Lemma field_validator_reports_exactly_witness :
  let reported :=
    undocumented_fields "Set `workers`." {[ "workers" := "FuzzingConfig" ]} in
  errors (_validate_config_fields_documented
            (Samples.files [("fuzzing_config.md", "Set `workers`.")])
            {[ "workers" := "FuzzingConfig" ]} "fuzzing_config.md" init)
  = errors init
    ++ map (fun entry =>
              field_message "fuzzing_config.md" (fst entry) (snd entry))
         reported
  /\ NoDup (map fst reported)
  /\ forall k s,
       In (k, s) reported
       <-> ({[ "workers" := "FuzzingConfig" ]} : gmap string string) !! k
           = Some s
           /\ Str.contains ("`" +:+ k +:+ "`") "Set `workers`." = false
           /\ Str.contains ("## " +:+ k) (Str.lower "Set `workers`.") = false.
Proof.
  apply (field_validator_reports_exactly
           (Samples.files [("fuzzing_config.md", "Set `workers`.")])).
  reflexivity.
Defined.

(** ** The checks only append *)

Module ExtendsFacts.
Import CheckerFacts.

Lemma extends_refl (self : DocChecker) : extends self self.
Proof. repeat split; exists []; now rewrite app_nil_r. Qed.

Lemma extends_trans (a b c : DocChecker) :
  extends a b -> extends b c -> extends a c.
Proof.
  intros ([e1 He1] & [w1 Hw1] & [p1 Hp1]) ([e2 He2] & [w2 Hw2] & [p2 Hp2]).
  repeat split.
  - exists (e1 ++ e2). now rewrite He2, He1, app_assoc.
  - exists (w1 ++ w2). now rewrite Hw2, Hw1, app_assoc.
  - exists (p1 ++ p2). now rewrite Hp2, Hp1, app_assoc.
Qed.

Lemma extends_add_error (m : string) (self : DocChecker) :
  extends self (add_error m self).
Proof.
  repeat split; simpl; [now exists [m] | |]; exists []; now rewrite app_nil_r.
Qed.

Lemma extends_add_warning (m : string) (self : DocChecker) :
  extends self (add_warning m self).
Proof.
  repeat split; simpl; [|now exists [m] |]; exists []; now rewrite app_nil_r.
Qed.

Lemma extends_print (line : string) (self : DocChecker) :
  extends self (print line self).
Proof.
  repeat split; simpl; [| |now exists [line]]; exists []; now rewrite app_nil_r.
Qed.

Lemma extends_with_errors (self : DocChecker) (ms : list string) :
  extends self (with_errors self ms).
Proof.
  repeat split; simpl; [now exists ms | |]; exists []; now rewrite app_nil_r.
Qed.

Lemma extends_fold {A} (f : DocChecker -> A -> DocChecker) (l : list A) :
  (forall self x, extends self (f self x)) ->
  forall self, extends self (fold_left f l self).
Proof.
  intros Hf. induction l as [|x l IH]; intros self; simpl.
  - apply extends_refl.
  - eapply extends_trans; [apply Hf | apply IH].
Qed.

Section Methods.
Variable repo : string -> option string.

Lemma extends_extract_flags (file_path : string) (self : DocChecker) :
  extends self (snd (_extract_flags_from_file repo file_path self)).
Proof.
  unfold _extract_flags_from_file. destruct (repo file_path); simpl.
  - apply extends_refl.
  - apply extends_add_error.
Qed.

Lemma extends_validate_flags (flags : gset string)
    (command doc_file : string) (self : DocChecker) :
  extends self (_validate_flags_documented repo flags command doc_file self).
Proof.
  destruct (repo doc_file) as [doc|] eqn:E.
  - rewrite (validate_flags_eq _ _ _ _ _ _ E). apply extends_with_errors.
  - unfold _validate_flags_documented. rewrite E. apply extends_add_error.
Qed.

Lemma extract_flags_eq (file_path : string) (self : DocChecker) :
  _extract_flags_from_file repo file_path self
  = (fst (_extract_flags_from_file repo file_path self),
     snd (_extract_flags_from_file repo file_path self)).
Proof. apply surjective_pairing. Qed.

Lemma warnings_extract_flags (file_path : string) (self : DocChecker) :
  warnings (snd (_extract_flags_from_file repo file_path self))
  = warnings self.
Proof.
  unfold _extract_flags_from_file. now destruct (repo file_path).
Qed.

Lemma warnings_validate_flags (flags : gset string)
    (command doc_file : string) (self : DocChecker) :
  warnings (_validate_flags_documented repo flags command doc_file self)
  = warnings self.
Proof.
  destruct (repo doc_file) as [doc|] eqn:E.
  - now rewrite (validate_flags_eq _ _ _ _ _ _ E).
  - unfold _validate_flags_documented. now rewrite E.
Qed.

Lemma extract_cheatcodes_eq (self : DocChecker) :
  _extract_cheatcodes repo self
  = (fst (_extract_cheatcodes repo self), snd (_extract_cheatcodes repo self)).
Proof. apply surjective_pairing. Qed.

Lemma warnings_extract_cheatcodes (self : DocChecker) :
  warnings (snd (_extract_cheatcodes repo self)) = warnings self.
Proof.
  unfold _extract_cheatcodes. now destruct (repo cheatcode_source).
Qed.

Lemma warnings_validate_cheatcodes (base_methods : gset string)
    (self : DocChecker) :
  warnings (_validate_cheatcodes_in_interface repo base_methods self)
  = warnings self.
Proof.
  destruct (repo cheatcode_doc) as [doc|] eqn:E.
  - now rewrite (validate_cheatcodes_eq _ _ _ _ E).
  - unfold _validate_cheatcodes_in_interface. now rewrite E.
Qed.

Lemma extends_extract_cheatcodes (self : DocChecker) :
  extends self (snd (_extract_cheatcodes repo self)).
Proof.
  unfold _extract_cheatcodes. destruct (repo cheatcode_source); simpl.
  - apply extends_refl.
  - apply extends_add_error.
Qed.

Lemma extends_validate_cheatcodes (base_methods : gset string)
    (self : DocChecker) :
  extends self (_validate_cheatcodes_in_interface repo base_methods self).
Proof.
  destruct (repo cheatcode_doc) as [doc|] eqn:E.
  - rewrite (validate_cheatcodes_eq _ _ _ _ E). apply extends_with_errors.
  - unfold _validate_cheatcodes_in_interface. rewrite E.
    apply extends_add_error.
Qed.

Lemma extends_extract_fields (source_file : string)
    (struct_names : list string) (self : DocChecker) :
  extends self
    (snd (_extract_config_fields repo source_file struct_names self)).
Proof.
  unfold _extract_config_fields. destruct (repo source_file); simpl.
  - apply extends_refl.
  - apply extends_add_warning.
Qed.

Lemma extends_validate_fields (fields : gmap string string)
    (doc_file : string) (self : DocChecker) :
  extends self (_validate_config_fields_documented repo fields doc_file self).
Proof.
  destruct (repo doc_file) as [doc|] eqn:E.
  - rewrite (validate_fields_eq _ _ _ _ _ E). apply extends_with_errors.
  - unfold _validate_config_fields_documented. rewrite E.
    apply extends_add_error.
Qed.

Lemma extends_config_mapping (acc : nat * DocChecker)
    (mapping : string * list string * string) :
  extends (snd acc) (snd (check_config_mapping repo acc mapping)).
Proof.
  destruct acc as [total self], mapping as [[src names] doc].
  unfold check_config_mapping.
  pose proof (extends_extract_fields src names self) as H.
  destruct (_extract_config_fields repo src names self) as [fields self'].
  simpl in H. case_bool_decide; simpl; [exact H|].
  eapply extends_trans; [exact H | apply extends_validate_fields].
Qed.

Lemma extends_config_mappings (l : list (string * list string * string)) :
  forall acc, extends (snd acc) (snd (fold_left (check_config_mapping repo) l acc)).
Proof.
  induction l as [|m l IH]; intros acc; simpl.
  - apply extends_refl.
  - eapply extends_trans; [apply extends_config_mapping | apply IH].
Qed.

End Methods.
End ExtendsFacts.

(** X4. The three checks only append: the errors, the warnings and the
    printed lines they start from are kept, in order, at the front of what
    they end with; the flag check and the cheatcode check add no
    warning. *)
Theorem checks_only_append (repo : string -> option string)
    (self : DocChecker) :
  extends self (check_cli_flags repo self)
  /\ extends self (check_cheatcodes repo self)
  /\ extends self (check_config_fields repo self)
  /\ warnings (check_cli_flags repo self) = warnings self
  /\ warnings (check_cheatcodes repo self) = warnings self.
Proof.
  split; [|split; [|split; [|split]]].
  - unfold check_cli_flags.
    pose proof (ExtendsFacts.extends_extract_flags repo "cmd/fuzz_flags.go"
                  (print "Checking CLI flags documentation..." self)) as H1.
    destruct (_extract_flags_from_file repo "cmd/fuzz_flags.go" _)
      as [fuzz s1]. cbn [snd] in H1.
    pose proof (ExtendsFacts.extends_extract_flags repo "cmd/init_flags.go"
                  (_validate_flags_documented repo fuzz "fuzz"
                     "docs/src/cli/fuzz.md" s1)) as H2.
    destruct (_extract_flags_from_file repo "cmd/init_flags.go" _)
      as [init s2]. cbn [snd] in H2.
    eapply ExtendsFacts.extends_trans; [apply ExtendsFacts.extends_print|].
    eapply ExtendsFacts.extends_trans; [exact H1|].
    eapply ExtendsFacts.extends_trans;
      [apply ExtendsFacts.extends_validate_flags|].
    eapply ExtendsFacts.extends_trans; [exact H2|].
    eapply ExtendsFacts.extends_trans;
      [apply ExtendsFacts.extends_validate_flags|].
    apply ExtendsFacts.extends_print.
  - unfold check_cheatcodes.
    pose proof (ExtendsFacts.extends_extract_cheatcodes repo
                  (print "Checking cheatcodes documentation..." self)) as H1.
    destruct (_extract_cheatcodes repo _) as [found s1]. cbn [snd] in H1.
    eapply ExtendsFacts.extends_trans; [apply ExtendsFacts.extends_print|].
    eapply ExtendsFacts.extends_trans; [exact H1|].
    eapply ExtendsFacts.extends_trans; [apply ExtendsFacts.extends_print|].
    apply ExtendsFacts.extends_validate_cheatcodes.
  - unfold check_config_fields.
    pose proof (ExtendsFacts.extends_config_mappings repo config_mappings
                  (0, print "Checking configuration fields documentation..."
                        self)) as H1.
    destruct (fold_left _ _ _) as [total s1]. cbn [snd] in H1.
    eapply ExtendsFacts.extends_trans; [apply ExtendsFacts.extends_print|].
    eapply ExtendsFacts.extends_trans; [exact H1|].
    apply ExtendsFacts.extends_print.
  - unfold check_cli_flags.
    rewrite (ExtendsFacts.extract_flags_eq repo "cmd/fuzz_flags.go").
    rewrite (ExtendsFacts.extract_flags_eq repo "cmd/init_flags.go").
    cbn [print warnings].
    repeat rewrite ?ExtendsFacts.warnings_validate_flags,
      ?ExtendsFacts.warnings_extract_flags.
    reflexivity.
  - unfold check_cheatcodes.
    rewrite (ExtendsFacts.extract_cheatcodes_eq repo).
    rewrite ExtendsFacts.warnings_validate_cheatcodes. cbn [print warnings].
    now rewrite ExtendsFacts.warnings_extract_cheatcodes.
Qed.

(** ** When the run succeeds *)

Module RunFacts.
Import CheckerFacts ExtendsFacts.

Lemma filter_nil_iff {A} (f : A -> bool) (l : list A) :
  List.filter f l = [] <-> forall x, In x l -> f x = false.
Proof.
  induction l as [|x l IH]; simpl.
  - split; [intros _ y [] | reflexivity].
  - destruct (f x) eqn:E.
    + split; [discriminate|]. intros H. specialize (H x (or_introl eq_refl)).
      congruence.
    + rewrite IH. split.
      * intros H y [<-|Hy]; [exact E | now apply H].
      * intros H y Hy. apply H. now right.
Qed.

Lemma map_nil_iff {A B} (f : A -> B) (l : list A) : map f l = [] <-> l = [].
Proof. destruct l; simpl; split; congruence. Qed.

Lemma app_nil_iff {A} (l k : list A) : l ++ k = [] <-> l = [] /\ k = [].
Proof.
  split; [apply app_eq_nil | intros [-> ->]; reflexivity].
Qed.

Section Steps.
Variable repo : string -> option string.

(** One flag pairing: the extraction, then the validation. *)
Lemma flag_pairing_clean (source_file command doc_file : string)
    (self : DocChecker) :
  errors (_validate_flags_documented repo
            (fst (_extract_flags_from_file repo source_file self))
            command doc_file
            (snd (_extract_flags_from_file repo source_file self)))
  = []
  <-> errors self = [] /\ flags_pass repo source_file doc_file.
Proof.
  unfold _extract_flags_from_file, flags_pass.
  destruct (repo source_file) as [content|] eqn:Hs; cbn [fst snd].
  - destruct (repo doc_file) as [doc|] eqn:Hd.
    + rewrite (validate_flags_eq _ _ _ _ _ _ Hd). cbn [with_errors errors].
      rewrite app_nil_iff, map_nil_iff. unfold undocumented_flags.
      rewrite filter_nil_iff. split.
      * intros [He H]. split; [exact He|]. exists content, doc.
        repeat split. intros f Hf. apply elem_of_elements in Hf.
        apply list_elem_of_In in Hf. specialize (H f Hf).
        now apply negb_false_iff in H.
      * intros [He (c & d & [= <-] & [= <-] & H)]. split; [exact He|].
        intros f Hf. apply negb_false_iff, H.
        apply elem_of_elements. now apply list_elem_of_In.
    + unfold _validate_flags_documented. rewrite Hd. cbn [add_error errors].
      split.
      * intros H. apply app_eq_nil in H as [_ H]. discriminate.
      * intros [_ (c & d & _ & H & _)]. discriminate.
  - split.
    + intros H.
      pose proof (extends_validate_flags repo ∅ command doc_file
                    (add_error ("Source file not found: " +:+ source_file)
                       self)) as ([new Hn] & _).
      rewrite H in Hn. cbn [add_error errors] in Hn. symmetry in Hn.
      apply app_eq_nil in Hn as [Hn _]. apply app_eq_nil in Hn as [_ Hn].
      discriminate.
    + intros [_ (c & d & H & _)]. discriminate.
Qed.

Lemma cheatcode_pairing_clean (line : string) (self : DocChecker) :
  errors (_validate_cheatcodes_in_interface repo
            (base_methods_of (fst (_extract_cheatcodes repo self)))
            (print line (snd (_extract_cheatcodes repo self))))
  = []
  <-> errors self = [] /\ cheatcodes_pass repo.
Proof.
  unfold _extract_cheatcodes, cheatcodes_pass.
  destruct (repo cheatcode_source) as [content|] eqn:Hs; cbn [fst snd].
  - destruct (repo cheatcode_doc) as [doc|] eqn:Hd.
    + rewrite (validate_cheatcodes_eq _ _ _ _ Hd).
      cbn [with_errors errors print].
      rewrite app_nil_iff, map_nil_iff. unfold undocumented_cheatcodes.
      rewrite filter_nil_iff. split.
      * intros [He H]. split; [exact He|]. exists content, doc.
        repeat split. intros f Hf. apply elem_of_elements in Hf.
        apply list_elem_of_In in Hf. specialize (H f Hf).
        now apply negb_false_iff in H.
      * intros [He (c & d & [= <-] & [= <-] & H)]. split; [exact He|].
        intros f Hf. apply negb_false_iff, H.
        apply elem_of_elements. now apply list_elem_of_In.
    + unfold _validate_cheatcodes_in_interface. rewrite Hd.
      cbn [add_error errors print]. split.
      * intros H. apply app_eq_nil in H as [_ H]. discriminate.
      * intros [_ (c & d & _ & H & _)]. discriminate.
  - split.
    + intros H.
      pose proof (extends_validate_cheatcodes repo (base_methods_of ∅)
                    (print line
                       (add_error ("Cheatcode source file not found: "
                                   +:+ cheatcode_source) self)))
        as ([new Hn] & _).
      rewrite H in Hn. cbn [add_error errors print] in Hn. symmetry in Hn.
      apply app_eq_nil in Hn as [Hn _]. apply app_eq_nil in Hn as [_ Hn].
      discriminate.
    + intros [_ (c & d & H & _)]. discriminate.
Qed.

Lemma config_mapping_clean (acc : nat * DocChecker)
    (mapping : string * list string * string) :
  errors (snd (check_config_mapping repo acc mapping)) = []
  <-> errors (snd acc) = [] /\ config_pass repo mapping.
Proof.
  destruct acc as [total self], mapping as [[src names] doc].
  unfold check_config_mapping, _extract_config_fields, config_pass.
  cbn [fst snd].
  destruct (repo src) as [content|] eqn:Hs.
  - case_bool_decide as Hempty; cbn [snd].
    + split; [|tauto]. intros H. split; [exact H|].
      intros c [= <-] Hne. contradiction.
    + destruct (repo doc) as [d|] eqn:Hd.
      * rewrite (validate_fields_eq _ _ _ _ _ Hd). cbn [with_errors errors].
        rewrite app_nil_iff, map_nil_iff. unfold undocumented_fields.
        rewrite filter_nil_iff. split.
        -- intros [He H]. split; [exact He|]. intros c [= <-] _.
           exists d. split; [reflexivity|]. intros k [s Hk].
           apply elem_of_map_to_list, list_elem_of_In in Hk.
           specialize (H _ Hk). now apply negb_false_iff in H.
        -- intros [He H]. split; [exact He|].
           destruct (H content eq_refl Hempty) as (d' & [= <-] & Hp).
           intros [k s] Hk. apply negb_false_iff, Hp. exists s.
           now apply elem_of_map_to_list, list_elem_of_In.
      * unfold _validate_config_fields_documented. rewrite Hd.
        cbn [add_error errors]. split.
        -- intros H. apply app_eq_nil in H as [_ H]. discriminate.
        -- intros [_ H]. destruct (H content eq_refl Hempty) as (d & Hd' & _).
           discriminate.
  - rewrite bool_decide_eq_true_2 by reflexivity. cbn [snd add_warning errors].
    split; [|tauto]. intros H. split; [exact H|]. intros c Hc. discriminate.
Qed.

Lemma config_mappings_clean (l : list (string * list string * string)) :
  forall acc,
    errors (snd (fold_left (check_config_mapping repo) l acc)) = []
    <-> errors (snd acc) = [] /\ Forall (config_pass repo) l.
Proof.
  induction l as [|m l IH]; intros acc; simpl.
  - split; [intros H; split; [exact H | constructor] | tauto].
  - rewrite IH, config_mapping_clean, Forall_cons. tauto.
Qed.

Lemma errors_check_cli_flags (self : DocChecker) :
  errors (check_cli_flags repo self)
  = let fuzz :=
      _extract_flags_from_file repo "cmd/fuzz_flags.go"
        (print "Checking CLI flags documentation..." self) in
    let validated :=
      _validate_flags_documented repo (fst fuzz) "fuzz"
        "docs/src/cli/fuzz.md" (snd fuzz) in
    let init := _extract_flags_from_file repo "cmd/init_flags.go" validated in
    errors (_validate_flags_documented repo (fst init) "init"
              "docs/src/cli/init.md" (snd init)).
Proof.
  unfold check_cli_flags.
  destruct (_extract_flags_from_file repo "cmd/fuzz_flags.go" _)
    as [fuzz s1]. cbn [fst snd].
  now destruct (_extract_flags_from_file repo "cmd/init_flags.go" _).
Qed.

Lemma errors_check_cheatcodes (self : DocChecker) :
  errors (check_cheatcodes repo self)
  = let found :=
      _extract_cheatcodes repo
        (print "Checking cheatcodes documentation..." self) in
    errors (_validate_cheatcodes_in_interface repo
              (base_methods_of (fst found))
              (print (cheatcode_counts (fst found)
                        (base_methods_of (fst found)))
                 (snd found))).
Proof.
  unfold check_cheatcodes. now destruct (_extract_cheatcodes repo _).
Qed.

Lemma errors_check_config_fields (self : DocChecker) :
  errors (check_config_fields repo self)
  = errors (snd (fold_left (check_config_mapping repo) config_mappings
                   (0, print "Checking configuration fields documentation..."
                         self))).
Proof.
  unfold check_config_fields. now destruct (fold_left _ _ _).
Qed.

Lemma check_cli_flags_clean (self : DocChecker) :
  errors (check_cli_flags repo self) = []
  <-> errors self = []
      /\ flags_pass repo "cmd/fuzz_flags.go" "docs/src/cli/fuzz.md"
      /\ flags_pass repo "cmd/init_flags.go" "docs/src/cli/init.md".
Proof.
  rewrite errors_check_cli_flags. cbv zeta.
  rewrite !flag_pairing_clean. cbn [print errors]. tauto.
Qed.

Lemma check_cheatcodes_clean (self : DocChecker) :
  errors (check_cheatcodes repo self) = []
  <-> errors self = [] /\ cheatcodes_pass repo.
Proof.
  rewrite errors_check_cheatcodes. cbv zeta.
  rewrite cheatcode_pairing_clean. cbn [print errors]. tauto.
Qed.

Lemma check_config_fields_clean (self : DocChecker) :
  errors (check_config_fields repo self) = []
  <-> errors self = [] /\ Forall (config_pass repo) config_mappings.
Proof.
  rewrite errors_check_config_fields, config_mappings_clean.
  cbn [snd print errors]. tauto.
Qed.

End Steps.
End RunFacts.

(** ** The lines of the report *)

Module ReportOutput.

Lemma fold_print (f : string -> string) (l : list string) :
  forall self : DocChecker,
    fold_left (fun self x => print (f x) self) l self
    = {| errors := errors self; warnings := warnings self;
         printed := printed self ++ map f l |}.
Proof.
  induction l as [|x l IH]; intros self; simpl.
  - rewrite app_nil_r. now destruct self.
  - rewrite IH. simpl. now rewrite <- app_assoc.
Qed.

End ReportOutput.

(** X5. [report] prints every error and every warning, each on a line
    of its own after its mark, the number of errors when there is one, the
    success line when there is none; it adds lines after those already
    printed and leaves the errors and the warnings as they are. *)
Theorem report_prints_every_diagnostic (self : DocChecker) :
  (forall error, In error (errors self) ->
                 In ("  ❌ " +:+ error) (printed (fst (report self))))
  /\ (forall warning, In warning (warnings self) ->
                      In ("  ⚠️  " +:+ warning) (printed (fst (report self))))
  /\ (errors self <> [] ->
      In ("Total errors: " +:+ pretty (length (errors self)))
        (printed (fst (report self))))
  /\ (errors self = [] ->
      In "✅ All documentation checks passed!" (printed (fst (report self))))
  /\ errors (fst (report self)) = errors self
  /\ warnings (fst (report self)) = warnings self
  /\ exists lines, printed (fst (report self)) = printed self ++ lines.
Proof.
  destruct self as [es ws ps]. unfold report.
  cbn [print errors warnings printed fst].
  destruct ws as [|w ws], es as [|e es];
    rewrite ?ReportOutput.fold_print; cbn [print errors warnings printed fst];
    repeat split; try discriminate; try contradiction;
    try (intros x Hx;
         pose proof (in_map (append "  ❌ ") _ _ Hx);
         pose proof (in_map (append "  ⚠️  ") _ _ Hx);
         rewrite !in_app_iff; tauto);
    try (intros _; rewrite <- list_elem_of_In;
         rewrite ?elem_of_app, ?elem_of_cons; naive_solver);
    try (eexists; rewrite <- ?app_assoc; reflexivity).
Qed.

(** * The presence tests and the extractors on written sources *)

(** ** The presence test of the config validator *)

Module PresenceFacts.
Import Str StrFacts.

Lemma lower_app (a b : string) : lower (a +:+ b) = lower a +:+ lower b.
Proof. induction a as [|c a IH]; simpl; [reflexivity | now rewrite IH]. Qed.

(** Lowering keeps the length, so a lowered text splits where its source
    does. *)
Lemma lower_split (a : string) :
  forall s b : string,
    lower s = a +:+ b ->
    exists s1 s2, s = s1 +:+ s2 /\ lower s1 = a /\ lower s2 = b.
Proof.
  induction a as [|c a IH]; intros s b H.
  - exists "", s. now repeat split.
  - destruct s as [|d s]; [discriminate H|].
    simpl in H. injection H as Hc H.
    apply IH in H as (s1 & s2 & -> & Ha & Hb).
    exists (String d s1), s2. simpl. now rewrite Hc, Ha.
Qed.

Lemma to_lower_hash (c : ascii) : Chars.to_lower c = "#"%char -> c = "#"%char.
Proof.
  destruct c as [[] [] [] [] [] [] [] []]; intros H;
    try reflexivity; vm_compute in H; discriminate H.
Qed.

Lemma to_lower_space (c : ascii) : Chars.to_lower c = " "%char -> c = " "%char.
Proof.
  destruct c as [[] [] [] [] [] [] [] []]; intros H;
    try reflexivity; vm_compute in H; discriminate H.
Qed.

(** Only [## ] lowers to [## ]. *)
Lemma lower_heading_mark (x : string) : lower x = "## " -> x = "## ".
Proof.
  destruct x as [|a [|b [|c [|d x]]]]; try discriminate.
  simpl. intros H. injection H as Ha Hb Hc.
  apply to_lower_hash in Ha, Hb. apply to_lower_space in Hc.
  now subst.
Qed.

Lemma heading_found_iff (doc_content field_name : string) :
  contains ("## " +:+ field_name) (lower doc_content) = true
  <-> exists pre heading post,
        doc_content = pre +:+ "## " +:+ heading +:+ post
        /\ lower heading = field_name.
Proof.
  split.
  - intros H. apply contains_inv in H as (a & b & H).
    rewrite append_assoc in H.
    apply lower_split in H as (pre & s & -> & _ & H).
    apply (lower_split "## ") in H as (x & s' & -> & Hx & H).
    apply lower_split in H as (heading & post & -> & Hh & _).
    apply lower_heading_mark in Hx as ->.
    now exists pre, heading, post.
  - intros (pre & heading & post & -> & <-).
    rewrite lower_app. change (lower ("## " +:+ heading +:+ post))
      with ("## " +:+ lower (heading +:+ post)).
    rewrite lower_app.
    rewrite <- (append_assoc "## " (lower heading) (lower post)).
    apply contains_app.
Qed.

Lemma contains_iff (needle hay : string) :
  contains needle hay = true
  <-> exists pre post, hay = pre +:+ needle +:+ post.
Proof.
  split; [apply contains_inv|].
  intros (pre & post & ->). apply contains_app.
Qed.

End PresenceFacts.

(** X7. For a documentation whose characters are all below U+0100, the
    presence test of the config validator holds exactly when the
    documentation holds the key between backticks, or holds [## ] followed
    by a text whose lowering is the key: a heading counts in any casing for
    a key written in lower case, wherever in a line the mark stands. *)
Theorem field_present_iff (doc_content field_name : string) :
  latin1 doc_content ->
  field_present doc_content field_name = true
  <-> (exists pre post,
          doc_content = pre +:+ "`" +:+ field_name +:+ "`" +:+ post)
      \/ (exists pre heading post,
             doc_content = pre +:+ "## " +:+ heading +:+ post
             /\ Str.lower heading = field_name).
Proof.
  intros _. unfold field_present. rewrite orb_true_iff.
  rewrite PresenceFacts.heading_found_iff, PresenceFacts.contains_iff.
  split; intros [H|H]; [left|now right|left|now right].
  - destruct H as (pre & post & ->). exists pre, post.
    now rewrite !StrFacts.append_assoc.
  - destruct H as (pre & post & ->). exists pre, post.
    now rewrite !StrFacts.append_assoc.
Qed.

Lemma field_present_iff_witness :
  field_present "## Seed of the run" "seed" = true
  <-> (exists pre post,
          "## Seed of the run" = pre +:+ "`" +:+ "seed" +:+ "`" +:+ post)
      \/ (exists pre heading post,
             "## Seed of the run" = pre +:+ "## " +:+ heading +:+ post
             /\ Str.lower heading = "seed").
Proof.
  apply (field_present_iff "## Seed of the run" "seed"). reflexivity.
Defined.

(** ** The keys of the extracted mapping *)

Module KeyFacts.
Import Re Patterns CheckerFacts.

(** The types listed by name in the test on the field type all end with
    [Config]: the list decides nothing that the suffix test leaves open. *)
Lemma nested_ends_config (field_type : string) :
  existsb (String.eqb field_type) nested_config_types = true ->
  Str.endswith "Config" field_type = true.
Proof.
  intros H. apply existsb_exists in H as (t & Hin & Ht).
  apply String.eqb_eq in Ht as ->.
  simpl in Hin. destruct Hin as [<-|[<-|[<-|[]]]]; reflexivity.
Qed.

Lemma field_key_intro (go ty tag : string) :
  first_isupper go = true ->
  Str.contains ",omitempty" tag = false ->
  Str.endswith "Config" ty = false ->
  field_key [go; ty; tag] = Some (Str.before "," tag).
Proof.
  intros Hgo Ho Hty. unfold field_key. rewrite Hgo, Ho, Hty.
  destruct (existsb _ _) eqn:E; [|reflexivity].
  apply nested_ends_config in E. congruence.
Qed.

Lemma declares_intro (content struct_name body go ty tag : string) :
  search (struct_pattern struct_name) content = Some [body] ->
  In [go; ty; tag] (findall field_pattern body) ->
  first_isupper go = true ->
  Str.contains ",omitempty" tag = false ->
  Str.endswith "Config" ty = false ->
  declares content struct_name (Str.before "," tag) = true.
Proof.
  intros Hs Hin Hgo Ho Hty. unfold declares. rewrite Hs. simpl.
  apply existsb_exists. exists [go; ty; tag]. split; [exact Hin|].
  apply bool_decide_eq_true. now apply field_key_intro.
Qed.

Lemma find_is_Some {A} (P : A -> bool) (l : list A) :
  is_Some (find P l) <-> exists x, In x l /\ P x = true.
Proof.
  split.
  - intros [x Hx]. apply find_some in Hx. now exists x.
  - intros (x & Hin & Hx). destruct (find P l) eqn:E; [eauto|].
    pose proof (find_none _ _ E x Hin). congruence.
Qed.

Lemma fields_of_is_Some (content k : string) (struct_names : list string) :
  is_Some (fields_of content struct_names !! k)
  <-> exists s, In s struct_names /\ declares content s k = true.
Proof.
  rewrite fields_of_lookup, find_is_Some.
  split; intros (s & Hin & Hd); exists s; (split; [|exact Hd]).
  - apply in_rev. exact Hin.
  - apply -> in_rev. exact Hin.
Qed.

Lemma find_app {A} (P : A -> bool) (l r : list A) :
  find P (l ++ r) = match find P l with Some x => Some x | None => find P r end.
Proof.
  induction l as [|x l IH]; simpl; [reflexivity|].
  now destruct (P x).
Qed.

End KeyFacts.

(** X8. A key is in the extracted mapping exactly when the block of one of
    the requested structs has a field whose Go name starts with a capital,
    whose tag does not contain [,omitempty], whose type does not end with
    [Config], and whose tag cut at its first comma is the key.  The types
    the source lists by name all end with [Config] and add no case. *)
Theorem extracted_keys_iff (content : string) (struct_names : list string)
    (k : string) :
  is_Some (fields_of content struct_names !! k)
  <-> exists s body go ty tag,
        In s struct_names
        /\ Re.search (Patterns.struct_pattern s) content = Some [body]
        /\ In [go; ty; tag] (Re.findall Patterns.field_pattern body)
        /\ first_isupper go = true
        /\ Str.contains ",omitempty" tag = false
        /\ Str.endswith "Config" ty = false
        /\ k = Str.before "," tag.
Proof.
  rewrite KeyFacts.fields_of_is_Some. split.
  - intros (s & Hin & Hd).
    apply CheckerFacts.declares_inv in Hd
      as (body & go & ty & tag & Hs & Hm & Hk & _).
    apply CheckerFacts.field_key_inv in Hk as (Hgo & Ho & Hty & ->).
    now exists s, body, go, ty, tag.
  - intros (s & body & go & ty & tag & Hin & Hs & Hm & Hgo & Ho & Hty & ->).
    exists s. split; [exact Hin|].
    now apply (KeyFacts.declares_intro content s body go ty tag).
Qed.

(** X9. Extracting over a list of struct names is extracting over its
    parts and laying the later part over the earlier one: the mapping of
    [l1 ++ l2] is that of [l2] completed by that of [l1]. *)
Theorem fields_of_app (content : string) (l1 l2 : list string) :
  fields_of content (l1 ++ l2)
  = fields_of content l2 ∪ fields_of content l1.
Proof.
  apply map_eq. intros k.
  rewrite lookup_union, !CheckerFacts.fields_of_lookup, rev_app_distr.
  rewrite KeyFacts.find_app.
  destruct (find _ (rev l2)), (find _ (rev l1)); reflexivity.
Qed.

(** ** Texts in which no match starts *)

Module LayoutFacts.
Import Str StrFacts Re ReFacts Layout.

Lemma strip_prefix_app_l (a b : string) :
  forall s : string,
    strip_prefix (a +:+ b) s
    = match strip_prefix a s with
      | Some s' => strip_prefix b s'
      | None => None
      end.
Proof.
  induction a as [|c a IH]; intros s; simpl; [reflexivity|].
  destruct s as [|d s]; [reflexivity|].
  destruct (Ascii.eqb c d); [apply IH | reflexivity].
Qed.

(** A keyword that starts a text [u ++ t] starts [u], or [u] is a
    beginning of it. *)
Lemma startswith_app_cases (keyword : string) :
  forall u t : string,
    startswith keyword (u +:+ t) = true ->
    startswith keyword u = true \/ startswith u keyword = true.
Proof.
  induction keyword as [|a keyword IH]; intros u t H; [now left|].
  destruct u as [|b u]; [now right|].
  unfold startswith in *. simpl in *.
  rewrite (Ascii.eqb_sym b a).
  destruct (Ascii.eqb a b); [|discriminate H].
  now apply (IH u t).
Qed.

Lemma quiet_start (keyword : string) (c : ascii) (a t : string) :
  quiet keyword (String c a) = true ->
  startswith keyword (String c a +:+ t) = false.
Proof.
  intros H. simpl in H.
  apply andb_true_iff in H as [H _]. apply andb_true_iff in H as [H1 H2].
  destruct (startswith keyword (String c a +:+ t)) eqn:E; [|reflexivity].
  apply startswith_app_cases in E as [E|E]; rewrite E in *; discriminate.
Qed.

Lemma quiet_tail (keyword : string) (c : ascii) (a : string) :
  quiet keyword (String c a) = true -> quiet keyword a = true.
Proof. simpl. intros H. now apply andb_true_iff in H as [_ H]. Qed.

(** The scan of a pattern that starts with the keyword goes through a
    quiet text without a match. *)
Lemma findall_quiet (r : regex) (keyword filler t : string) :
  (forall s, startswith keyword s = false -> match_at r s = None) ->
  quiet keyword filler = true ->
  findall r (filler +:+ t) = findall r t.
Proof.
  intros Hr. induction filler as [|a filler IH]; intros H; [reflexivity|].
  change (String a filler +:+ t) with (String a (filler +:+ t)).
  rewrite findall_skip.
  - apply IH. now apply quiet_tail in H.
  - apply Hr. now apply (quiet_start keyword a filler t).
Qed.

Lemma findall_quiet_end (r : regex) (keyword last : string) :
  (forall s, startswith keyword s = false -> match_at r s = None) ->
  startswith keyword "" = false ->
  quiet keyword last = true -> findall r last = [].
Proof.
  intros Hr Hk H. rewrite <- (append_nil_r last).
  rewrite (findall_quiet r keyword) by assumption.
  apply findall_nil. now apply Hr.
Qed.

Lemma search_skip (r : regex) (c : ascii) (s : string) :
  match_at r (String c s) = None -> search r (String c s) = search r s.
Proof. intros H. simpl. now rewrite H. Qed.

Lemma search_quiet (r : regex) (keyword filler t : string) :
  (forall s, startswith keyword s = false -> match_at r s = None) ->
  quiet keyword filler = true ->
  search r (filler +:+ t) = search r t.
Proof.
  intros Hr. induction filler as [|a filler IH]; intros H; [reflexivity|].
  change (String a filler +:+ t) with (String a (filler +:+ t)).
  rewrite search_skip.
  - apply IH. now apply quiet_tail in H.
  - apply Hr. now apply (quiet_start keyword a filler t).
Qed.

End LayoutFacts.

(** ** The flag extractor on declarations in any surrounding text *)

Module FlagLayoutFacts.
Import Str StrFacts Re ReFacts Patterns CheckerFacts Layout LayoutFacts.
Import FlagSource FlagSourceFacts FlagLayout.

Lemma typed_flag_keyword (s : string) :
  startswith flags_call s = false -> match_at typed_flag s = None.
Proof.
  unfold startswith, flags_call, match_at, typed_flag.
  cbn [seq alt fold_right fold_left rmatch].
  now destruct (strip_prefix ".Flags()." s).
Qed.

Lemma count_flag_keyword (s : string) :
  startswith flags_call s = false -> match_at count_flag s = None.
Proof.
  unfold startswith, flags_call, match_at, count_flag.
  cbn [seq fold_right rmatch].
  change ".Flags().CountP(" with (".Flags()." +:+ "CountP(").
  rewrite strip_prefix_app_l.
  now destruct (strip_prefix ".Flags()." s).
Qed.

Lemma flags_of_tidy (items : list (string * declaration)) (last : string) :
  tidy_flags items last ->
  flags_of (source items last) = list_to_set (names items).
Proof.
  intros [Hitems Hlast]. rewrite flags_of_eq, fmap_app, list_to_set_app_L.
  induction Hitems as [|[filler d] items [Hf Hd] _ IH]; simpl.
  - rewrite (findall_quiet_end _ _ _ typed_flag_keyword eq_refl Hlast).
    rewrite (findall_quiet_end _ _ _ count_flag_keyword eq_refl Hlast).
    set_solver.
  - simpl in Hf.
    rewrite (findall_quiet _ _ _ _ typed_flag_keyword Hf).
    rewrite (findall_quiet _ _ _ _ count_flag_keyword Hf).
    destruct d as [s name|name gap short]; simpl in Hd.
    + rewrite findall_typed_typed by apply Hd.
      rewrite findall_count_typed by exact Hd.
      simpl. rewrite <- IH. set_solver.
    + destruct Hd as (Hn & Hg & Hs).
      rewrite findall_typed_counted by assumption.
      rewrite findall_count_counted by (try apply Hn; try apply Hs; assumption).
      simpl. rewrite <- IH. set_solver.
Qed.

End FlagLayoutFacts.

(** X10. On a source text made of flag declarations written with their
    tokens next to each other, each after a text in which [.Flags().]
    does not start, the flag extractor returns the long names of the
    declarations, all of them and nothing else, and reports nothing. *)
Theorem flag_extractor_finds_declarations (repo : string -> option string)
    (file_path : string) (items : list (string * FlagSource.declaration))
    (last : string) (self : DocChecker) :
  repo file_path = Some (FlagSource.source items last) ->
  FlagLayout.tidy_flags items last ->
  _extract_flags_from_file repo file_path self
  = (list_to_set (FlagSource.names items), self).
Proof.
  intros Hfile Htidy. unfold _extract_flags_from_file. rewrite Hfile.
  now rewrite FlagLayoutFacts.flags_of_tidy.
Qed.

Lemma flag_extractor_finds_declarations_witness :
  let items :=
    [ ("func init() {" +:+ Samples.nl +:+ Samples.tab +:+ "fuzzCmd",
       FlagSource.Typed FlagSource.SString "config");
      ("," +:+ Patterns.q +:+ "path to the config file, e.g. medusa.json"
         +:+ Patterns.q +:+ ")" +:+ Samples.nl +:+ Samples.tab
         +:+ "fuzzCmd.PersistentFlags().Lookup(x); fuzzCmd",
       FlagSource.Counted "verbose" " " "v") ] in
  let last := ", 0)" +:+ Samples.nl +:+ "}" in
  _extract_flags_from_file
    (Samples.files [("cmd/fuzz_flags.go", FlagSource.source items last)])
    "cmd/fuzz_flags.go" init
  = (list_to_set (FlagSource.names items), init).
Proof.
  intros items last.
  apply (flag_extractor_finds_declarations
           (Samples.files [("cmd/fuzz_flags.go", FlagSource.source items last)])
           "cmd/fuzz_flags.go" items last init).
  - reflexivity.
  - split; [|reflexivity].
    repeat constructor; try reflexivity; discriminate.
Defined.

(** ** The cheatcode extractor on registrations *)

Module CheatcodeSourceFacts.
Import Str StrFacts Re ReFacts Patterns PatternFacts CheckerFacts.
Import Layout LayoutFacts CheatcodeSource.

#[local] Arguments consumed : simpl never.
#[local] Arguments Ascii.eqb !_ !_ / : simpl nomatch.
#[local] Arguments not_dquote : simpl never.
#[local] Arguments Chars.isspace : simpl never.

Lemma cheatcode_keyword (s : string) :
  startswith method_call s = false -> match_at cheatcode_pattern s = None.
Proof.
  unfold startswith, method_call, match_at, cheatcode_pattern.
  cbn [seq fold_right rmatch].
  now destruct (strip_prefix "addMethod(" s).
Qed.

(** The pattern matches a registration whatever white space, line breaks
    included, stands between the parenthesis and the quote. *)
Lemma cheatcode_match (r : registration) (rest : string) :
  valid_registration r ->
  match_at cheatcode_pattern (registration_text r +:+ rest)
  = Some (rest, [signature r]).
Proof.
  destruct r as [g name]. intros [Hgap [Hne Hq]].
  cbn [indent signature] in *.
  destruct name as [|c n]; [contradiction|].
  simpl in Hq. apply andb_true_iff in Hq as [Hc Hn].
  unfold match_at, cheatcode_pattern, registration_text, method_call.
  cbn [indent signature].
  rewrite !append_assoc. simpl.
  erewrite star_greedy;
    [reflexivity | exact Hgap | exact FlagSourceFacts.dquote_not_space |].
  simpl. rewrite ?Ascii.eqb_refl, Hc.
  erewrite star_greedy;
    [reflexivity | exact Hn | exact FlagSourceFacts.dquote_stops |].
  simpl. rewrite ?Ascii.eqb_refl, ?consumed_cons. reflexivity.
Qed.

Lemma length_registration_pos (r : registration) (rest : string) :
  String.length rest < String.length (registration_text r +:+ rest).
Proof.
  rewrite length_append. unfold registration_text, method_call. simpl. lia.
Qed.

Lemma findall_source (items : list (string * registration)) (last : string) :
  tidy_registrations items last ->
  findall cheatcode_pattern (registrations_text items last)
  = map (fun item => [signature (snd item)]) items.
Proof.
  intros [Hitems Hlast].
  induction Hitems as [|[filler r] items [Hf Hr] _ IH];
    cbn [registrations_text map fst snd] in *.
  - exact (findall_quiet_end _ _ _ cheatcode_keyword eq_refl Hlast).
  -
    rewrite (findall_quiet _ _ _ _ cheatcode_keyword Hf).
    rewrite (findall_match _ _ _ _ (cheatcode_match r _ Hr)
               (length_registration_pos r _)).
    now rewrite IH.
Qed.

Lemma cheatcodes_of_source (items : list (string * registration))
    (last : string) :
  tidy_registrations items last ->
  cheatcodes_of (registrations_text items last)
  = list_to_set (signatures items).
Proof.
  intros H. unfold cheatcodes_of, signatures. rewrite (findall_source _ _ H).
  f_equal. induction items as [|item items IH]; [reflexivity|].
  simpl. unfold item_string at 1. simpl. f_equal.
  apply IH. destruct H as [H Hl]. split; [now inversion H | exact Hl].
Qed.

Lemma base_methods_of_list (l : list string) :
  base_methods_of (list_to_set l) = list_to_set (map (before "(") l).
Proof.
  unfold base_methods_of. apply set_eq. intros x.
  rewrite elem_of_map, elem_of_list_to_set. split.
  - intros (y & -> & Hy). apply elem_of_list_to_set in Hy.
    apply list_elem_of_In. apply in_map. now apply list_elem_of_In.
  - intros Hx. apply list_elem_of_In in Hx.
    apply in_map_iff in Hx as (y & <- & Hy).
    exists y. split; [reflexivity|].
    apply elem_of_list_to_set. now apply list_elem_of_In.
Qed.

End CheatcodeSourceFacts.

(** X11. On a source text made of cheatcode registrations, each with any
    white space (line breaks included) between the parenthesis and the
    quote and each after a text in which [addMethod(] does not start, the
    cheatcode extractor returns the registered strings, all of them and
    nothing else, and reports nothing; the base methods are these strings
    cut at their first parenthesis. *)
Theorem cheatcode_extractor_finds_registrations
    (repo : string -> option string)
    (items : list (string * CheatcodeSource.registration))
    (last : string) (self : DocChecker) :
  repo cheatcode_source
  = Some (CheatcodeSource.registrations_text items last) ->
  CheatcodeSource.tidy_registrations items last ->
  _extract_cheatcodes repo self
  = (list_to_set (CheatcodeSource.signatures items), self)
  /\ base_methods_of (fst (_extract_cheatcodes repo self))
     = list_to_set (map (Str.before "(") (CheatcodeSource.signatures items)).
Proof.
  intros Hfile Htidy. unfold _extract_cheatcodes. rewrite Hfile.
  rewrite (CheatcodeSourceFacts.cheatcodes_of_source _ _ Htidy).
  split; [reflexivity|]. apply CheatcodeSourceFacts.base_methods_of_list.
Qed.

Lemma cheatcode_extractor_finds_registrations_witness :
  let items :=
    [ ("contract.",
       CheatcodeSource.mkRegistration "" "warp");
      (", abi.Arguments{}," +:+ Samples.nl +:+ "contract.",
       CheatcodeSource.mkRegistration (Samples.nl +:+ Samples.tab)
         "toString(address)") ] in
  let last := ", abi.Arguments{}," +:+ Samples.nl in
  let repo := Samples.files [(cheatcode_source,
                              CheatcodeSource.registrations_text items last)] in
  _extract_cheatcodes repo init
  = (list_to_set (CheatcodeSource.signatures items), init)
  /\ base_methods_of (fst (_extract_cheatcodes repo init))
     = list_to_set (map (Str.before "(") (CheatcodeSource.signatures items)).
Proof.
  intros items last repo.
  apply (cheatcode_extractor_finds_registrations repo items last init).
  - reflexivity.
  - split; [|reflexivity].
    repeat constructor; try reflexivity; discriminate.
Defined.

(** ** The config extractor on a struct block with tagged fields *)

Module ConfigSourceFacts.
Import Str StrFacts Re ReFacts Patterns PatternFacts CheckerFacts.
Import Layout LayoutFacts ConfigSource.

(** *** Character classes *)

Lemma word_not_space (c : ascii) :
  Chars.isword c = true -> Chars.isspace c = false.
Proof.
  destruct c as [[] [] [] [] [] [] [] []]; vm_compute; intros H;
    first [reflexivity | discriminate H].
Qed.

Lemma space_not_word (c : ascii) :
  Chars.isspace c = true -> Chars.isword c = false.
Proof.
  intros H. destruct (Chars.isword c) eqn:E; [|reflexivity].
  apply word_not_space in E. congruence.
Qed.

Lemma nsb_not_space (c : ascii) :
  Chars.not_space_backtick c = true -> Chars.isspace c = false.
Proof.
  unfold Chars.not_space_backtick. intros H.
  apply andb_true_iff in H as [H _]. now apply negb_true_iff in H.
Qed.

Lemma space_not_nsb (c : ascii) :
  Chars.isspace c = true -> Chars.not_space_backtick c = false.
Proof. unfold Chars.not_space_backtick. now intros ->. Qed.

Lemma nsb_not_backtick (c : ascii) :
  Chars.not_space_backtick c = true -> Chars.isnot "`" c = true.
Proof.
  unfold Chars.not_space_backtick. intros H.
  now apply andb_true_iff in H as [_ H].
Qed.

Lemma word_not_backtick (c : ascii) :
  Chars.isword c = true -> Chars.isnot "`" c = true.
Proof.
  destruct c as [[] [] [] [] [] [] [] []]; vm_compute; intros H;
    first [reflexivity | discriminate H].
Qed.

Lemma space_not_backtick (c : ascii) :
  Chars.isspace c = true -> Chars.isnot "`" c = true.
Proof.
  destruct c as [[] [] [] [] [] [] [] []]; vm_compute; intros H;
    first [reflexivity | discriminate H].
Qed.

Lemma word_nonspace (c : ascii) :
  Chars.isword c = true -> negb (Chars.isspace c) = true.
Proof. intros H. now rewrite (word_not_space c H). Qed.

Lemma nsb_nonspace (c : ascii) :
  Chars.not_space_backtick c = true -> negb (Chars.isspace c) = true.
Proof. intros H. now rewrite (nsb_not_space c H). Qed.

Lemma all_impl (p p' : ascii -> bool) (s : string) :
  (forall c, p c = true -> p' c = true) ->
  all p s = true -> all p' s = true.
Proof.
  intros Hp. induction s as [|c s IH]; simpl; [reflexivity|].
  intros H. apply andb_true_iff in H as [Hc H].
  now rewrite (Hp c Hc), (IH H).
Qed.

(** *** Splitting texts *)

(** A text splits in one way at its first character of a class. *)
Lemma split_first (p : ascii -> bool) (x : string) :
  forall (x' : string) (c c' : ascii) (y y' : string),
    all (fun a => negb (p a)) x = true ->
    all (fun a => negb (p a)) x' = true ->
    p c = true -> p c' = true ->
    x +:+ String c y = x' +:+ String c' y' ->
    x = x' /\ String c y = String c' y'.
Proof.
  induction x as [|a x IH]; intros [|a' x'] c c' y y' Hx Hx' Hc Hc' E;
    simpl in *.
  - now split.
  - injection E as -> _. apply andb_true_iff in Hx' as [Ha _].
    rewrite Hc in Ha. discriminate Ha.
  - injection E as -> _. apply andb_true_iff in Hx as [Ha _].
    rewrite Hc' in Ha. discriminate Ha.
  - injection E as -> E.
    apply andb_true_iff in Hx as [_ Hx]. apply andb_true_iff in Hx' as [_ Hx'].
    destruct (IH x' c c' y y' Hx Hx' Hc Hc' E) as [-> Hy]. now split.
Qed.

Lemma append_eq_append (a : string) :
  forall b c d : string,
    a +:+ b = c +:+ d ->
    (exists e, a = c +:+ e /\ d = e +:+ b)
    \/ (exists e, e <> "" /\ c = a +:+ e /\ b = e +:+ d).
Proof.
  induction a as [|x a IH]; intros b [|y c] d E; simpl in *.
  - left. exists "". now split.
  - right. exists (String y c). repeat split; [discriminate | exact E].
  - left. exists (String x a). now split.
  - injection E as -> E.
    destruct (IH b c d E) as [(e & -> & ->)|(e & He & -> & ->)].
    + left. now exists e.
    + right. now exists e.
Qed.

(** The first character of a class in a text that has one. *)
Lemma first_of_class (p : ascii -> bool) (s : string) :
  all (fun a => negb (p a)) s = false ->
  exists x c y,
    s = x +:+ String c y /\ all (fun a => negb (p a)) x = true /\ p c = true.
Proof.
  induction s as [|a s IH]; simpl; [discriminate|].
  destruct (p a) eqn:Ea; simpl.
  - intros _. exists "", a, s. now repeat split.
  - intros H. destruct (IH H) as (x & c & y & -> & Hx & Hc).
    exists (String a x), c, y. simpl. rewrite Ea. now repeat split.
Qed.

(** *** Quiet texts *)

Lemma quiet_app_r (keyword a b : string) :
  quiet keyword (a +:+ b) = true -> quiet keyword b = true.
Proof.
  induction a as [|c a IH]; [trivial|].
  intros H. apply IH. now apply quiet_tail in H.
Qed.

Lemma quiet_no_start (keyword a e t z : string) :
  quiet keyword (a +:+ e) = true -> e <> "" ->
  e +:+ t = keyword +:+ z -> False.
Proof.
  intros H He E. apply quiet_app_r in H.
  destruct e as [|c e]; [contradiction|].
  apply (quiet_start keyword c e t) in H.
  rewrite E, startswith_app in H. discriminate H.
Qed.

(** *** The last character *)

Lemma ends_word_app (a u : string) :
  u <> "" -> ends_word (a +:+ u) = ends_word u.
Proof.
  intros Hu. induction a as [|c a IH]; [reflexivity|].
  simpl. destruct (a +:+ u) as [|d s] eqn:E; [|exact IH].
  destruct a; [simpl in E; contradiction | discriminate E].
Qed.

Lemma all_word_ends (u : string) :
  u <> "" -> all Chars.isword u = true -> ends_word u = true.
Proof.
  induction u as [|c u IH]; [contradiction|]. intros _ H.
  simpl in H. apply andb_true_iff in H as [Hc H].
  simpl. destruct u as [|d u]; [exact Hc|]. apply IH; [discriminate | exact H].
Qed.

(** *** One run of characters between white space *)

Lemma one_word_trailing (s : string) :
  all Chars.isspace s = true -> one_word Trailing s = true.
Proof.
  induction s as [|c s IH]; simpl; [reflexivity|].
  intros H. apply andb_true_iff in H as [-> H]. now apply IH.
Qed.

Lemma one_word_inside (b c : string) :
  all (fun a => negb (Chars.isspace a)) b = true ->
  all Chars.isspace c = true ->
  one_word Inside (b +:+ c) = true.
Proof.
  intros Hb Hc. induction b as [|x b IH]; simpl.
  - destruct c as [|y c]; [reflexivity|]. simpl in *.
    apply andb_true_iff in Hc as [-> Hc]. now apply one_word_trailing.
  - simpl in Hb. apply andb_true_iff in Hb as [Hx Hb].
    apply negb_true_iff in Hx. rewrite Hx. now apply IH.
Qed.

Lemma one_word_leading (a b c : string) :
  all Chars.isspace a = true ->
  all (fun x => negb (Chars.isspace x)) b = true ->
  all Chars.isspace c = true ->
  one_word Leading (a +:+ b +:+ c) = true.
Proof.
  intros Ha Hb Hc. induction a as [|x a IH]; simpl.
  - destruct b as [|y b]; simpl.
    + clear Hb. induction c as [|z c IHc]; [reflexivity|].
      simpl in *. apply andb_true_iff in Hc as [-> Hc]. now apply IHc.
    + simpl in Hb. apply andb_true_iff in Hb as [Hy Hb].
      apply negb_true_iff in Hy. rewrite Hy. now apply one_word_inside.
  - simpl in Ha. apply andb_true_iff in Ha as [-> Ha]. now apply IH.
Qed.

(** Two runs separated by white space are one run too many, whatever
    stands before them and in whatever phase the reading starts. *)
Lemma one_word_inside_run (g rest : string) :
  all (fun x => negb (Chars.isspace x)) g = true ->
  one_word Inside (g +:+ rest) = one_word Inside rest.
Proof.
  induction g as [|x g IH]; simpl; [reflexivity|].
  intros H. apply andb_true_iff in H as [Hx H].
  apply negb_true_iff in Hx. rewrite Hx. now apply IH.
Qed.

Lemma one_word_trailing_run (s rest : string) :
  all Chars.isspace s = true ->
  one_word Trailing (s +:+ rest) = one_word Trailing rest.
Proof.
  induction s as [|x s IH]; simpl; [reflexivity|].
  intros H. apply andb_true_iff in H as [-> H]. now apply IH.
Qed.

Lemma two_words_rejected (g s t rest : string) :
  g <> "" -> all (fun x => negb (Chars.isspace x)) g = true ->
  s <> "" -> all Chars.isspace s = true ->
  t <> "" -> all (fun x => negb (Chars.isspace x)) t = true ->
  forall (x : string) (seen : phase),
    one_word seen (x +:+ g +:+ s +:+ t +:+ rest) = false.
Proof.
  intros Hg0 Hg Hs0 Hs Ht0 Ht.
  assert (Hin : one_word Inside (g +:+ s +:+ t +:+ rest) = false).
  { rewrite one_word_inside_run by exact Hg.
    destruct s as [|a s]; [contradiction|]. simpl in Hs.
    apply andb_true_iff in Hs as [Ha Hs]. simpl. rewrite Ha.
    rewrite one_word_trailing_run by exact Hs.
    destruct t as [|b t]; [contradiction|]. simpl in Ht.
    apply andb_true_iff in Ht as [Hb _]. apply negb_true_iff in Hb.
    simpl. now rewrite Hb. }
  assert (Hany : forall seen, one_word seen (g +:+ s +:+ t +:+ rest) = false).
  { intros seen. destruct g as [|a g']; [contradiction|].
    pose proof Hg as Hg'. simpl in Hg'.
    apply andb_true_iff in Hg' as [Ha Hg']. apply negb_true_iff in Ha.
    destruct seen; [| exact Hin | simpl; now rewrite Ha].
    simpl in Hin. rewrite Ha in Hin. simpl. now rewrite Ha. }
  induction x as [|a x IH]; intros seen; [apply Hany|].
  simpl. destruct seen, (Chars.isspace a); auto.
Qed.

(** *** A match of the field pattern *)

#[local] Arguments consumed : simpl never.
#[local] Arguments Ascii.eqb !_ !_ / : simpl nomatch.
#[local] Arguments not_dquote : simpl never.
#[local] Arguments Chars.isspace : simpl never.
#[local] Arguments Chars.isword : simpl never.
#[local] Arguments Chars.not_space_backtick : simpl never.

Lemma field_text_split (f : tagged_field) (rest : string) :
  field_text f +:+ rest
  = before_tag f +:+ String "`" ("json:" +:+ q +:+ tag f +:+ q +:+ rest).
Proof.
  unfold field_text, before_tag, tag_mark. now rewrite !append_assoc.
Qed.

Lemma field_text_mark (f : tagged_field) (rest : string) :
  field_text f +:+ rest
  = before_tag f +:+ tag_mark +:+ (tag f +:+ q +:+ rest).
Proof.
  unfold field_text, before_tag, tag_mark. now rewrite !append_assoc.
Qed.

(** Every match of the field pattern is a valid field, followed by the
    remainder. *)
Lemma field_match_inv (t s' : string) (gs : list string) :
  match_at field_pattern t = Some (s', gs) ->
  exists f : tagged_field,
    valid_field f /\ t = field_text f +:+ s' /\ gs = groups f.
Proof.
  intros H. apply match_at_sound in H.
  unfold field_pattern in H. cbn [seq fold_right] in H.
  unravel.
  match goal with
  | Hw : Chars.isword ?c = true, Hws : all Chars.isword ?pre = true,
    Hs : Chars.isspace ?c2 = true, Hss : all Chars.isspace ?pre2 = true,
    Hn : Chars.not_space_backtick ?c0 = true,
    Hns : all Chars.not_space_backtick ?pre0 = true,
    Hg : all Chars.isspace ?pre3 = true,
    Hq : not_dquote ?c1 = true, Hqs : all not_dquote ?pre1 = true |- _ =>
      exists (mkField (String c pre) (String c2 pre2) (String c0 pre0) pre3
                (String c1 pre1));
      split;
      [ unfold valid_field; cbn [go_name sep go_type gap tag]; simpl;
        rewrite Hw, Hws, Hs, Hss, Hn, Hns, Hg;
        repeat split; try discriminate; simpl; now rewrite Hq, Hqs
      | split;
        [ unfold field_text, tag_mark; cbn [go_name sep go_type gap tag];
          rewrite !append_assoc; reflexivity
        | reflexivity ] ]
  end.
Qed.

(** The pattern matches a valid field and stops after the closing quote
    of its tag. *)
Lemma field_match (f : tagged_field) (rest : string) :
  valid_field f ->
  match_at field_pattern (field_text f +:+ rest) = Some (rest, groups f).
Proof.
  destruct f as [go sp ty gp tg].
  unfold valid_field, groups, field_text, tag_mark.
  cbn [go_name sep go_type gap tag].
  intros (Hgo0 & Hgo & Hsp0 & Hsp & Hty0 & Hty & Hgp & Htg0 & Htg).
  destruct go as [|g0 go]; [contradiction|].
  destruct sp as [|s0 sp]; [contradiction|].
  destruct ty as [|t0 ty]; [contradiction|].
  destruct tg as [|q0 tg]; [contradiction|].
  simpl in Hgo, Hsp, Hty, Htg.
  apply andb_true_iff in Hgo as [Hg0 Hgo].
  apply andb_true_iff in Hsp as [Hs0 Hsp].
  apply andb_true_iff in Hty as [Ht0 Hty].
  apply andb_true_iff in Htg as [Hq0 Htg].
  unfold match_at, field_pattern. rewrite !append_assoc. simpl.
  rewrite Hg0.
  erewrite star_greedy;
    [reflexivity | exact Hgo | now apply space_not_word |].
  rewrite Hs0.
  erewrite star_greedy;
    [reflexivity | exact Hsp | now apply nsb_not_space |].
  rewrite Ht0.
  destruct gp as [|p0 gp].
  - simpl.
    erewrite star_greedy; [reflexivity | exact Hty | reflexivity |].
    simpl. rewrite ?Ascii.eqb_refl, Hq0.
    erewrite star_greedy;
      [reflexivity | exact Htg | exact FlagSourceFacts.dquote_stops |].
    simpl. rewrite ?Ascii.eqb_refl, ?consumed_cons. reflexivity.
  - simpl in Hgp. apply andb_true_iff in Hgp as [Hp0 Hgp]. simpl.
    erewrite star_greedy;
      [reflexivity | exact Hty | now apply space_not_nsb |].
    rewrite (star_greedy Chars.isspace (String p0 gp) "`"
               ("json:" +:+ q +:+ String q0 tg +:+ q +:+ rest) _
               (rest, [String g0 go; String t0 ty; String q0 tg]));
      [reflexivity | simpl; now rewrite Hp0, Hgp | reflexivity |].
    simpl. rewrite ?Ascii.eqb_refl, Hq0.
    erewrite star_greedy;
      [reflexivity | exact Htg | exact FlagSourceFacts.dquote_stops |].
    simpl. rewrite ?Ascii.eqb_refl, ?consumed_cons. reflexivity.
Qed.

(** *** No match starts before a field *)

Lemma before_tag_no_backtick (f : tagged_field) :
  valid_field f -> all (fun a => negb (Ascii.eqb "`" a)) (before_tag f) = true.
Proof.
  intros (_ & Hgo & _ & Hsp & _ & Hty & Hgp & _).
  change (all (Chars.isnot "`") (before_tag f) = true).
  unfold before_tag. rewrite !all_app.
  rewrite (all_impl _ _ _ word_not_backtick Hgo).
  rewrite (all_impl _ _ _ space_not_backtick Hsp).
  rewrite (all_impl _ _ _ nsb_not_backtick Hty).
  now rewrite (all_impl _ _ _ space_not_backtick Hgp).
Qed.

Lemma all_app_inv (p : ascii -> bool) (a b : string) :
  all p (a +:+ b) = true -> all p a = true /\ all p b = true.
Proof. rewrite all_app. apply andb_true_iff. Qed.

(** If a match that starts in the text [u] before a field reaches the
    tag of that field, then [u] is made of word characters. *)
Lemma shape_conflict (f f' : tagged_field) (u : string) :
  valid_field f -> valid_field f' -> u <> "" ->
  u +:+ before_tag f = before_tag f' ->
  ends_word u = true.
Proof.
  intros (Hgo0 & Hgo & Hsp0 & Hsp & Hty0 & Hty & Hgp & _)
         (Hgo0' & Hgo' & Hsp0' & Hsp' & Hty0' & Hty' & Hgp' & _) Hu E.
  unfold before_tag in E.
  destruct (sep f) as [|s0 sp] eqn:Esp; [contradiction|].
  destruct (sep f') as [|s0' sp'] eqn:Esp'; [contradiction|].
  simpl in Hsp, Hsp'.
  apply andb_true_iff in Hsp as [Hs0 Hsp].
  apply andb_true_iff in Hsp' as [Hs0' Hsp'].
  pose proof (all_impl _ _ _ word_nonspace Hgo) as Hgo_ns.
  pose proof (all_impl _ _ _ word_nonspace Hgo') as Hgo_ns'.
  pose proof (all_impl _ _ _ nsb_nonspace Hty) as Hty_ns.
  pose proof (all_impl _ _ _ nsb_nonspace Hty') as Hty_ns'.
  destruct (all (fun a => negb (Chars.isspace a)) u) eqn:Eu.
  - (* [u] runs into the name *)
    rewrite <- (append_assoc u (go_name f)) in E.
    simpl in E.
    apply (split_first Chars.isspace) in E as [E _];
      [| now rewrite all_app, Eu, Hgo_ns | exact Hgo_ns' | exact Hs0
       | exact Hs0'].
    rewrite <- E in Hgo'. apply all_app_inv in Hgo' as [Hw _].
    now apply all_word_ends.
  - (* [u] holds white space: one run too many *)
    exfalso.
    apply first_of_class in Eu as (x & c & y & -> & Hx & Hc).
    rewrite append_assoc in E. simpl in E.
    apply (split_first Chars.isspace) in E as [_ E];
      [| exact Hx | exact Hgo_ns' | exact Hc | exact Hs0'].
    assert (Hyes : one_word Leading
                     (String s0' sp' +:+ go_type f' +:+ gap f') = true).
    { apply one_word_leading; [simpl; now rewrite Hs0', Hsp' | exact Hty_ns'
                                | exact Hgp']. }
    assert (Hno : one_word Leading
                    (String c y +:+ go_name f +:+ String s0 sp +:+ go_type f
                     +:+ gap f) = false).
    { apply two_words_rejected; try assumption; try discriminate.
      simpl. now rewrite Hs0, Hsp. }
    assert (E' : String c y +:+ go_name f +:+ String s0 sp +:+ go_type f
                 +:+ gap f
                 = String s0' sp' +:+ go_type f' +:+ gap f') by exact E.
    rewrite E' in Hno. congruence.
Qed.

Lemma no_match_in_filler (a u : string) (f : tagged_field) (rest : string) :
  calm (a +:+ u) -> u <> "" -> valid_field f ->
  match_at field_pattern (u +:+ field_text f +:+ rest) = None.
Proof.
  intros [Hquiet Hend] Hu Hf.
  destruct (match_at field_pattern (u +:+ field_text f +:+ rest))
    as [[s' gs]|] eqn:E; [exfalso | reflexivity].
  apply field_match_inv in E as (f' & Hf' & E & _).
  rewrite (field_text_split f), (field_text_split f') in E.
  apply append_eq_append in E as [(e & Hue & E)|(e & He & Hfe & E)].
  - (* the tag of the match opens in [u] *)
    destruct e as [|e0 e].
    + simpl in E. destruct Hf as (Hgo0 & Hgo & _).
      unfold before_tag in E.
      destruct (go_name f) as [|g0 go]; [contradiction|].
      simpl in E, Hgo. injection E as <- _. discriminate Hgo.
    + rewrite Hue, <- append_assoc in Hquiet.
      apply (quiet_no_start _ _ _ (field_text f +:+ rest)
               (tag f' +:+ q +:+ s')) in Hquiet;
        [exact Hquiet | discriminate |].
      rewrite (field_text_split f), <- E. unfold tag_mark.
      now rewrite !append_assoc.
  - (* the match runs through [u] to the tag of the field *)
    symmetry in E.
    apply (split_first (Ascii.eqb "`")) in E as [E _];
      [| | now apply before_tag_no_backtick | reflexivity | reflexivity].
    + subst e. symmetry in Hfe.
      pose proof (shape_conflict f f' u Hf Hf' Hu Hfe) as Hw.
      rewrite ends_word_app in Hend by exact Hu. congruence.
    + pose proof (before_tag_no_backtick f' Hf') as H.
      rewrite Hfe in H. now apply all_app_inv in H as [_ H].
Qed.

(** The scan goes through a text in which no match starts. *)
Lemma findall_through (r : regex) (u t : string) :
  (forall a b, u = a +:+ b -> b <> "" -> match_at r (b +:+ t) = None) ->
  findall r (u +:+ t) = findall r t.
Proof.
  induction u as [|c u IH]; intros H; [reflexivity|].
  change (String c u +:+ t) with (String c (u +:+ t)).
  rewrite findall_skip.
  - apply IH. intros a b -> Hb. now apply (H (String c a) b).
  - apply (H "" (String c u)); [reflexivity | discriminate].
Qed.

Lemma no_match_in_last (a u : string) :
  quiet tag_mark (a +:+ u) = true -> match_at field_pattern u = None.
Proof.
  intros Hquiet.
  destruct (match_at field_pattern u) as [[s' gs]|] eqn:E;
    [exfalso | reflexivity].
  apply field_match_inv in E as (f' & _ & -> & _).
  rewrite field_text_mark, <- (append_assoc a (before_tag f')) in Hquiet.
  apply (quiet_no_start _ _ _ "" (tag f' +:+ q +:+ s')) in Hquiet;
    [exact Hquiet | discriminate |].
  now rewrite append_nil_r, ?append_assoc.
Qed.

Lemma length_field_pos (f : tagged_field) (rest : string) :
  valid_field f -> String.length rest < String.length (field_text f +:+ rest).
Proof.
  intros (Hgo0 & _). rewrite length_append. unfold field_text.
  rewrite length_append.
  destruct (go_name f); [contradiction | simpl; lia].
Qed.

(** On a body made of valid fields, each after a calm text, the scan
    finds the fields, in order, and nothing else. *)
Lemma findall_body (items : list (string * tagged_field)) (last : string) :
  tidy_body items last ->
  findall field_pattern (body items last)
  = map (fun item => groups (snd item)) items.
Proof.
  intros [Hitems Hlast].
  induction Hitems as [|[filler f] items [Hc Hf] _ IH];
    cbn [body map fst snd] in *.
  - rewrite <- (append_nil_r last). rewrite findall_through.
    + now apply findall_nil.
    + intros a b E _. rewrite append_nil_r.
      apply (no_match_in_last a). now rewrite <- E.
  - rewrite findall_through.
    + rewrite (findall_match _ _ _ _ (field_match f _ Hf)
                 (length_field_pos f _ Hf)).
      now rewrite IH.
    + intros a b E Hb. apply (no_match_in_filler a); [|exact Hb | exact Hf].
      now rewrite <- E.
Qed.

(** *** The struct block *)

Lemma struct_keyword (struct_name s : string) :
  startswith (head struct_name) s = false ->
  match_at (struct_pattern struct_name) s = None.
Proof.
  unfold startswith, head, match_at, struct_pattern.
  cbn [seq fold_right rmatch].
  rewrite strip_prefix_app_l.
  destruct (strip_prefix "type " s) as [s1|]; [|reflexivity].
  rewrite strip_prefix_app_l.
  destruct (strip_prefix struct_name s1) as [s2|]; [|reflexivity].
  now destruct (strip_prefix " struct" s2).
Qed.

(** The pattern matches a block and captures its body up to the first
    closing brace. *)
Lemma struct_match (struct_name space struct_body post : string) :
  all Chars.isspace space = true ->
  struct_body <> "" -> all (Chars.isnot "}") struct_body = true ->
  match_at (struct_pattern struct_name)
    (block struct_name space struct_body +:+ post)
  = Some (post, [struct_body]).
Proof.
  intros Hspace Hne Hbody.
  destruct struct_body as [|b0 b]; [contradiction|].
  simpl in Hbody. apply andb_true_iff in Hbody as [Hb0 Hb].
  unfold block, head, match_at, struct_pattern. rewrite !append_assoc.
  cbn [seq fold_right rmatch].
  rewrite (strip_prefix_app "type "), (strip_prefix_app struct_name),
    (strip_prefix_app " struct").
  change ("{" +:+ String b0 b +:+ "}" +:+ post)
    with (String "{" (String b0 (b +:+ String "}" post))).
  erewrite star_greedy; [reflexivity | exact Hspace | reflexivity |].
  simpl. rewrite Hb0.
  erewrite star_greedy; [reflexivity | exact Hb | reflexivity |].
  simpl. rewrite ?consumed_cons. reflexivity.
Qed.

Lemma search_match (r : regex) (s s' : string) (gs : list string) :
  match_at r s = Some (s', gs) -> search r s = Some gs.
Proof. intros H. destruct s; simpl; now rewrite H. Qed.

Lemma search_block (struct_name pre space struct_body post : string) :
  quiet (head struct_name) pre = true ->
  all Chars.isspace space = true ->
  struct_body <> "" -> all (Chars.isnot "}") struct_body = true ->
  search (struct_pattern struct_name)
    (pre +:+ block struct_name space struct_body +:+ post)
  = Some [struct_body].
Proof.
  intros Hpre Hspace Hne Hbody.
  rewrite (search_quiet _ (head struct_name))
    by (try exact Hpre; apply struct_keyword).
  apply (search_match _ _ post). now apply struct_match.
Qed.

(** Without the head of the block in the text, the search finds
    nothing. *)
Lemma search_absent (struct_name content : string) :
  contains (head struct_name) content = false ->
  search (struct_pattern struct_name) content = None.
Proof.
  induction content as [|c content IH]; cbn [search contains]; intros H.
  - now rewrite (struct_keyword _ "" eq_refl).
  - apply orb_false_iff in H as [H H'].
    rewrite (struct_keyword _ _ H). now apply IH.
Qed.

Lemma declares_block (struct_name pre space post k : string)
    (items : list (string * tagged_field)) (last : string) :
  quiet (head struct_name) pre = true ->
  all Chars.isspace space = true ->
  body items last <> "" -> all (Chars.isnot "}") (body items last) = true ->
  tidy_body items last ->
  declares (pre +:+ block struct_name space (body items last) +:+ post)
    struct_name k
  = existsb (fun item => bool_decide (field_key (groups (snd item)) = Some k))
      items.
Proof.
  intros Hpre Hspace Hne Hbody Htidy. unfold declares.
  rewrite search_block by assumption. cbn [nth].
  rewrite (findall_body _ _ Htidy).
  induction items as [|item items IH]; [reflexivity|].
  clear IH. generalize (item :: items). intros l.
  induction l as [|x l IH]; simpl; [reflexivity | now rewrite IH].
Qed.

End ConfigSourceFacts.

(** X12. The config extractor reads, for a struct name made of word
    characters, the block of the first place where [type <name> struct]
    stands: the text between the opening brace that follows it, after any
    white space, and the first closing brace after that.  What follows
    that brace is not read, so a field after a nested closing brace is not
    seen. *)
Theorem struct_block_is_read (struct_name pre space struct_body post : string)
    (fields : gmap string string) :
  plain_name struct_name ->
  Layout.quiet (ConfigSource.head struct_name) pre = true ->
  Str.all Chars.isspace space = true ->
  struct_body <> "" ->
  Str.all (Chars.isnot "}") struct_body = true ->
  add_struct
    (pre +:+ ConfigSource.block struct_name space struct_body +:+ post)
    fields struct_name
  = fold_left (add_field struct_name)
      (Re.findall Patterns.field_pattern struct_body) fields.
Proof.
  intros _ Hpre Hspace Hne Hbody. unfold add_struct.
  now rewrite ConfigSourceFacts.search_block.
Qed.

Lemma struct_block_is_read_witness :
  add_struct
    ("package config" +:+ Samples.nl
     +:+ ConfigSource.block "Limits" " "
           (Samples.nl +:+ Samples.field "Workers" "int" "workers"
            +:+ Samples.tab +:+ "Hooks struct{")
     +:+ "}" +:+ Samples.nl +:+ Samples.field "Depth" "int" "depth" +:+ "}")
    ∅ "Limits"
  = fold_left (add_field "Limits")
      (Re.findall Patterns.field_pattern
         (Samples.nl +:+ Samples.field "Workers" "int" "workers"
          +:+ Samples.tab +:+ "Hooks struct{")) ∅.
Proof.
  apply (struct_block_is_read "Limits" ("package config" +:+ Samples.nl) " "
           (Samples.nl +:+ Samples.field "Workers" "int" "workers"
            +:+ Samples.tab +:+ "Hooks struct{")
           ("}" +:+ Samples.nl +:+ Samples.field "Depth" "int" "depth" +:+ "}"));
    first [reflexivity | discriminate].
Defined.

(** X13. On a source file whose block for a struct, named with word
    characters, holds valid tagged fields, each after a text in which no
    tag opens and which does not end with a word character, the config
    extractor reports nothing and
    returns exactly the keys of the fields that are exported, not marked
    [,omitempty] and not of a type ending with [Config], each under the
    name of the struct. *)
Theorem config_extractor_reads_fields (repo : string -> option string)
    (source_file struct_name pre space post : string)
    (items : list (string * ConfigSource.tagged_field)) (last : string)
    (self : DocChecker) :
  plain_name struct_name ->
  repo source_file
  = Some (pre +:+ ConfigSource.block struct_name space
                    (ConfigSource.body items last) +:+ post) ->
  Layout.quiet (ConfigSource.head struct_name) pre = true ->
  Str.all Chars.isspace space = true ->
  ConfigSource.body items last <> "" ->
  Str.all (Chars.isnot "}") (ConfigSource.body items last) = true ->
  ConfigSource.tidy_body items last ->
  snd (_extract_config_fields repo source_file [struct_name] self) = self
  /\ forall k s,
       fst (_extract_config_fields repo source_file [struct_name] self) !! k
       = Some s
       <-> s = struct_name
           /\ exists f,
                In f (map snd items)
                /\ first_isupper (ConfigSource.go_name f) = true
                /\ Str.contains ",omitempty" (ConfigSource.tag f) = false
                /\ Str.endswith "Config" (ConfigSource.go_type f) = false
                /\ k = Str.before "," (ConfigSource.tag f).
Proof.
  intros _ Hfile Hpre Hspace Hne Hbody Htidy.
  unfold _extract_config_fields. rewrite Hfile. cbn [fst snd].
  split; [reflexivity|]. intros k s.
  rewrite CheckerFacts.fields_of_lookup. cbn [rev app find].
  rewrite ConfigSourceFacts.declares_block by assumption.
  destruct (existsb _ items) eqn:E.
  - apply existsb_exists in E as ([filler f] & Hin & Hk).
    apply bool_decide_eq_true in Hk. cbn [snd] in Hk.
    apply CheckerFacts.field_key_inv in Hk as (Hgo & Ho & Hty & ->).
    split.
    + intros [= <-]. split; [reflexivity|]. exists f.
      repeat split; try assumption.
      apply in_map_iff. now exists (filler, f).
    + now intros [-> _].
  - split; [discriminate|]. intros [_ (f & Hin & Hgo & Ho & Hty & ->)].
    apply in_map_iff in Hin as ([filler f'] & Hf & Hin). cbn [snd] in Hf.
    subst f'.
    assert (Hex : existsb
                    (fun item =>
                       bool_decide
                         (field_key (ConfigSource.groups (snd item))
                          = Some (Str.before "," (ConfigSource.tag f))))
                    items = true).
    { apply existsb_exists. exists (filler, f). split; [exact Hin|].
      apply bool_decide_eq_true. cbn [snd]. unfold ConfigSource.groups.
      now apply KeyFacts.field_key_intro. }
    congruence.
Qed.

Lemma config_extractor_reads_fields_witness :
  let items :=
    [ (Samples.nl +:+ Samples.tab +:+ "// Workers is the number of threads."
       +:+ Samples.nl +:+ Samples.tab,
       ConfigSource.mkField "Workers" " " "int" " " "workers");
      ("`" +:+ Samples.nl +:+ Samples.tab,
       ConfigSource.mkField "Timeout" " " "int" " " "timeout,omitempty");
      ("`" +:+ Samples.nl +:+ Samples.tab,
       ConfigSource.mkField "Testing" (Samples.tab +:+ " ") "TestingConfig" ""
         "testing");
      ("`" +:+ Samples.nl +:+ Samples.tab +:+ "seed int" +:+ Samples.nl
       +:+ Samples.tab,
       ConfigSource.mkField "Depth" " " "*big.Int" " " "depth,string") ] in
  let last := "`" +:+ Samples.nl in
  let pre := "package config" +:+ Samples.nl
             +:+ "// FuzzingConfig describes the fuzzer." +:+ Samples.nl in
  let post := Samples.nl +:+ "type Other struct {}" in
  let repo :=
    Samples.files
      [("fuzzing/config/config.go",
        pre +:+ ConfigSource.block "FuzzingConfig" " "
                  (ConfigSource.body items last) +:+ post)] in
  snd (_extract_config_fields repo "fuzzing/config/config.go"
         ["FuzzingConfig"] init) = init
  /\ forall k s,
       fst (_extract_config_fields repo "fuzzing/config/config.go"
              ["FuzzingConfig"] init) !! k
       = Some s
       <-> s = "FuzzingConfig"
           /\ exists f,
                In f (map snd items)
                /\ first_isupper (ConfigSource.go_name f) = true
                /\ Str.contains ",omitempty" (ConfigSource.tag f) = false
                /\ Str.endswith "Config" (ConfigSource.go_type f) = false
                /\ k = Str.before "," (ConfigSource.tag f).
Proof.
  intros items last pre post repo.
  apply (config_extractor_reads_fields repo "fuzzing/config/config.go"
           "FuzzingConfig" pre " " post items last init).
  - reflexivity.
  - reflexivity.
  - reflexivity.
  - reflexivity.
  - discriminate.
  - reflexivity.
  - split; [|reflexivity].
    repeat constructor; try reflexivity; discriminate.
Defined.

(** ** A struct that is not in the source *)

(** X14. A struct name, made of word characters like the other names of
    the list, whose [type <name> struct] does not stand in the source file
    is skipped in silence: the extractor returns what it returns without
    that name and adds neither an error nor a warning. *)
Theorem absent_struct_is_skipped (repo : string -> option string)
    (source_file content struct_name : string) (l1 l2 : list string)
    (self : DocChecker) :
  Forall plain_name (l1 ++ struct_name :: l2) ->
  repo source_file = Some content ->
  Str.contains ("type " +:+ struct_name +:+ " struct") content = false ->
  _extract_config_fields repo source_file (l1 ++ struct_name :: l2) self
  = (fields_of content (l1 ++ l2), self).
Proof.
  intros _ Hfile Habsent. unfold _extract_config_fields. rewrite Hfile.
  f_equal. unfold fields_of. rewrite !fold_left_app. cbn [fold_left].
  f_equal. unfold add_struct.
  now rewrite (ConfigSourceFacts.search_absent struct_name content Habsent).
Qed.

Lemma absent_struct_is_skipped_witness :
  _extract_config_fields
    (Samples.files [("fuzzing/config/config.go", Samples.limits)])
    "fuzzing/config/config.go" (["Limits"] ++ "LoggingConfig" :: []) init
  = (fields_of Samples.limits (["Limits"] ++ []), init).
Proof.
  apply (absent_struct_is_skipped
           (Samples.files [("fuzzing/config/config.go", Samples.limits)])
           "fuzzing/config/config.go" Samples.limits "LoggingConfig"
           ["Limits"] [] init); [|reflexivity|reflexivity].
  repeat constructor.
Defined.

(** ** The two counts of the cheatcode check *)

Module CountFacts.

Lemma size_set_map_le (f : string -> string) (X : gset string) :
  size (set_map f X : gset string) <= size X.
Proof.
  induction X as [|x X Hx IH] using set_ind_L.
  - now rewrite set_map_empty, size_empty.
  - rewrite set_map_union_L, set_map_singleton_L.
    rewrite size_union_alt, size_singleton.
    rewrite (size_union {[x]} X) by set_solver. rewrite size_singleton.
    assert (size (set_map f X ∖ {[f x]} : gset string)
            <= size (set_map f X : gset string))
      by (apply subseteq_size; set_solver).
    lia.
Qed.

Lemma set_map_empty_iff (f : string -> string) (X : gset string) :
  (set_map f X : gset string) = ∅ <-> X = ∅.
Proof.
  split; [|intros ->; apply set_map_empty].
  intros H. apply set_eq. intros x. split; [|set_solver].
  intros Hx. assert (f x ∈ (set_map f X : gset string)) by set_solver.
  rewrite H in *. set_solver.
Qed.

End CountFacts.

(** X15. The two numbers [check_cheatcodes] prints: the number of base
    methods never exceeds the number of registered strings, and one is
    zero exactly when the other is. *)
Theorem base_methods_count (repo : string -> option string)
    (self : DocChecker) :
  let cheatcodes := fst (_extract_cheatcodes repo self) in
  let base_methods := base_methods_of cheatcodes in
  In (cheatcode_counts cheatcodes base_methods)
    (printed (check_cheatcodes repo self))
  /\ size base_methods <= size cheatcodes
  /\ (size base_methods = 0 <-> size cheatcodes = 0).
Proof.
  intros cheatcodes base_methods. split; [|split].
  - subst base_methods cheatcodes.
    unfold check_cheatcodes, _extract_cheatcodes.
    destruct (repo cheatcode_source) as [content|]; cbn [fst];
      match goal with
      | |- In _ (printed (_validate_cheatcodes_in_interface _ ?b ?s)) =>
          destruct (ExtendsFacts.extends_validate_cheatcodes repo b s)
            as (_ & _ & new & ->)
      end;
      cbn [printed print add_error]; rewrite !in_app_iff; left; right;
      now left.
  - apply CountFacts.size_set_map_le.
  - rewrite !size_empty_iff. fold_leibniz.
    apply CountFacts.set_map_empty_iff.
Qed.

(** ** Adding text to the documentation *)

Module MonotoneFacts.
Import Str StrFacts.

Lemma contains_around (needle pre hay post : string) :
  contains needle hay = true ->
  contains needle (pre +:+ hay +:+ post) = true.
Proof.
  intros H. apply contains_inv in H as (a & b & ->).
  replace (pre +:+ (a +:+ needle +:+ b) +:+ post)
    with ((pre +:+ a) +:+ needle +:+ (b +:+ post))
    by now rewrite !append_assoc.
  apply contains_app.
Qed.

End MonotoneFacts.

(** X16. Text added before or after a documentation never hides a name:
    a flag or a method that passes its presence test on a text passes it
    on every text that contains this text, and so does a config key when
    the characters of the whole text are below U+0100. *)
Theorem presence_survives_additions (pre doc_content post name : string) :
  (flag_present doc_content name = true ->
   flag_present (pre +:+ doc_content +:+ post) name = true)
  /\ (cheatcode_present doc_content name = true ->
      cheatcode_present (pre +:+ doc_content +:+ post) name = true)
  /\ (latin1 (pre +:+ doc_content +:+ post) ->
      field_present doc_content name = true ->
      field_present (pre +:+ doc_content +:+ post) name = true).
Proof.
  unfold flag_present, cheatcode_present, field_present.
  rewrite !PresenceFacts.lower_app.
  split; [|split]; [| |intros _]; intros H; rewrite ?orb_true_iff in *;
    try destruct H as [H|H]; auto using MonotoneFacts.contains_around.
Qed.

Lemma presence_survives_additions_witness :
  let doc_content := "Use --seed, function seed(uint256) or `seed`." in
  flag_present ("# Title" +:+ Samples.nl +:+ doc_content +:+ Samples.nl)
    "seed" = true
  /\ cheatcode_present ("# Title" +:+ Samples.nl +:+ doc_content +:+ Samples.nl)
       "seed" = true
  /\ field_present ("# Title" +:+ Samples.nl +:+ doc_content +:+ Samples.nl)
       "seed" = true.
Proof.
  intros doc_content.
  destruct (presence_survives_additions ("# Title" +:+ Samples.nl)
              doc_content Samples.nl "seed") as (Hflag & Hmethod & Hfield).
  split; [apply Hflag; reflexivity | split].
  - apply Hmethod. reflexivity.
  - apply Hfield; reflexivity.
Defined.

(** ** Every extracted symbol is written in the source *)

Module WrittenFacts.
Import Str StrFacts Re ReFacts Patterns PatternFacts CheckerFacts.
Import FlagSource FlagLayout.

#[local] Arguments consumed : simpl never.
#[local] Arguments not_dquote : simpl never.
#[local] Arguments Chars.isspace : simpl never.

Ltac written :=
  unfold render, setter_name; rewrite !append_assoc; reflexivity.

Lemma typed_flag_inv (t s' : string) (gs : list string) :
  match_at typed_flag t = Some (s', gs) ->
  exists s name,
    t = render (Typed s name) +:+ s' /\ gs = [name] /\ quoted name.
Proof.
  intros H. apply match_at_sound in H.
  unfold typed_flag in H. cbn [seq alt fold_right fold_left] in H.
  unravel;
    match goal with
    | Hq : not_dquote ?c = true, Hqs : all not_dquote ?pre = true |- _ =>
        first [ exists SString, (String c pre); split; [written|]
              | exists SInt, (String c pre); split; [written|]
              | exists SBool, (String c pre); split; [written|]
              | exists SUint64, (String c pre); split; [written|]
              | exists SStringSlice, (String c pre); split; [written|] ];
        split; [reflexivity | now apply quoted_cons]
    end.
Qed.

Lemma count_flag_inv (t s' : string) (gs : list string) :
  match_at count_flag t = Some (s', gs) ->
  exists name gap short,
    t = render (Counted name gap short) +:+ s' /\ gs = [name; short]
    /\ accepted (Counted name gap short).
Proof.
  intros H. apply match_at_sound in H.
  unfold count_flag in H. cbn [seq fold_right] in H.
  unravel.
  match goal with
  | Hq : not_dquote ?c = true, Hqs : all not_dquote ?pre = true,
    Hg : all Chars.isspace ?gap = true,
    Hq' : not_dquote ?c' = true, Hqs' : all not_dquote ?pre' = true |- _ =>
      exists (String c pre), gap, (String c' pre');
      split;
      [ unfold render; rewrite !append_assoc; reflexivity
      | split; [reflexivity|];
        repeat split; try discriminate; try assumption;
        simpl; first [now rewrite Hq, Hqs | now rewrite Hq', Hqs'] ]
  end.
Qed.

Lemma cheatcode_inv (t s' : string) (gs : list string) :
  match_at cheatcode_pattern t = Some (s', gs) ->
  exists r : CheatcodeSource.registration,
    t = CheatcodeSource.registration_text r +:+ s'
    /\ gs = [CheatcodeSource.signature r]
    /\ CheatcodeSource.valid_registration r.
Proof.
  intros H. apply match_at_sound in H.
  unfold cheatcode_pattern in H. cbn [seq fold_right] in H.
  unravel.
  match goal with
  | Hq : not_dquote ?c = true, Hqs : all not_dquote ?pre = true,
    Hg : all Chars.isspace ?gap = true |- _ =>
      exists (CheatcodeSource.mkRegistration gap (String c pre));
      split;
      [ unfold CheatcodeSource.registration_text, CheatcodeSource.method_call;
        cbn [CheatcodeSource.indent CheatcodeSource.signature];
        rewrite !append_assoc; reflexivity
      | split; [reflexivity|];
        split; [exact Hg | now apply quoted_cons] ]
  end.
Qed.

Lemma struct_inv (struct_name t s' : string) (gs : list string) :
  match_at (struct_pattern struct_name) t = Some (s', gs) ->
  exists space struct_body,
    t = ConfigSource.block struct_name space struct_body +:+ s'
    /\ gs = [struct_body]
    /\ all Chars.isspace space = true
    /\ struct_body <> ""
    /\ all (Chars.isnot "}") struct_body = true.
Proof.
  intros H. apply match_at_sound in H.
  unfold struct_pattern in H. cbn [seq fold_right] in H.
  unravel.
  match goal with
  | Hb : Chars.isnot "}" ?c = true, Hbs : all (Chars.isnot "}") ?pre = true,
    Hg : all Chars.isspace ?gap = true |- _ =>
      exists gap, (String c pre);
      split;
      [ unfold ConfigSource.block, ConfigSource.head;
        rewrite !append_assoc; reflexivity
      | split; [reflexivity|];
        split; [exact Hg|]; split; [discriminate|];
        simpl; now rewrite Hb, Hbs ]
  end.
Qed.

End WrittenFacts.

(** X17. The extractors invent nothing.  Every extracted flag is the long
    name of a declaration that stands in the source with one of the six
    setters of the patterns; every extracted cheatcode is the string of a
    registration that stands in the source; every entry of the config
    mapping, for struct names made of word characters, comes from a tagged
    field that stands in the block the extractor reads for the struct it
    is mapped to: the text between the brace that follows
    [type <struct> struct], after white space, and the first closing
    brace. *)
Theorem extracted_symbols_are_written (content : string)
    (struct_names : list string) :
  (forall flag,
      flag ∈ flags_of content ->
      exists pre d post,
        content = pre +:+ FlagSource.render d +:+ post
        /\ FlagLayout.accepted d /\ FlagSource.flag_name d = flag)
  /\ (forall cheatcode,
         cheatcode ∈ cheatcodes_of content ->
         exists pre r post,
           content = pre +:+ CheatcodeSource.registration_text r +:+ post
           /\ CheatcodeSource.valid_registration r
           /\ CheatcodeSource.signature r = cheatcode)
  /\ (Forall plain_name struct_names ->
      forall k s,
        fields_of content struct_names !! k = Some s ->
        In s struct_names
        /\ exists pre space struct_body post before f after,
             content = pre +:+ ConfigSource.block s space struct_body
                       +:+ post
             /\ Re.search (Patterns.struct_pattern s) content
                = Some [struct_body]
             /\ Str.all Chars.isspace space = true
             /\ struct_body <> ""
             /\ Str.all (Chars.isnot "}") struct_body = true
             /\ struct_body = before +:+ ConfigSource.field_text f +:+ after
             /\ ConfigSource.valid_field f
             /\ first_isupper (ConfigSource.go_name f) = true
             /\ Str.contains ",omitempty" (ConfigSource.tag f) = false
             /\ Str.endswith "Config" (ConfigSource.go_type f) = false
             /\ k = Str.before "," (ConfigSource.tag f)).
Proof.
  split; [|split].
  - intros flag H. apply CheckerFacts.elem_of_flags_of in H as (m & Hm & ->).
    destruct Hm as [Hm|Hm];
      apply ReFacts.findall_sound in Hm as (pre & t & s' & -> & Hm).
    + apply WrittenFacts.typed_flag_inv in Hm as (s & name & -> & -> & Hq).
      now exists pre, (FlagSource.Typed s name), s'.
    + apply WrittenFacts.count_flag_inv
        in Hm as (name & gap & short & -> & -> & Hq).
      now exists pre, (FlagSource.Counted name gap short), s'.
  - intros cheatcode H. apply CheckerFacts.elem_of_cheatcodes_of in H.
    apply ReFacts.findall_sound in H as (pre & t & s' & -> & Hm).
    apply WrittenFacts.cheatcode_inv in Hm as (r & -> & [= ->] & Hr).
    now exists pre, r, s'.
  - intros _ k s H. rewrite CheckerFacts.fields_of_lookup in H.
    apply find_some in H as [Hin Hd]. split; [now apply in_rev|].
    apply CheckerFacts.declares_inv in Hd
      as (struct_body & go & ty & tag & Hs & Hm & Hk & _).
    pose proof Hs as Hfirst.
    apply ReFacts.search_sound in Hs as (pre & t & post & E & Hs).
    apply WrittenFacts.struct_inv
      in Hs as (space & b & -> & [= <-] & Hspace & Hne & Hbody).
    apply ReFacts.findall_sound in Hm as (before & t & after & Eb & Hm).
    apply ConfigSourceFacts.field_match_inv in Hm as (f & Hf & -> & Hg).
    unfold ConfigSource.groups in Hg. injection Hg as -> -> ->.
    apply CheckerFacts.field_key_inv in Hk as (Hgo & Ho & Hty & ->).
    exists pre, space, struct_body, post, before, f, after.
    split; [exact E|]. split; [exact Hfirst|]. split; [exact Hspace|].
    split; [exact Hne|]. split; [exact Hbody|]. split; [exact Eb|].
    split; [exact Hf|]. split; [exact Hgo|]. split; [exact Ho|].
    split; [exact Hty | reflexivity].
Qed.

Lemma extracted_symbols_are_written_witness :
  exists pre d post,
    Samples.flag_on_one_line = pre +:+ FlagSource.render d +:+ post
    /\ FlagLayout.accepted d /\ FlagSource.flag_name d = "config".
Proof.
  apply (proj1 (extracted_symbols_are_written Samples.flag_on_one_line [])).
  vm_compute. reflexivity.
Defined.

(** ** The checks read nothing of the checker *)

Module IndependenceFacts.
Import CheckerFacts.

Lemma combine_init (self : DocChecker) : combine self init = self.
Proof. destruct self. unfold combine. simpl. now rewrite !app_nil_r. Qed.

Lemma combine_assoc (a b c : DocChecker) :
  combine (combine a b) c = combine a (combine b c).
Proof. unfold combine. simpl. now rewrite !app_assoc. Qed.

(** One more step after a checker that is [self] and what was added. *)
Lemma step (f : DocChecker -> DocChecker) (self x y : DocChecker) :
  adds_the_same f -> x = combine self y -> f x = combine self (f y).
Proof.
  intros Hf ->. rewrite (Hf (combine self y)), (Hf y).
  apply combine_assoc.
Qed.

Lemma adds_add_error (m : string) : adds_the_same (add_error m).
Proof.
  intros [es ws ps]. unfold combine, add_error. simpl. now rewrite !app_nil_r.
Qed.

Lemma adds_add_warning (m : string) : adds_the_same (add_warning m).
Proof.
  intros [es ws ps]. unfold combine, add_warning. simpl. now rewrite !app_nil_r.
Qed.

Lemma adds_print (line : string) : adds_the_same (print line).
Proof.
  intros [es ws ps]. unfold combine, print. simpl. now rewrite !app_nil_r.
Qed.

Lemma adds_with_errors (ms : list string) :
  adds_the_same (fun self => with_errors self ms).
Proof.
  intros [es ws ps]. unfold combine, with_errors. simpl. now rewrite !app_nil_r.
Qed.

Section Methods.
Variable repo : string -> option string.

Lemma adds_validate_flags (flags : gset string) (command doc_file : string) :
  adds_the_same (_validate_flags_documented repo flags command doc_file).
Proof.
  intros self. destruct (repo doc_file) as [doc|] eqn:E.
  - rewrite !(validate_flags_eq _ _ _ _ _ _ E). apply adds_with_errors.
  - unfold _validate_flags_documented. rewrite E. apply adds_add_error.
Qed.

Lemma adds_validate_cheatcodes (base_methods : gset string) :
  adds_the_same (_validate_cheatcodes_in_interface repo base_methods).
Proof.
  intros self. destruct (repo cheatcode_doc) as [doc|] eqn:E.
  - rewrite !(validate_cheatcodes_eq _ _ _ _ E). apply adds_with_errors.
  - unfold _validate_cheatcodes_in_interface. rewrite E.
    apply adds_add_error.
Qed.

Lemma adds_validate_fields (fields : gmap string string) (doc_file : string) :
  adds_the_same (_validate_config_fields_documented repo fields doc_file).
Proof.
  intros self. destruct (repo doc_file) as [doc|] eqn:E.
  - rewrite !(validate_fields_eq _ _ _ _ _ E).
    apply (adds_with_errors
             (map (fun p => field_message doc_file (fst p) (snd p))
                (undocumented_fields doc fields))).
  - unfold _validate_config_fields_documented. rewrite E.
    apply adds_add_error.
Qed.

Ltac steps :=
  repeat first
    [ apply (step (print _)); [apply adds_print|]
    | apply (step (add_error _)); [apply adds_add_error|]
    | apply (step (add_warning _)); [apply adds_add_warning|]
    | apply (step (_validate_flags_documented _ _ _ _));
      [apply adds_validate_flags|]
    | apply (step (_validate_cheatcodes_in_interface _ _));
      [apply adds_validate_cheatcodes|]
    | apply (step (_validate_config_fields_documented _ _ _));
      [apply adds_validate_fields|] ];
  symmetry; apply combine_init.

Lemma adds_check_cli_flags : adds_the_same (check_cli_flags repo).
Proof.
  intros self. unfold check_cli_flags, _extract_flags_from_file.
  destruct (repo "cmd/fuzz_flags.go"), (repo "cmd/init_flags.go"); steps.
Qed.

Lemma adds_check_cheatcodes : adds_the_same (check_cheatcodes repo).
Proof.
  intros self. unfold check_cheatcodes, _extract_cheatcodes.
  destruct (repo cheatcode_source); steps.
Qed.

Lemma config_mapping_adds (mapping : string * list string * string)
    (total : nat) (self : DocChecker) :
  check_config_mapping repo (total, self) mapping
  = (fst (check_config_mapping repo (total, init) mapping),
     combine self (snd (check_config_mapping repo (total, init) mapping))).
Proof.
  destruct mapping as [[source_file struct_names] doc_file].
  unfold check_config_mapping, _extract_config_fields.
  destruct (repo source_file) as [content|]; case_bool_decide; cbn [fst snd];
    f_equal; steps.
Qed.

Lemma config_mappings_add (l : list (string * list string * string)) :
  forall (total : nat) (self : DocChecker),
    fold_left (check_config_mapping repo) l (total, self)
    = (fst (fold_left (check_config_mapping repo) l (total, init)),
       combine self
         (snd (fold_left (check_config_mapping repo) l (total, init)))).
Proof.
  induction l as [|m l IH]; intros total self; cbn [fold_left].
  - cbn [fst snd]. now rewrite combine_init.
  - rewrite (config_mapping_adds m total self).
    rewrite (surjective_pairing (check_config_mapping repo (total, init) m))
      at 3 4.
    rewrite IH.
    rewrite (IH _ (snd (check_config_mapping repo (total, init) m))).
    cbn [fst snd]. now rewrite combine_assoc.
Qed.

Lemma adds_check_config_fields : adds_the_same (check_config_fields repo).
Proof.
  intros self. unfold check_config_fields.
  rewrite (config_mappings_add _ 0 (print _ self)).
  rewrite (config_mappings_add _ 0 (print _ init)).
  cbn [fst snd].
  apply (step (print _)); [apply adds_print|].
  rewrite <- combine_assoc. f_equal. apply adds_print.
Qed.

Lemma errors_report (self : DocChecker) :
  errors (fst (report self)) = errors self.
Proof.
  destruct self as [es ws ps]. unfold report. cbn.
  destruct ws, es; cbn; rewrite ?ReportOutput.fold_print; reflexivity.
Qed.

End Methods.
End IndependenceFacts.

(** X18. Each of the three checks adds to the checker it is given exactly
    what it adds to a fresh one: it reads nothing of the errors, warnings
    and lines already there, so no check is cut short by the findings of
    an earlier one.  The errors [main] reports are those of the three
    checks run alone, in the order flags, cheatcodes, config fields. *)
Theorem checks_are_independent (repo : string -> option string) :
  adds_the_same (check_cli_flags repo)
  /\ adds_the_same (check_cheatcodes repo)
  /\ adds_the_same (check_config_fields repo)
  /\ errors (fst (main repo))
     = errors (check_cli_flags repo init)
       ++ errors (check_cheatcodes repo init)
       ++ errors (check_config_fields repo init).
Proof.
  split; [apply IndependenceFacts.adds_check_cli_flags|].
  split; [apply IndependenceFacts.adds_check_cheatcodes|].
  split; [apply IndependenceFacts.adds_check_config_fields|].
  unfold main. rewrite IndependenceFacts.errors_report.
  rewrite (IndependenceFacts.adds_check_config_fields repo).
  rewrite (IndependenceFacts.adds_check_cheatcodes repo).
  rewrite (IndependenceFacts.adds_check_cli_flags repo).
  cbn [errors combine print init app]. now rewrite !app_assoc.
Qed.

(** ** When the run succeeds, on a tree that can be read *)

Module WarningFacts.
Import ExtendsFacts.

Lemma extends_warning (a b : DocChecker) (w : string) :
  extends a b -> In w (warnings a) -> In w (warnings b).
Proof.
  intros (_ & [new ->] & _) H. apply in_or_app. now left.
Qed.

Section Warnings.
Variable repo : string -> option string.

Lemma absent_source_warns (acc : nat * DocChecker)
    (source_file : string) (struct_names : list string) (doc_file : string) :
  repo source_file = None ->
  In ("Config source file not found: " +:+ source_file)
    (warnings (snd (check_config_mapping repo acc
                      (source_file, struct_names, doc_file)))).
Proof.
  intros H. destruct acc as [total self].
  unfold check_config_mapping, _extract_config_fields. rewrite H.
  rewrite bool_decide_eq_true_2 by reflexivity.
  cbn [snd add_warning warnings]. apply in_or_app. right. now left.
Qed.

Lemma absent_sources_warn (l : list (string * list string * string))
    (source_file : string) (struct_names : list string) (doc_file : string) :
  In (source_file, struct_names, doc_file) l ->
  repo source_file = None ->
  forall acc,
    In ("Config source file not found: " +:+ source_file)
      (warnings (snd (fold_left (check_config_mapping repo) l acc))).
Proof.
  intros Hin Hsrc. induction l as [|m l IH]; [contradiction|].
  intros acc. cbn [fold_left]. destruct Hin as [->|Hin].
  - apply (extends_warning _ _ _ (extends_config_mappings repo l _)).
    now apply absent_source_warns.
  - now apply IH.
Qed.

Lemma warnings_report (self : DocChecker) :
  warnings (fst (report self)) = warnings self.
Proof.
  destruct self as [es ws ps]. unfold report. cbn.
  destruct ws, es; cbn; rewrite ?ReportOutput.fold_print; reflexivity.
Qed.

Lemma main_warns (source_file : string) (struct_names : list string)
    (doc_file : string) :
  In (source_file, struct_names, doc_file) config_mappings ->
  repo source_file = None ->
  In ("Config source file not found: " +:+ source_file)
    (warnings (fst (main repo))).
Proof.
  intros Hin Hsrc. unfold main. rewrite warnings_report.
  unfold check_config_fields.
  match goal with
  | |- context [fold_left ?f ?l ?acc] =>
      pose proof (absent_sources_warn l source_file struct_names doc_file
                    Hin Hsrc acc) as H;
      destruct (fold_left f l acc) as [total self']
  end.
  exact H.
Qed.

End Warnings.
End WarningFacts.

(** X6. On a tree in which every path that exists can be read as text,
    so that no read raises and the exception handler of [main] is not
    entered, [main] ends with exit code 0 exactly when both flag pairings
    and the cheatcode pairing pass and every config pairing of the table
    passes: the four flag files and the two cheatcode files exist, every
    extracted flag and base method passes its presence test, and every
    config mapping whose source exists and yields a field has its
    documentation file with every key present.  A config source that is
    absent is reported by a warning of the run and does not enter the
    exit code. *)
Theorem run_succeeds_iff_all_documented (tree : string -> entry)
    (repo : string -> option string) :
  reads_as tree repo ->
  (snd (main repo) = 0
   <-> flags_pass repo "cmd/fuzz_flags.go" "docs/src/cli/fuzz.md"
       /\ flags_pass repo "cmd/init_flags.go" "docs/src/cli/init.md"
       /\ cheatcodes_pass repo
       /\ Forall (config_pass repo) config_mappings)
  /\ (forall source_file struct_names doc_file,
        In (source_file, struct_names, doc_file) config_mappings ->
        tree source_file = Absent ->
        config_pass repo (source_file, struct_names, doc_file)
        /\ In ("Config source file not found: " +:+ source_file)
             (warnings (fst (main repo)))).
Proof.
  intros Htree. split.
  - unfold main. rewrite ReportFacts.report_code.
    match goal with
    | |- match errors ?s with _ => _ end = 0 <-> _ =>
        assert (H : errors s = []
                    <-> flags_pass repo "cmd/fuzz_flags.go"
                          "docs/src/cli/fuzz.md"
                        /\ flags_pass repo "cmd/init_flags.go"
                             "docs/src/cli/init.md"
                        /\ cheatcodes_pass repo
                        /\ Forall (config_pass repo) config_mappings);
        [|destruct (errors s)]
    end.
    + rewrite RunFacts.check_config_fields_clean,
        RunFacts.check_cheatcodes_clean, RunFacts.check_cli_flags_clean.
      cbn [print errors init]. tauto.
    + tauto.
    + split; [discriminate|]. intros H'. apply H in H'. discriminate.
  - intros source_file struct_names doc_file Hin Habsent.
    assert (Hsrc : repo source_file = None).
    { specialize (Htree source_file). now rewrite Habsent in Htree. }
    split.
    + intros content Hc. cbn [fst snd] in Hc. congruence.
    + now apply (WarningFacts.main_warns repo source_file struct_names
                   doc_file).
Qed.

Lemma run_succeeds_iff_all_documented_witness :
  (snd (main Samples.no_files) = 0
   <-> flags_pass Samples.no_files "cmd/fuzz_flags.go" "docs/src/cli/fuzz.md"
       /\ flags_pass Samples.no_files "cmd/init_flags.go"
            "docs/src/cli/init.md"
       /\ cheatcodes_pass Samples.no_files
       /\ Forall (config_pass Samples.no_files) config_mappings)
  /\ (forall source_file struct_names doc_file,
        In (source_file, struct_names, doc_file) config_mappings ->
        (fun _ : string => Absent) source_file = Absent ->
        config_pass Samples.no_files (source_file, struct_names, doc_file)
        /\ In ("Config source file not found: " +:+ source_file)
             (warnings (fst (main Samples.no_files)))).
Proof.
  apply (run_succeeds_iff_all_documented (fun _ => Absent) Samples.no_files).
  intros path. reflexivity.
Defined.
